(** * projeto-solar: the User model and its controller

    A shallow embedding of the record validation and persistence
    lifecycle of the repository:

    - module [Sql]: the class [User] that persists through SQLite
      (TypeScript, with [getDb] and [persistDb] of [config/database.ts]);
    - module [Mem]: the class [User] that keeps its records in the
      array [users] with the counter [nextId] (JavaScript);
    - module [Controller]: the handler [UserController.update].

    JavaScript values are modelled as the code uses them.  A string is a
    sequence of code units; this development covers the code units
    0..255, one [ascii] each.  A number is a finite value, an infinity
    or NaN; the code only compares numbers, which is exact on rationals.
    A timestamp stands for the ISO-8601 text of an instant and is never
    an empty string. *)

From Stdlib Require Import ZArith QArith Qcanon List Bool Ascii String Lia.
From Stdlib Require Sorted DecimalString DecimalN.
Import ListNotations.

Open Scope string_scope.
Open Scope list_scope.
Open Scope Z_scope.

(* ================================================================== *)
(** ** JavaScript strings *)

Module JsString.

Definition code (c : ascii) : N := N_of_ascii c.

(** White space and line terminators among the code units 0..255: what
    [String.prototype.trim] strips and what [\s] matches. *)
Definition is_space (c : ascii) : bool :=
  let n := code c in
  ((9 <=? n) && (n <=? 13) || (n =? 32) || (n =? 160))%N.

Fixpoint trimStart (s : string) : string :=
  match s with
  | EmptyString => EmptyString
  | String c r => if is_space c then trimStart r else s
  end.

Fixpoint trimEnd (s : string) : string :=
  match s with
  | EmptyString => EmptyString
  | String c r =>
      match trimEnd r with
      | EmptyString => if is_space c then EmptyString else String c EmptyString
      | r' => String c r'
      end
  end.

Definition trim (s : string) : string := trimEnd (trimStart s).

Definition is_empty (s : string) : bool :=
  match s with EmptyString => true | _ => false end.

(** Truthiness of a string: only the empty string is falsy. *)
Definition truthy (s : string) : bool := negb (is_empty s).

Fixpoint forallb (p : ascii -> bool) (s : string) : bool :=
  match s with
  | EmptyString => true
  | String c r => p c && forallb p r
  end.

Fixpoint map (f : ascii -> ascii) (s : string) : string :=
  match s with
  | EmptyString => EmptyString
  | String c r => String (f c) (map f r)
  end.

(** SQLite's [LOWER]: folds the ASCII letters only. *)
Definition sql_lower_char (c : ascii) : ascii :=
  let n := code c in
  if ((65 <=? n) && (n <=? 90))%N then ascii_of_N (n + 32) else c.

Definition LOWER (s : string) : string := map sql_lower_char s.

(** [String.prototype.toLowerCase] on the code units 0..255: the ASCII
    letters and the Latin-1 capitals U+00C0..U+00DE, the multiplication
    sign U+00D7 excepted. *)
Definition js_lower_char (c : ascii) : ascii :=
  let n := code c in
  if ((65 <=? n) && (n <=? 90))%N then ascii_of_N (n + 32)
  else if ((192 <=? n) && (n <=? 222) && negb (n =? 215))%N
       then ascii_of_N (n + 32)
       else c.

Definition toLowerCase (s : string) : string := map js_lower_char s.

Definition is_ascii (s : string) : bool :=
  forallb (fun c => (code c <? 128)%N) s.

End JsString.

(* ================================================================== *)
(** ** The regular expression [/^[^\s@]+@[^\s@]+\.[^\s@]+$/] *)

Module EmailRegex.
Import JsString.

(** The character class [[^\s@]]. *)
Definition cls (c : ascii) : bool :=
  negb (is_space c) && negb (code c =? 64)%N.

Definition is_dot (c : ascii) : bool := (code c =? 46)%N.

(** What the expression denotes: a non-empty run of the class, an at
    sign, a non-empty run, a dot, a non-empty run, and nothing else. *)
Definition matches (s : string) : Prop :=
  exists l d t : string,
    s = (l ++ "@" ++ d ++ "." ++ t)%string /\
    l <> "" /\ d <> "" /\ t <> "" /\
    forallb cls l = true /\ forallb cls d = true /\ forallb cls t = true.

(** The matcher.  The local part ends at the first at sign, since the
    class excludes it. *)
Fixpoint split_at (s : string) : option (string * string) :=
  match s with
  | EmptyString => None
  | String c r =>
      if (code c =? 64)%N then Some (EmptyString, r)
      else match split_at r with
           | Some (l, d) => Some (String c l, d)
           | None => None
           end
  end.

(** Some dot of [s] is followed by at least one more character. *)
Fixpoint dot_inside (s : string) : bool :=
  match s with
  | EmptyString => false
  | String c r =>
      match r with
      | EmptyString => false
      | String _ _ => is_dot c || dot_inside r
      end
  end.

Definition domain_ok (s : string) : bool :=
  match s with
  | EmptyString => false
  | String c r => forallb cls s && dot_inside r
  end.

Definition test (s : string) : bool :=
  match split_at s with
  | Some (l, d) => negb (is_empty l) && forallb cls l && domain_ok d
  | None => false
  end.

End EmailRegex.

(* ================================================================== *)
(** ** JavaScript numbers *)

Module JsNumber.

Inductive number : Type :=
| NaN
| Infinity (negative : bool)
| Fin (q : Qc).

Definition Int (z : Z) : number := Fin (Q2Qc (inject_Z z)).

Definition qc_ltb (x y : Qc) : bool :=
  match (x ?= y)%Qc with Lt => true | _ => false end.

(** [a < b]; every comparison with NaN is false. *)
Definition ltb (a b : number) : bool :=
  match a, b with
  | NaN, _ | _, NaN => false
  | Infinity true, Infinity true => false
  | Infinity true, _ => true
  | _, Infinity true => false
  | Infinity false, _ => false
  | Fin _, Infinity false => true
  | Fin x, Fin y => qc_ltb x y
  end.

(** [a > b] *)
Definition gtb (a b : number) : bool := ltb b a.

(** Truthiness of a number: zero and NaN are falsy. *)
Definition truthy (a : number) : bool :=
  match a with
  | NaN => false
  | Infinity _ => true
  | Fin q => negb (Qeq_bool q 0)
  end.

(** [n === z] for an integer [z]. *)
Definition eq_int (n : number) (z : Z) : bool :=
  match n with
  | Fin q => Qeq_bool q (inject_Z z)
  | _ => false
  end.

End JsNumber.

(* ================================================================== *)
(** ** [parseInt] on a string, radix left out *)

Module ParseInt.
Import JsString JsNumber.

Definition digit_value (radix : N) (c : ascii) : option N :=
  let n := code c in
  let v :=
    if ((48 <=? n) && (n <=? 57))%N then Some (n - 48)%N
    else if ((97 <=? n) && (n <=? 122))%N then Some (n - 87)%N
    else if ((65 <=? n) && (n <=? 90))%N then Some (n - 55)%N
    else None in
  match v with
  | Some d => if (d <? radix)%N then Some d else None
  | None => None
  end.

(** The value of the longest prefix of digits; [acc] is [None] until
    the first digit is read. *)
Fixpoint digits (radix : N) (s : string) (acc : option N) : option N :=
  match s with
  | EmptyString => acc
  | String c r =>
      match digit_value radix c with
      | Some d =>
          digits radix r
            (Some (match acc with Some a => a * radix + d | None => d end)%N)
      | None => acc
      end
  end.

Definition strip_sign (s : string) : bool * string :=
  match s with
  | String c r =>
      if (code c =? 45)%N then (true, r)
      else if (code c =? 43)%N then (false, r)
      else (false, s)
  | EmptyString => (false, s)
  end.

Definition strip_radix (s : string) : N * string :=
  match s with
  | String c0 (String c1 r) =>
      if ((code c0 =? 48) && ((code c1 =? 120) || (code c1 =? 88)))%N
      then (16%N, r) else (10%N, s)
  | _ => (10%N, s)
  end.

(** The result is the exact integer read; JavaScript rounds it to a
    double, which changes it only above 2^53. *)
Definition parseInt (input : string) : number :=
  let (negative, s1) := strip_sign (trimStart input) in
  let (radix, s2) := strip_radix s1 in
  match digits radix s2 None with
  | None => NaN
  | Some v => Int (if negative then - Z.of_N v else Z.of_N v)
  end.

End ParseInt.

(* ================================================================== *)
(** ** Effects: mutable state and exceptions *)

Module Effects.

Inductive Result (A : Type) : Type :=
| Return (a : A)
| Throw (e : string).
Arguments Return {A} a.
Arguments Throw {A} e.

(** A computation over a state [S]; what was written before an
    exception stays written. *)
Definition M (S A : Type) : Type := S -> Result A * S.

Definition ret {S A} (a : A) : M S A := fun s => (Return a, s).

Definition throw {S A} (e : string) : M S A := fun s => (Throw e, s).

Definition bind {S A B} (m : M S A) (k : A -> M S B) : M S B :=
  fun s =>
    match m s with
    | (Return a, s') => k a s'
    | (Throw e, s') => (Throw e, s')
    end.

(** [try { m } catch (error) { h error }] *)
Definition try_catch {S A} (m : M S A) (h : string -> M S A) : M S A :=
  fun s =>
    match m s with
    | (Return a, s') => (Return a, s')
    | (Throw e, s') => h e s'
    end.

Definition get {S} : M S S := fun s => (Return s, s).

Fixpoint mapM {S A B} (f : A -> M S B) (l : list A) : M S (list B) :=
  match l with
  | [] => ret []
  | x :: r => bind (f x) (fun y => bind (mapM f r) (fun ys => ret (y :: ys)))
  end.

End Effects.

Declare Scope monad_scope.
Delimit Scope monad_scope with monad.
Notation "x <- m ;; k" := (Effects.bind m (fun x => k))
  (at level 61, m at next level, right associativity) : monad_scope.
Notation "m ;;; k" := (Effects.bind m (fun _ => k))
  (at level 61, right associativity) : monad_scope.

(** An instant, standing for its ISO-8601 text; as a string it is never
    empty, hence always truthy. *)
Definition timestamp : Type := Z.

(* ================================================================== *)
(** ** Shared declarations: [types/user.types.ts] and the messages *)

Module Types.
Import JsNumber.

(** [interface UserData]; an absent field is [None]. *)
Record UserData : Type := {
  d_id : option Z;
  d_name : string;
  d_email : string;
  d_password : option string;
  d_age : option number;
  d_is_active : option bool;
  d_created_at : option timestamp;
  d_updated_at : option timestamp
}.

(** [interface UserCreateInput] *)
Record UserCreateInput : Type := {
  i_name : string;
  i_email : string;
  i_password : option string;
  i_age : option number
}.

(** [data as UserData] *)
Definition as_UserData (i : UserCreateInput) : UserData :=
  {| d_id := None; d_name := i_name i; d_email := i_email i;
     d_password := i_password i; d_age := i_age i;
     d_is_active := None; d_created_at := None; d_updated_at := None |}.

(** [interface UserPublic] *)
Record UserPublic : Type := {
  p_id : option Z;
  p_name : string;
  p_email : string;
  p_age : option number;
  p_is_active : bool;
  p_created_at : timestamp;
  p_updated_at : timestamp
}.

(** [interface UserList] *)
Record UserList : Type := {
  l_name : string;
  l_email : string;
  l_age : option number
}.

(** [interface ValidationResult] *)
Record ValidationResult : Type := {
  valid : bool;
  errors : list string
}.

(** The messages, with their accented letters as code units:
    U+00E9, U+00F3, U+00E1, U+00FA. *)
Definition chr (n : nat) : string := String (ascii_of_nat n) EmptyString.

Definition NAME_REQUIRED : string :=
  ("O nome " ++ chr 233 ++ " obrigat" ++ chr 243 ++ "rio")%string.
Definition NAME_TOO_SHORT : string :=
  "O nome deve ter pelo menos 2 caracteres".
Definition EMAIL_REQUIRED : string :=
  ("O email " ++ chr 233 ++ " obrigat" ++ chr 243 ++ "rio")%string.
Definition EMAIL_INVALID : string :=
  ("O email deve ser v" ++ chr 225 ++ "lido")%string.
Definition AGE_RANGE : string :=
  ("A idade deve ser um n" ++ chr 250 ++ "mero entre 0 e 150")%string.
Definition EMAIL_TAKEN : string :=
  ("Este email j" ++ chr 225 ++ " est" ++ chr 225 ++ " cadastrado")%string.

(** The three independent checks of [validate], shared by the two
    models; each yields the messages it pushes. *)
Definition check_name (name : string) : list string :=
  if negb (JsString.truthy name) || JsString.is_empty (JsString.trim name)
  then [NAME_REQUIRED]
  else if (String.length (JsString.trim name) <? 2)%nat
       then [NAME_TOO_SHORT] else [].

Definition check_email (email : string) : list string :=
  if negb (JsString.truthy email) || JsString.is_empty (JsString.trim email)
  then [EMAIL_REQUIRED]
  else if negb (EmailRegex.test email) then [EMAIL_INVALID] else [].

Definition is_nil {A} (l : list A) : bool :=
  match l with [] => true | _ => false end.

End Types.

(* ================================================================== *)
(** ** The SQLite-backed model: [models/User.ts] with [config/database.ts] *)

Module Sql.
Import JsNumber Effects Types.
Local Open Scope monad_scope.

(** [interface UserRow]: one row of the table [users]. *)
Record UserRow : Type := {
  row_id : Z;
  row_name : string;
  row_email : string;
  row_password : option string;
  row_age : option number;
  row_is_active : Z;
  row_created_at : timestamp;
  row_updated_at : timestamp
}.

(** The database handle: the table in rowid order, the AUTOINCREMENT
    counter kept in [sqlite_sequence], and the value of
    [last_insert_rowid()].  A column holds what the engine keeps of the
    value that was bound to it, and a query reads that back. *)
Record Database : Type := {
  users : list UserRow;
  sqlite_sequence : Z;
  last_insert_rowid : Z
}.

(** The process: the database and the system clock, of which the
    [n]-th reading is [clock n]. *)
Record World : Type := {
  db : Database;
  clock : nat -> timestamp;
  ticks : nat
}.

(** [new Date().toISOString()] *)
Definition now : M World timestamp :=
  fun w => (Return (clock w (ticks w)),
            {| db := db w; clock := clock w; ticks := S (ticks w) |}).

Definition getDb : M World Database := fun w => (Return (db w), w).

Definition setDb (d : Database) : M World unit :=
  fun w => (Return tt, {| db := d; clock := clock w; ticks := ticks w |}).

(** [persistDb()] exports the database to its file; the handle is
    unchanged. *)
Definition persistDb : M World unit := ret tt.

(** *** The SQL statements *)

(** What a column keeps of a number bound to it: the engine has no NaN
    and stores NULL in its place; every other number is kept, an
    integer as INTEGER and any other as REAL. *)
Definition stored_number (x : option number) : option number :=
  match x with
  | Some NaN => None
  | _ => x
  end.

Definition max_rowid (rows : list UserRow) : Z :=
  fold_right (fun r m => Z.max (row_id r) m) 0 rows.

(** [INTEGER PRIMARY KEY AUTOINCREMENT]: one more than the largest
    rowid the table has ever held. *)
Definition next_rowid (d : Database) : Z :=
  Z.max (sqlite_sequence d) (max_rowid (users d)) + 1.

Definition UNIQUE_FAILED : string := "UNIQUE constraint failed: users.email".

(** [INSERT INTO users (name, email, password, age, is_active,
    created_at, updated_at) VALUES (?, ?, ?, ?, ?, ?, ?)] *)
Definition sql_insert (name email : string) (password : option string)
    (age : option number) (is_active : Z) (created_at updated_at : timestamp)
  : M World unit :=
  d <- getDb ;;
  if existsb (fun r => String.eqb (row_email r) email) (users d)
  then throw UNIQUE_FAILED
  else
    let rowid := next_rowid d in
    setDb {| users := users d ++
               [{| row_id := rowid; row_name := name; row_email := email;
                   row_password := password;
                   row_age := stored_number age;
                   row_is_active := is_active;
                   row_created_at := created_at;
                   row_updated_at := updated_at |}];
             sqlite_sequence := rowid;
             last_insert_rowid := rowid |}.

(** [UPDATE users SET name = ?, email = ?, password = ?, age = ?,
    is_active = ?, updated_at = ? WHERE id = ?] *)
Definition sql_update (name email : string) (password : option string)
    (age : option number) (is_active : Z) (updated_at : timestamp) (id : Z)
  : M World unit :=
  d <- getDb ;;
  if existsb (fun r => row_id r =? id) (users d) &&
     existsb (fun r => negb (row_id r =? id) && String.eqb (row_email r) email)
             (users d)
  then throw UNIQUE_FAILED
  else
    setDb {| users :=
               map (fun r =>
                      if row_id r =? id
                      then {| row_id := row_id r; row_name := name;
                              row_email := email; row_password := password;
                              row_age := stored_number age;
                              row_is_active := is_active;
                              row_created_at := row_created_at r;
                              row_updated_at := updated_at |}
                      else r) (users d);
             sqlite_sequence := sqlite_sequence d;
             last_insert_rowid := last_insert_rowid d |}.

(** [SELECT last_insert_rowid() as id] *)
Definition sql_last_insert_rowid : M World Z :=
  d <- getDb ;; ret (last_insert_rowid d).

(** [SELECT * FROM users WHERE is_active = 1] *)
Definition select_active (d : Database) : list UserRow :=
  filter (fun r => row_is_active r =? 1) (users d).

(** [SELECT * FROM users WHERE id = ? AND is_active = 1] *)
Definition select_by_id (id : number) (d : Database) : list UserRow :=
  filter (fun r => eq_int id (row_id r) && (row_is_active r =? 1)) (users d).

(** [SELECT * FROM users WHERE LOWER(email) = LOWER(?) AND is_active = 1] *)
Definition select_by_email (email : string) (d : Database) : list UserRow :=
  filter (fun r => String.eqb (JsString.LOWER (row_email r)) (JsString.LOWER email)
                   && (row_is_active r =? 1)) (users d).

(** [SELECT COUNT( * ) as count FROM users WHERE LOWER(email) = LOWER(?)] *)
Definition count_by_email (email : string) (d : Database) : Z :=
  Z.of_nat (List.length (filter
    (fun r => String.eqb (JsString.LOWER (row_email r)) (JsString.LOWER email))
    (users d))).

(** [SELECT COUNT( * ) as count FROM users WHERE is_active = 1] *)
Definition count_active (d : Database) : Z :=
  Z.of_nat (List.length (select_active d)).

(** *** [class User] *)

Record User : Type := {
  id : option Z;
  name : string;
  email : string;
  password : option string;
  age : option number;
  is_active : bool;
  created_at : timestamp;
  updated_at : timestamp
}.

(** [x || null] on an optional string *)
Definition or_null (x : option string) : option string :=
  match x with
  | Some s => if JsString.truthy s then Some s else None
  | None => None
  end.

(** [x || new Date().toISOString()] on an optional timestamp *)
Definition or_now (x : option timestamp) : M World timestamp :=
  match x with
  | Some t => ret t
  | None => now
  end.

(** [constructor(data: UserData)] *)
Definition new_User (data : UserData) : M World User :=
  c <- or_now (d_created_at data) ;;
  u <- or_now (d_updated_at data) ;;
  ret {| id := d_id data;
         name := d_name data;
         email := d_email data;
         password := or_null (d_password data);
         age := d_age data;
         is_active := match d_is_active data with Some b => b | None => true end;
         created_at := c;
         updated_at := u |}.

Definition fromRow (row : UserRow) : UserData :=
  {| d_id := Some (row_id row);
     d_name := row_name row;
     d_email := row_email row;
     d_password := row_password row;
     d_age := row_age row;
     d_is_active := Some (row_is_active row =? 1);
     d_created_at := Some (row_created_at row);
     d_updated_at := Some (row_updated_at row) |}.

Definition check_age (age : option number) : list string :=
  match age with
  | Some a => if ltb a (Int 0) || gtb a (Int 150) then [AGE_RANGE] else []
  | None => []
  end.

Definition validate (this : User) : ValidationResult :=
  let errors :=
    check_name (name this) ++ check_email (email this) ++ check_age (age this) in
  {| valid := is_nil errors; errors := errors |}.

Definition toPublicJSON (this : User) : UserPublic :=
  {| p_id := id this;
     p_name := name this;
     p_email := email this;
     p_age := age this;
     p_is_active := is_active this;
     p_created_at := created_at this;
     p_updated_at := updated_at this |}.

Definition toListJSON (this : User) : UserList :=
  {| l_name := name this; l_email := email this; l_age := age this |}.

Definition with_updated_at (this : User) (t : timestamp) : User :=
  {| id := id this; name := name this; email := email this;
     password := password this; age := age this; is_active := is_active this;
     created_at := created_at this; updated_at := t |}.

Definition with_id (this : User) (i : Z) : User :=
  {| id := Some i; name := name this; email := email this;
     password := password this; age := age this; is_active := is_active this;
     created_at := created_at this; updated_at := updated_at this |}.

Definition with_is_active (this : User) (b : bool) : User :=
  {| id := id this; name := name this; email := email this;
     password := password this; age := age this; is_active := b;
     created_at := created_at this; updated_at := updated_at this |}.

(** [if (this.id)]: an absent identifier and 0 are falsy. *)
Definition truthy_id (i : option Z) : option Z :=
  match i with
  | Some z => if z =? 0 then None else Some z
  | None => None
  end.

(** [save()]; the object is mutated, the result is its new state. *)
Definition save (this : User) : M World User :=
  t <- now ;;
  let this := with_updated_at this t in
  this <- match truthy_id (id this) with
          | Some i =>
              sql_update (name this) (email this) (password this) (age this)
                (if is_active this then 1 else 0) (updated_at this) i ;;;
              ret this
          | None =>
              sql_insert (name this) (email this) (password this) (age this)
                (if is_active this then 1 else 0)
                (created_at this) (updated_at this) ;;;
              rowid <- sql_last_insert_rowid ;;
              ret (with_id this rowid)
          end ;;
  persistDb ;;;
  ret this.

(** *** The static methods *)

Definition findAll : M World (list User) :=
  d <- getDb ;;
  mapM (fun row => new_User (fromRow row)) (select_active d).

Definition findById (id : number) : M World (option User) :=
  d <- getDb ;;
  match select_by_id id d with
  | row :: _ => u <- new_User (fromRow row) ;; ret (Some u)
  | [] => ret None
  end.

Definition findByEmail (email : string) : M World (option User) :=
  d <- getDb ;;
  match select_by_email email d with
  | row :: _ => u <- new_User (fromRow row) ;; ret (Some u)
  | [] => ret None
  end.

Definition emailExists (email : string) : M World bool :=
  d <- getDb ;;
  ret (0 <? count_by_email email d).

(** [interface CreateUserResult] *)
Record CreateUserResult : Type := {
  success : bool;
  user : option User;
  result_errors : option (list string)
}.

Definition create (data : UserCreateInput) : M World CreateUserResult :=
  user <- new_User (as_UserData data) ;;
  let validation := validate user in
  if negb (valid validation)
  then ret {| success := false; user := None;
              result_errors := Some (errors validation) |}
  else
    taken <- emailExists (email user) ;;
    if taken
    then ret {| success := false; user := None;
                result_errors := Some [EMAIL_TAKEN] |}
    else
      user <- save user ;;
      ret {| success := true; user := Some user; result_errors := None |}.

Definition delete (id : number) : M World bool :=
  user <- findById id ;;
  match user with
  | Some user =>
      save (with_is_active user false) ;;;
      ret true
  | None => ret false
  end.

Definition count : M World Z :=
  d <- getDb ;; ret (count_active d).

(** The database of a fresh process: [CREATE TABLE IF NOT EXISTS] on a
    new file. *)
Definition empty_db : Database :=
  {| users := []; sqlite_sequence := 0; last_insert_rowid := 0 |}.

End Sql.

(* ================================================================== *)
(** ** The controller: [UserController.update] *)

Module Controller.
Import JsNumber Effects Types Sql.
Local Open Scope monad_scope.

(** A [name] or [email] of the request body: absent, null or a string.
    A value of another type is outside the model: a falsy one is treated
    by the handler as an absent one, a truthy one is assigned and makes
    [validate] throw at [trim]. *)
Inductive text_field : Type :=
| TUndefined
| TNull
| TString (s : string).

(** An integer literal of the body that a double holds exactly. *)
Record json_int : Type := {
  int_value : Z;
  int_safe : (Z.abs int_value <? 2 ^ 53) = true
}.

(** The [age] of the request body.  [JOther] is any value of another
    kind - a number that is no safe integer (30.5, 1e21), an array, an
    object - given by the text [String(x)] makes of it, which is what
    [parseInt] reads; every such value is truthy. *)
Inductive json_value : Type :=
| JUndefined
| JNull
| JBool (b : bool)
| JInt (n : json_int)
| JString (s : string)
| JOther (text : string).

Record UpdateBody : Type := {
  b_name : text_field;
  b_email : text_field;
  b_age : json_value
}.

(** [if (x)] on a text field: the string when it is truthy. *)
Definition truthy_text (x : text_field) : option string :=
  match x with
  | TString s => if JsString.truthy s then Some s else None
  | _ => None
  end.

(** [parseInt(x)] converts [x] to a string first; a safe integer prints
    as its decimal numeral and reads back as itself. *)
Definition parseInt_value (x : json_value) : number :=
  match x with
  | JUndefined => ParseInt.parseInt "undefined"
  | JNull => ParseInt.parseInt "null"
  | JBool true => ParseInt.parseInt "true"
  | JBool false => ParseInt.parseInt "false"
  | JInt n => Int (int_value n)
  | JString s => ParseInt.parseInt s
  | JOther s => ParseInt.parseInt s
  end.

(** The JSON bodies the handler sends. *)
Inductive Body : Type :=
| Failure (message : string) (errors : option (list string))
| Success (message : string) (data : UserPublic)
| InternalError (message : string) (error : string).

Record Response : Type := {
  status : Z;
  body : Body
}.

Definition USER_NOT_FOUND : string :=
  ("Usu" ++ chr 225 ++ "rio n" ++ chr 227 ++ "o encontrado")%string.
Definition USER_UPDATED : string :=
  ("Usu" ++ chr 225 ++ "rio atualizado com sucesso")%string.
Definition UPDATE_FAILED : string :=
  ("Erro interno ao atualizar usu" ++ chr 225 ++ "rio")%string.

Definition with_name (this : User) (n : string) : User :=
  {| id := id this; name := n; email := email this;
     password := password this; age := age this; is_active := is_active this;
     created_at := created_at this; updated_at := updated_at this |}.

Definition with_email (this : User) (e : string) : User :=
  {| id := id this; name := name this; email := e;
     password := password this; age := age this; is_active := is_active this;
     created_at := created_at this; updated_at := updated_at this |}.

Definition with_age (this : User) (a : option number) : User :=
  {| id := id this; name := name this; email := email this;
     password := password this; age := a; is_active := is_active this;
     created_at := created_at this; updated_at := updated_at this |}.

(** The three assignments [if (name) ...; if (email) ...;
    if (age !== undefined) ...]. *)
Definition apply_fields (user : User) (b : UpdateBody) : User :=
  let user := match truthy_text (b_name b) with
              | Some n => with_name user n
              | None => user
              end in
  let user := match truthy_text (b_email b) with
              | Some e => with_email user e
              | None => user
              end in
  match b_age b with
  | JUndefined => user
  | a => with_age user (Some (parseInt_value a))
  end.

(** [email && email !== user.email && User.emailExists(email)] *)
Definition email_taken (user : User) (b : UpdateBody) : M World bool :=
  match truthy_text (b_email b) with
  | Some e =>
      if negb (String.eqb e (email user)) then emailExists e else ret false
  | None => ret false
  end.

(** [update(req, res)] with [req.params.id = id] and [req.body = b]. *)
Definition update (id : string) (b : UpdateBody) : M World Response :=
  try_catch
    (user <- findById (ParseInt.parseInt id) ;;
     match user with
     | None =>
         ret {| status := 404; body := Failure USER_NOT_FOUND None |}
     | Some user =>
         taken <- email_taken user b ;;
         if taken
         then ret {| status := 400; body := Failure EMAIL_TAKEN None |}
         else
           let user := apply_fields user b in
           let validation := validate user in
           if negb (valid validation)
           then ret {| status := 400;
                       body := Failure (String.concat ", " (errors validation))
                                       (Some (errors validation)) |}
           else
             user <- save user ;;
             ret {| status := 200;
                    body := Success USER_UPDATED (toPublicJSON user) |}
     end)
    (fun error =>
       ret {| status := 500; body := InternalError UPDATE_FAILED error |}).

End Controller.

(* ================================================================== *)
(** ** The in-memory model: [models/User.js] *)

Module Mem.
Import JsNumber Effects Types.
Local Open Scope monad_scope.

(** The fields of a [User] object. *)
Record User : Type := {
  id : Z;
  name : string;
  email : string;
  password : option string;
  age : option number;
  is_active : bool;
  created_at : timestamp;
  updated_at : timestamp
}.

(** Objects live in a heap and are passed by reference: the array
    [users] holds references, and so does every result of a query. *)
Definition ref : Type := nat.

Record World : Type := {
  heap : list User;
  users : list ref;
  nextId : Z;
  clock : nat -> timestamp;
  ticks : nat
}.

Definition no_object : User :=
  {| id := 0; name := ""; email := ""; password := None; age := None;
     is_active := false; created_at := 0; updated_at := 0 |}.

Definition object (w : World) (r : ref) : User := nth r (heap w) no_object.

Fixpoint replace (r : ref) (u : User) (h : list User) : list User :=
  match h, r with
  | [], _ => []
  | _ :: t, O => u :: t
  | x :: t, S r' => x :: replace r' u t
  end.

Definition now : M World timestamp :=
  fun w => (Return (clock w (ticks w)),
            {| heap := heap w; users := users w; nextId := nextId w;
               clock := clock w; ticks := S (ticks w) |}).

(** [nextId++] *)
Definition post_increment_nextId : M World Z :=
  fun w => (Return (nextId w),
            {| heap := heap w; users := users w; nextId := nextId w + 1;
               clock := clock w; ticks := ticks w |}).

Definition alloc (u : User) : M World ref :=
  fun w => (Return (List.length (heap w)),
            {| heap := heap w ++ [u]; users := users w; nextId := nextId w;
               clock := clock w; ticks := ticks w |}).

Definition deref (r : ref) : M World User :=
  fun w => (Return (object w r), w).

(** An assignment to fields of the object behind [r]. *)
Definition assign (r : ref) (f : User -> User) : M World unit :=
  fun w => (Return tt,
            {| heap := replace r (f (object w r)) (heap w); users := users w;
               nextId := nextId w; clock := clock w; ticks := ticks w |}).

Definition set_users (l : list ref) : M World unit :=
  fun w => (Return tt,
            {| heap := heap w; users := l; nextId := nextId w;
               clock := clock w; ticks := ticks w |}).

Definition or_null (x : option string) : option string :=
  match x with
  | Some s => if JsString.truthy s then Some s else None
  | None => None
  end.

(** [data.age || null]: zero and NaN are falsy. *)
Definition age_or_null (x : option number) : option number :=
  match x with
  | Some a => if truthy a then Some a else None
  | None => None
  end.

Definition or_now (x : option timestamp) : M World timestamp :=
  match x with
  | Some t => ret t
  | None => now
  end.

(** [data.id || nextId++] *)
Definition id_or_next (x : option Z) : M World Z :=
  match x with
  | Some z => if z =? 0 then post_increment_nextId else ret z
  | None => post_increment_nextId
  end.

(** [constructor(data)] *)
Definition new_User (data : UserData) : M World ref :=
  i <- id_or_next (d_id data) ;;
  c <- or_now (d_created_at data) ;;
  u <- or_now (d_updated_at data) ;;
  alloc {| id := i;
           name := d_name data;
           email := d_email data;
           password := or_null (d_password data);
           age := age_or_null (d_age data);
           is_active := match d_is_active data with Some b => b | None => true end;
           created_at := c;
           updated_at := u |}.

(** [typeof x !== 'number'] on a value of type number *)
Definition not_a_number_type (a : number) : bool := false.

Definition check_age (age : option number) : list string :=
  match age with
  | Some a =>
      if not_a_number_type a || ltb a (Int 0) || gtb a (Int 150)
      then [AGE_RANGE] else []
  | None => []
  end.

Definition validate (this : User) : ValidationResult :=
  let errors :=
    check_name (name this) ++ check_email (email this) ++ check_age (age this) in
  {| valid := is_nil errors; errors := errors |}.

Definition toPublicJSON (this : User) : UserPublic :=
  {| p_id := Some (id this);
     p_name := name this;
     p_email := email this;
     p_age := age this;
     p_is_active := is_active this;
     p_created_at := created_at this;
     p_updated_at := updated_at this |}.

Definition toListJSON (this : User) : UserList :=
  {| l_name := name this; l_email := email this; l_age := age this |}.

Definition with_updated_at (t : timestamp) (this : User) : User :=
  {| id := id this; name := name this; email := email this;
     password := password this; age := age this; is_active := is_active this;
     created_at := created_at this; updated_at := t |}.

Definition with_is_active (b : bool) (this : User) : User :=
  {| id := id this; name := name this; email := email this;
     password := password this; age := age this; is_active := b;
     created_at := created_at this; updated_at := updated_at this |}.

(** [users.findIndex(p)] *)
Fixpoint findIndex (p : User -> bool) (w : World) (l : list ref) : option nat :=
  match l with
  | [] => None
  | r :: t =>
      if p (object w r) then Some O
      else match findIndex p w t with
           | Some k => Some (S k)
           | None => None
           end
  end.

(** [users[k] = r] for an index inside the array *)
Fixpoint set_nth (k : nat) (r : ref) (l : list ref) : list ref :=
  match l, k with
  | [], _ => []
  | _ :: t, O => r :: t
  | x :: t, S k' => x :: set_nth k' r t
  end.

Definition save (this : ref) : M World ref :=
  t <- now ;;
  assign this (with_updated_at t) ;;;
  w <- get ;;
  match findIndex (fun u => id u =? id (object w this)) w (users w) with
  | Some existingIndex => set_users (set_nth existingIndex this (users w))
  | None => set_users (users w ++ [this])
  end ;;;
  ret this.

Definition findAll : M World (list ref) :=
  w <- get ;;
  ret (filter (fun r => is_active (object w r)) (users w)).

Definition findById (i : number) : M World (option ref) :=
  w <- get ;;
  ret (find (fun r => eq_int i (id (object w r)) && is_active (object w r))
            (users w)).

Definition findByEmail (e : string) : M World (option ref) :=
  w <- get ;;
  ret (find (fun r =>
               String.eqb (JsString.toLowerCase (email (object w r)))
                          (JsString.toLowerCase e)
               && is_active (object w r))
            (users w)).

Definition emailExists (e : string) : M World bool :=
  w <- get ;;
  ret (existsb (fun r =>
                  String.eqb (JsString.toLowerCase (email (object w r)))
                             (JsString.toLowerCase e))
               (users w)).

Record CreateUserResult : Type := {
  success : bool;
  user : option ref;
  result_errors : option (list string)
}.

Definition create (data : UserCreateInput) : M World CreateUserResult :=
  user <- new_User (as_UserData data) ;;
  this <- deref user ;;
  let validation := validate this in
  if negb (valid validation)
  then ret {| success := false; user := None;
              result_errors := Some (errors validation) |}
  else
    taken <- emailExists (email this) ;;
    if taken
    then ret {| success := false; user := None;
                result_errors := Some [EMAIL_TAKEN] |}
    else
      save user ;;;
      ret {| success := true; user := Some user; result_errors := None |}.

Definition delete (i : number) : M World bool :=
  user <- findById i ;;
  match user with
  | Some user =>
      assign user (with_is_active false) ;;;
      t <- now ;;
      assign user (with_updated_at t) ;;;
      ret true
  | None => ret false
  end.

Definition count : M World Z :=
  w <- get ;;
  ret (Z.of_nat (List.length (filter (fun r => is_active (object w r)) (users w)))).

(** [let users = []; let nextId = 1;] *)
Definition fresh (clk : nat -> timestamp) : World :=
  {| heap := []; users := []; nextId := 1; clock := clk; ticks := O |}.

End Mem.


(* ================================================================== *)
(** ** The other handlers of [UserController.ts] *)

Module Handlers.
Import JsNumber Effects Types Sql.
Local Open Scope monad_scope.

(** The JSON bodies of [index], [show], [store] and [destroy]. *)
Inductive Reply : Type :=
| Listed (message : string) (count : Z) (data : list UserPublic)
| Shown (data : UserPublic)
| Stored (message : string) (data : option UserPublic)
| Removed (message : string)
| Refused (message : option string) (errors : option (list string))
| Failed (message : string) (error : string).

Record Response : Type := {
  status : Z;
  reply : Reply
}.

Definition USERS_LISTED : string :=
  ("Usu" ++ chr 225 ++ "rios listados com sucesso")%string.
Definition LIST_FAILED : string :=
  ("Erro interno ao listar usu" ++ chr 225 ++ "rios")%string.
Definition SHOW_FAILED : string :=
  ("Erro interno ao buscar usu" ++ chr 225 ++ "rio")%string.
Definition USER_STORED : string :=
  ("Usu" ++ chr 225 ++ "rio cadastrado com sucesso!")%string.
Definition STORE_FAILED : string :=
  ("Erro interno ao criar usu" ++ chr 225 ++ "rio")%string.
Definition USER_REMOVED : string :=
  ("Usu" ++ chr 225 ++ "rio removido com sucesso")%string.
Definition DESTROY_FAILED : string :=
  ("Erro interno ao remover usu" ++ chr 225 ++ "rio")%string.

Definition not_found : Response :=
  {| status := 404; reply := Refused (Some Controller.USER_NOT_FOUND) None |}.

(** [index(_req, res)] *)
Definition index : M World Response :=
  try_catch
    (users <- findAll ;;
     let usersData := map toPublicJSON users in
     ret {| status := 200;
            reply := Listed USERS_LISTED (Z.of_nat (List.length usersData))
                            usersData |})
    (fun error => ret {| status := 500; reply := Failed LIST_FAILED error |}).

(** [show(req, res)] with [req.params.id = id] *)
Definition show (id : string) : M World Response :=
  try_catch
    (user <- findById (ParseInt.parseInt id) ;;
     match user with
     | None => ret not_found
     | Some user => ret {| status := 200; reply := Shown (toPublicJSON user) |}
     end)
    (fun error => ret {| status := 500; reply := Failed SHOW_FAILED error |}).

(** The body of a [store] request whose name and email are strings (an
    absent one counts as the empty string, which fails the same rule)
    and whose password is a string or absent.  A truthy name or email
    of another type, on which [validate] throws at [trim], is outside
    the model. *)
Record StoreBody : Type := {
  s_name : string;
  s_email : string;
  s_password : option string;
  s_age : Controller.json_value
}.

(** [if (x)] on a value of the body *)
Definition truthy_value (x : Controller.json_value) : bool :=
  match x with
  | Controller.JUndefined | Controller.JNull => false
  | Controller.JBool b => b
  | Controller.JInt n => negb (Controller.int_value n =? 0)
  | Controller.JString s => JsString.truthy s
  | Controller.JOther _ => true
  end.

(** [age ? parseInt(age) : undefined] *)
Definition age_of_body (x : Controller.json_value) : option number :=
  if truthy_value x then Some (Controller.parseInt_value x) else None.

(** A [User] object read as [UserData]. *)
Definition data_of_user (u : User) : UserData :=
  {| d_id := id u; d_name := name u; d_email := email u;
     d_password := password u; d_age := age u;
     d_is_active := Some (is_active u);
     d_created_at := Some (created_at u);
     d_updated_at := Some (updated_at u) |}.

(** [store(req, res)] with [req.body = b] *)
Definition store (b : StoreBody) : M World Response :=
  try_catch
    (result <- create {| i_name := s_name b; i_email := s_email b;
                         i_password := s_password b;
                         i_age := age_of_body (s_age b) |} ;;
     if negb (success result)
     then ret {| status := 400;
                 reply := Refused (option_map (String.concat ", ")
                                              (result_errors result))
                                  (result_errors result) |}
     else
       data <- match user result with
               | Some u => u' <- new_User (data_of_user u) ;;
                           ret (Some (toPublicJSON u'))
               | None => ret None
               end ;;
       ret {| status := 201; reply := Stored USER_STORED data |})
    (fun error => ret {| status := 500; reply := Failed STORE_FAILED error |}).

(** [destroy(req, res)] with [req.params.id = id] *)
Definition destroy (id : string) : M World Response :=
  try_catch
    (deleted <- delete (ParseInt.parseInt id) ;;
     if negb deleted
     then ret not_found
     else ret {| status := 200; reply := Removed USER_REMOVED |})
    (fun error => ret {| status := 500; reply := Failed DESTROY_FAILED error |}).

End Handlers.

(* ================================================================== *)
(** ** [UserController.js]: the handler [update] over the in-memory model *)

Module MemController.
Import JsNumber Effects Types.
Local Open Scope monad_scope.

Definition with_name (n : string) (this : Mem.User) : Mem.User :=
  {| Mem.id := Mem.id this; Mem.name := n; Mem.email := Mem.email this;
     Mem.password := Mem.password this; Mem.age := Mem.age this;
     Mem.is_active := Mem.is_active this;
     Mem.created_at := Mem.created_at this;
     Mem.updated_at := Mem.updated_at this |}.

Definition with_email (e : string) (this : Mem.User) : Mem.User :=
  {| Mem.id := Mem.id this; Mem.name := Mem.name this; Mem.email := e;
     Mem.password := Mem.password this; Mem.age := Mem.age this;
     Mem.is_active := Mem.is_active this;
     Mem.created_at := Mem.created_at this;
     Mem.updated_at := Mem.updated_at this |}.

Definition with_age (a : option number) (this : Mem.User) : Mem.User :=
  {| Mem.id := Mem.id this; Mem.name := Mem.name this; Mem.email := Mem.email this;
     Mem.password := Mem.password this; Mem.age := a;
     Mem.is_active := Mem.is_active this;
     Mem.created_at := Mem.created_at this;
     Mem.updated_at := Mem.updated_at this |}.

(** [email && email !== user.email && User.emailExists(email)] *)
Definition email_taken (user : Mem.ref) (b : Controller.UpdateBody)
  : M Mem.World bool :=
  match Controller.truthy_text (Controller.b_email b) with
  | Some e =>
      this <- Mem.deref user ;;
      if negb (String.eqb e (Mem.email this)) then Mem.emailExists e else ret false
  | None => ret false
  end.

(** The three assignments, made on the object [findById] returned. *)
Definition assign_fields (user : Mem.ref) (b : Controller.UpdateBody)
  : M Mem.World unit :=
  match Controller.truthy_text (Controller.b_name b) with
  | Some n => Mem.assign user (with_name n)
  | None => ret tt
  end ;;;
  match Controller.truthy_text (Controller.b_email b) with
  | Some e => Mem.assign user (with_email e)
  | None => ret tt
  end ;;;
  match Controller.b_age b with
  | Controller.JUndefined => ret tt
  | a => Mem.assign user (with_age (Some (Controller.parseInt_value a)))
  end.

(** [update(req, res)] with [req.params.id = id] and [req.body = b] *)
Definition update (id : string) (b : Controller.UpdateBody)
  : M Mem.World Controller.Response :=
  try_catch
    (user <- Mem.findById (ParseInt.parseInt id) ;;
     match user with
     | None =>
         ret {| Controller.status := 404;
                Controller.body := Controller.Failure Controller.USER_NOT_FOUND None |}
     | Some user =>
         taken <- email_taken user b ;;
         if taken
         then ret {| Controller.status := 400;
                     Controller.body := Controller.Failure EMAIL_TAKEN None |}
         else
           assign_fields user b ;;;
           this <- Mem.deref user ;;
           let validation := Mem.validate this in
           if negb (valid validation)
           then ret {| Controller.status := 400;
                       Controller.body :=
                         Controller.Failure
                           (String.concat ", " (errors validation))
                           (Some (errors validation)) |}
           else
             Mem.save user ;;;
             this <- Mem.deref user ;;
             ret {| Controller.status := 200;
                    Controller.body :=
                      Controller.Success Controller.USER_UPDATED
                                         (Mem.toPublicJSON this) |}
     end)
    (fun error =>
       ret {| Controller.status := 500;
              Controller.body := Controller.InternalError Controller.UPDATE_FAILED error |}).

End MemController.

(* ================================================================== *)
(** ** The other handlers of [controllers/UserController.js] *)

Module JsHandlers.
Import JsNumber Effects Types.
Local Open Scope monad_scope.

(** The JSON bodies of [index], [show], [store] and [destroy]. *)
Inductive Reply : Type :=
| Listed (message : string) (count : Z) (data : list UserList)
| Shown (data : UserPublic)
| Stored (message : string) (data : UserPublic)
| Removed (message : string)
| Refused (message : string) (errors : option (list string))
| Failed (message : string) (error : string).

Record Response : Type := {
  status : Z;
  reply : Reply
}.

(** The message of the TypeError a property read on [undefined] raises. *)
Definition UNDEFINED_READ (property : string) : string :=
  ("Cannot read properties of undefined (reading '" ++ property ++ "')")%string.

Definition not_found : Response :=
  {| status := 404; reply := Refused Controller.USER_NOT_FOUND None |}.

(** [index(req, res)] *)
Definition index : M Mem.World Response :=
  try_catch
    (users <- Mem.findAll ;;
     usersData <- mapM (fun user => this <- Mem.deref user ;;
                                    ret (Mem.toListJSON this)) users ;;
     ret {| status := 200;
            reply := Listed Handlers.USERS_LISTED
                            (Z.of_nat (List.length usersData)) usersData |})
    (fun error =>
       ret {| status := 500; reply := Failed Handlers.LIST_FAILED error |}).

(** [show(req, res)] with [req.params.id = id] *)
Definition show (id : string) : M Mem.World Response :=
  try_catch
    (user <- Mem.findById (ParseInt.parseInt id) ;;
     match user with
     | None => ret not_found
     | Some user =>
         this <- Mem.deref user ;;
         ret {| status := 200; reply := Shown (Mem.toPublicJSON this) |}
     end)
    (fun error =>
       ret {| status := 500; reply := Failed Handlers.SHOW_FAILED error |}).

(** [store(req, res)] with [req.body = b]; [age ? parseInt(age) : null] *)
Definition store (b : Handlers.StoreBody) : M Mem.World Response :=
  try_catch
    (result <- Mem.create {| i_name := Handlers.s_name b;
                             i_email := Handlers.s_email b;
                             i_password := Handlers.s_password b;
                             i_age := Handlers.age_of_body (Handlers.s_age b) |} ;;
     if negb (Mem.success result)
     then match Mem.result_errors result with
          | Some errors =>
              ret {| status := 400;
                     reply := Refused (String.concat ", " errors) (Some errors) |}
          | None => throw (UNDEFINED_READ "join")
          end
     else match Mem.user result with
          | Some user =>
              this <- Mem.deref user ;;
              ret {| status := 201;
                     reply := Stored Handlers.USER_STORED (Mem.toPublicJSON this) |}
          | None => throw (UNDEFINED_READ "toPublicJSON")
          end)
    (fun error =>
       ret {| status := 500; reply := Failed Handlers.STORE_FAILED error |}).

(** [destroy(req, res)] with [req.params.id = id] *)
Definition destroy (id : string) : M Mem.World Response :=
  try_catch
    (deleted <- Mem.delete (ParseInt.parseInt id) ;;
     if negb deleted
     then ret not_found
     else ret {| status := 200; reply := Removed Handlers.USER_REMOVED |})
    (fun error =>
       ret {| status := 500; reply := Failed Handlers.DESTROY_FAILED error |}).

End JsHandlers.
(* ================================================================== *)
(** * Properties *)

Import JsNumber Effects Types.

(** ** Predicates and sample data of the statements *)

(** A number lies outside the closed range from 0 to 150. *)
Definition outside_range (a : number) : Prop :=
  match a with
  | NaN => False
  | Infinity _ => True
  | Fin q => (q < Q2Qc (inject_Z 0) \/ Q2Qc (inject_Z 150) < q)%Qc
  end.

(** The age is an integer from 0 to 150. *)
Definition integer_in_range (a : number) : Prop :=
  exists z : Z, a = Int z /\ 0 <= z <= 150.

(** 30.5 *)
Definition thirty_and_a_half : number := Fin (Q2Qc (61 # 2)).

Definition sample_user (a : option number) : Sql.User :=
  {| Sql.id := None; Sql.name := "Ana Silva"; Sql.email := "ana@test.com";
     Sql.password := None; Sql.age := a; Sql.is_active := true;
     Sql.created_at := 0; Sql.updated_at := 0 |}.

Definition sample_object (a : option number) : Mem.User :=
  {| Mem.id := 1; Mem.name := "Ana Silva"; Mem.email := "ana@test.com";
     Mem.password := None; Mem.age := a; Mem.is_active := true;
     Mem.created_at := 0; Mem.updated_at := 0 |}.


(** ** The store of the SQLite-backed model *)

(** The record [findById] and its siblings build from a row. *)
Definition user_of_row (r : Sql.UserRow) : Sql.User :=
  {| Sql.id := Some (Sql.row_id r);
     Sql.name := Sql.row_name r;
     Sql.email := Sql.row_email r;
     Sql.password := Sql.or_null (Sql.row_password r);
     Sql.age := Sql.row_age r;
     Sql.is_active := (Sql.row_is_active r =? 1);
     Sql.created_at := Sql.row_created_at r;
     Sql.updated_at := Sql.row_updated_at r |}.

(** The row [save] writes for a record, given its rowid and the
    creation time kept in the table. *)
Definition row_of_user (i : Z) (c : timestamp) (u : Sql.User) : Sql.UserRow :=
  {| Sql.row_id := i;
     Sql.row_name := Sql.name u;
     Sql.row_email := Sql.email u;
     Sql.row_password := Sql.password u;
     Sql.row_age := Sql.stored_number (Sql.age u);
     Sql.row_is_active := if Sql.is_active u then 1 else 0;
     Sql.row_created_at := c;
     Sql.row_updated_at := Sql.updated_at u |}.

(** The world after [n] more readings of the clock, and with another
    database. *)
Definition later (n : nat) (w : Sql.World) : Sql.World :=
  {| Sql.db := Sql.db w; Sql.clock := Sql.clock w; Sql.ticks := n + Sql.ticks w |}.

Definition with_db (d : Sql.Database) (w : Sql.World) : Sql.World :=
  {| Sql.db := d; Sql.clock := Sql.clock w; Sql.ticks := Sql.ticks w |}.

(** Two emails are the same to the database's case-insensitive test. *)
Definition same_email (a b : string) : bool :=
  String.eqb (JsString.LOWER a) (JsString.LOWER b).

Fixpoint distinct {A} (eqb : A -> A -> bool) (l : list A) : bool :=
  match l with
  | [] => true
  | x :: t => negb (existsb (eqb x) t) && distinct eqb t
  end.

(** The invariant of the table: rowids are positive and pairwise
    distinct (the primary key), emails are pairwise distinct even up to
    case (which [create] and [update] maintain and which implies the
    UNIQUE constraint), and a stored password is a non-empty string or
    NULL (what the constructor leaves). *)
Definition well_formed (d : Sql.Database) : bool :=
  forallb (fun r => 0 <? Sql.row_id r) (Sql.users d)
  && distinct Z.eqb (map Sql.row_id (Sql.users d))
  && distinct same_email (map Sql.row_email (Sql.users d))
  && forallb (fun r => match Sql.row_password r with
                       | Some s => JsString.truthy s
                       | None => true
                       end) (Sql.users d).

(** The row with [is_active] cleared and [updated_at] refreshed; the
    age is written back as the table keeps it. *)
Definition soft_deleted (t : timestamp) (r : Sql.UserRow) : Sql.UserRow :=
  {| Sql.row_id := Sql.row_id r;
     Sql.row_name := Sql.row_name r;
     Sql.row_email := Sql.row_email r;
     Sql.row_password := Sql.row_password r;
     Sql.row_age := Sql.stored_number (Sql.row_age r);
     Sql.row_is_active := 0;
     Sql.row_created_at := Sql.row_created_at r;
     Sql.row_updated_at := t |}.

(** A rule of [validate] fails on the given name, email and age, with
    its message. *)
Inductive failing_rule (name email : string) (age : option number)
  : string -> Prop :=
| name_required :
    JsString.trim name = "" -> failing_rule name email age NAME_REQUIRED
| name_too_short :
    JsString.trim name <> "" ->
    (String.length (JsString.trim name) < 2)%nat ->
    failing_rule name email age NAME_TOO_SHORT
| email_required :
    JsString.trim email = "" -> failing_rule name email age EMAIL_REQUIRED
| email_invalid :
    JsString.trim email <> "" -> ~ EmailRegex.matches email ->
    failing_rule name email age EMAIL_INVALID
| age_out_of_range (a : number) :
    age = Some a -> ltb a (Int 0) || gtb a (Int 150) = true ->
    failing_rule name email age AGE_RANGE.

(** The record the constructor builds from the input of [create], given
    the two readings of the clock. *)
Definition candidate (d : UserCreateInput) (c u : timestamp) : Sql.User :=
  {| Sql.id := None;
     Sql.name := i_name d;
     Sql.email := i_email d;
     Sql.password := Sql.or_null (i_password d);
     Sql.age := i_age d;
     Sql.is_active := true;
     Sql.created_at := c;
     Sql.updated_at := u |}.

(** The table after [INSERT] of a row and after [UPDATE] of the rows
    with rowid [i]. *)
Definition inserted (row : Sql.UserRow) (d : Sql.Database) : Sql.Database :=
  {| Sql.users := Sql.users d ++ [row];
     Sql.sqlite_sequence := Sql.row_id row;
     Sql.last_insert_rowid := Sql.row_id row |}.

Definition updated (i : Z) (u : Sql.User) (d : Sql.Database) : Sql.Database :=
  {| Sql.users :=
       map (fun r => if Sql.row_id r =? i
                     then row_of_user (Sql.row_id r) (Sql.row_created_at r) u
                     else r) (Sql.users d);
     Sql.sqlite_sequence := Sql.sqlite_sequence d;
     Sql.last_insert_rowid := Sql.last_insert_rowid d |}.

(** ** Sample data *)

Definition sample_clock : nat -> timestamp := fun n => 1000 + Z.of_nat n.

(** A fresh process on an empty database. *)
Definition fresh_world : Sql.World :=
  {| Sql.db := Sql.empty_db; Sql.clock := sample_clock; Sql.ticks := O |}.

Definition ana : UserCreateInput :=
  {| i_name := "Ana Silva"; i_email := "ana@test.com";
     i_password := Some "segredo"; i_age := Some (Int 30) |}.

Definition bob : UserCreateInput :=
  {| i_name := "Bob"; i_email := "bob@test.com";
     i_password := None; i_age := None |}.

(** The state a computation leaves, and its result. *)
Definition state_after {S A} (m : M S A) (s : S) : S := snd (m s).
Definition result_of {S A} (m : M S A) (s : S) : Result A := fst (m s).

(** Ana registered; then Bob too; then Bob deleted. *)
Definition world_ana : Sql.World := state_after (Sql.create ana) fresh_world.
Definition world_ana_bob : Sql.World := state_after (Sql.create bob) world_ana.
Definition world_bob_deleted : Sql.World :=
  state_after (Sql.delete (Int 2)) world_ana_bob.

(** The table after the soft deletion, at time [t], of the row with
    rowid [i]. *)
Definition soft_delete_db (i : Z) (t : timestamp) (d : Sql.Database)
  : Sql.Database :=
  {| Sql.users := map (fun x => if Sql.row_id x =? i then soft_deleted t x else x)
                      (Sql.users d);
     Sql.sqlite_sequence := Sql.sqlite_sequence d;
     Sql.last_insert_rowid := Sql.last_insert_rowid d |}.

(** The rows of the sample worlds. *)
Definition ana_row : Sql.UserRow :=
  {| Sql.row_id := 1; Sql.row_name := "Ana Silva"; Sql.row_email := "ana@test.com";
     Sql.row_password := Some "segredo"; Sql.row_age := Some (Int 30);
     Sql.row_is_active := 1; Sql.row_created_at := 1000;
     Sql.row_updated_at := 1002 |}.

Definition bob_row : Sql.UserRow :=
  {| Sql.row_id := 2; Sql.row_name := "Bob"; Sql.row_email := "bob@test.com";
     Sql.row_password := None; Sql.row_age := None;
     Sql.row_is_active := 1; Sql.row_created_at := 1003;
     Sql.row_updated_at := 1005 |}.

(** ** The controller *)

(** The row [update] writes for the body [b] at time [t]: the name and
    the email when the body gives a truthy one, the age when the body
    defines one. *)
Definition merged_row (b : Controller.UpdateBody) (t : timestamp)
    (r : Sql.UserRow) : Sql.UserRow :=
  {| Sql.row_id := Sql.row_id r;
     Sql.row_name := match Controller.truthy_text (Controller.b_name b) with
                     | Some n => n
                     | None => Sql.row_name r
                     end;
     Sql.row_email := match Controller.truthy_text (Controller.b_email b) with
                      | Some e => e
                      | None => Sql.row_email r
                      end;
     Sql.row_password := Sql.row_password r;
     Sql.row_age := Sql.stored_number
                      match Controller.b_age b with
                      | Controller.JUndefined => Sql.row_age r
                      | a => Some (Controller.parseInt_value a)
                      end;
     Sql.row_is_active := Sql.row_is_active r;
     Sql.row_created_at := Sql.row_created_at r;
     Sql.row_updated_at := t |}.

Definition update_db (i : Z) (b : Controller.UpdateBody) (t : timestamp)
    (d : Sql.Database) : Sql.Database :=
  {| Sql.users := map (fun x => if Sql.row_id x =? i then merged_row b t x else x)
                      (Sql.users d);
     Sql.sqlite_sequence := Sql.sqlite_sequence d;
     Sql.last_insert_rowid := Sql.last_insert_rowid d |}.

(** The response to an email that is taken. *)
Definition conflict : Controller.Response :=
  {| Controller.status := 400;
     Controller.body := Controller.Failure EMAIL_TAKEN None |}.

(** The test the handler makes before it touches the record. *)
Definition taken (r : Sql.UserRow) (b : Controller.UpdateBody)
    (d : Sql.Database) : bool :=
  match Controller.truthy_text (Controller.b_email b) with
  | Some e =>
      negb (String.eqb e (Sql.row_email r))
      && existsb (fun x => same_email (Sql.row_email x) e) (Sql.users d)
  | None => false
  end.

Definition only_email (e : string) : Controller.UpdateBody :=
  {| Controller.b_name := Controller.TUndefined;
     Controller.b_email := Controller.TString e;
     Controller.b_age := Controller.JUndefined |}.

(** The body with its name, or its email, left out. *)
Definition without_name (b : Controller.UpdateBody) : Controller.UpdateBody :=
  {| Controller.b_name := Controller.TUndefined;
     Controller.b_email := Controller.b_email b;
     Controller.b_age := Controller.b_age b |}.

Definition without_email (b : Controller.UpdateBody) : Controller.UpdateBody :=
  {| Controller.b_name := Controller.b_name b;
     Controller.b_email := Controller.TUndefined;
     Controller.b_age := Controller.b_age b |}.

(** [{ name: "", email: null, age: null }] *)
Definition blank_body : Controller.UpdateBody :=
  {| Controller.b_name := Controller.TString "";
     Controller.b_email := Controller.TNull;
     Controller.b_age := Controller.JNull |}.

(** ** The two models side by side *)

(** What a caller sees of a record, timestamps aside. *)
Record View : Type := {
  v_id : option Z;
  v_name : string;
  v_email : string;
  v_age : option number;
  v_is_active : bool
}.

Definition view_of_user (u : Sql.User) : View :=
  {| v_id := Sql.id u; v_name := Sql.name u; v_email := Sql.email u;
     v_age := Sql.age u; v_is_active := Sql.is_active u |}.

Definition view_of_row (r : Sql.UserRow) : View := view_of_user (user_of_row r).

Definition view_of_object (o : Mem.User) : View :=
  {| v_id := Some (Mem.id o); v_name := Mem.name o; v_email := Mem.email o;
     v_age := Mem.age o; v_is_active := Mem.is_active o |}.

(** The calls of the model's interface and what they answer. *)
Inductive Call : Type :=
| Create (d : UserCreateInput)
| FindAll
| FindById (i : number)
| FindByEmail (e : string)
| EmailExists (e : string)
| Delete (i : number)
| Count.

Inductive Answer : Type :=
| Created (success : bool) (user : option View) (errs : option (list string))
| Records (l : list View)
| Record_ (o : option View)
| Flag (b : bool)
| Number (n : Z)
| Thrown (e : string).

Definition answer {S A} (f : A -> Answer) (x : Result A * S) : Answer * S :=
  match x with
  | (Return a, s) => (f a, s)
  | (Throw e, s) => (Thrown e, s)
  end.

Definition call_sql (c : Call) (w : Sql.World) : Answer * Sql.World :=
  match c with
  | Create d =>
      answer (fun r => Created (Sql.success r)
                               (option_map view_of_user (Sql.user r))
                               (Sql.result_errors r))
             (Sql.create d w)
  | FindAll => answer (fun l => Records (map view_of_user l)) (Sql.findAll w)
  | FindById i =>
      answer (fun o => Record_ (option_map view_of_user o)) (Sql.findById i w)
  | FindByEmail e =>
      answer (fun o => Record_ (option_map view_of_user o)) (Sql.findByEmail e w)
  | EmailExists e => answer Flag (Sql.emailExists e w)
  | Delete i => answer Flag (Sql.delete i w)
  | Count => answer Number (Sql.count w)
  end.

(** A reference is observed through the object behind it, in the state
    the call leaves. *)
Definition call_mem (c : Call) (w : Mem.World) : Answer * Mem.World :=
  match c with
  | Create d =>
      let x := Mem.create d w in
      answer (fun r => Created (Mem.success r)
                               (option_map (fun k => view_of_object (Mem.object (snd x) k))
                                           (Mem.user r))
                               (Mem.result_errors r)) x
  | FindAll =>
      let x := Mem.findAll w in
      answer (fun l => Records (map (fun k => view_of_object (Mem.object (snd x) k)) l)) x
  | FindById i =>
      let x := Mem.findById i w in
      answer (fun o => Record_ (option_map (fun k => view_of_object (Mem.object (snd x) k)) o)) x
  | FindByEmail e =>
      let x := Mem.findByEmail e w in
      answer (fun o => Record_ (option_map (fun k => view_of_object (Mem.object (snd x) k)) o)) x
  | EmailExists e => answer Flag (Mem.emailExists e w)
  | Delete i => answer Flag (Mem.delete i w)
  | Count => answer Number (Mem.count w)
  end.

Fixpoint run {S} (step : Call -> S -> Answer * S) (cs : list Call) (s : S)
  : list Answer :=
  match cs with
  | [] => []
  | c :: r => let (a, s') := step c s in a :: run step r s'
  end.

(** A call whose arguments keep clear of what the two models treat
    differently on purpose or by accident: its emails are ASCII, where
    [LOWER] and [toLowerCase] agree, and the age of a [Create] is absent
    or truthy, where [??] and [||] agree. *)
Definition plain (c : Call) : bool :=
  match c with
  | Create d =>
      JsString.is_ascii (i_email d)
      && match i_age d with Some a => truthy a | None => true end
  | FindByEmail e | EmailExists e => JsString.is_ascii e
  | _ => true
  end.

Definition rejected (a : Answer) : bool :=
  match a with
  | Created false _ _ => true
  | _ => false
  end.

(** Fresh processes of the two models. *)
Definition fresh_sql (clk : nat -> timestamp) : Sql.World :=
  {| Sql.db := Sql.empty_db; Sql.clock := clk; Sql.ticks := O |}.

(** The invariant of the in-memory store: the array holds distinct
    references to allocated objects, whose identifiers are distinct,
    positive and below the counter. *)
Definition mem_ok (w : Mem.World) : bool :=
  (0 <? Mem.nextId w)
  && forallb (fun k => (k <? List.length (Mem.heap w))%nat) (Mem.users w)
  && distinct Nat.eqb (Mem.users w)
  && distinct Z.eqb (map (fun k => Mem.id (Mem.object w k)) (Mem.users w))
  && forallb (fun k => (0 <? Mem.id (Mem.object w k))
                       && (Mem.id (Mem.object w k) <? Mem.nextId w))
             (Mem.users w).

(** The object the constructor allocates for the input of [create]. *)
Definition candidate_object (d : UserCreateInput) (i : Z) (c u : timestamp)
  : Mem.User :=
  {| Mem.id := i;
     Mem.name := i_name d;
     Mem.email := i_email d;
     Mem.password := Mem.or_null (i_password d);
     Mem.age := Mem.age_or_null (i_age d);
     Mem.is_active := true;
     Mem.created_at := c;
     Mem.updated_at := u |}.

(** The records of the two stores as a caller sees them. *)
Definition sql_views (d : Sql.Database) : list View :=
  map view_of_row (Sql.users d).

Definition mem_views (w : Mem.World) : list View :=
  map (fun k => view_of_object (Mem.object w k)) (Mem.users w).

Definition view_has_id (n : number) (v : View) : bool :=
  match v_id v with
  | Some j => eq_int n j
  | None => false
  end.

Definition deactivated (v : View) : View :=
  {| v_id := v_id v; v_name := v_name v; v_email := v_email v;
     v_age := v_age v; v_is_active := false |}.

(** The views after the soft deletion of the identifier [i]. *)
Definition deactivate (i : Z) (l : list View) : list View :=
  map (fun v => if view_has_id (Int i) v then deactivated v else v) l.

(** An age a column can hold: absent, or a number. *)
Definition is_number (a : option number) : bool :=
  match a with
  | Some NaN => false
  | _ => true
  end.

(** The two stores hold the same records and will issue the same
    identifier next. *)
Definition related (ws : Sql.World) (wm : Mem.World) : Prop :=
  well_formed (Sql.db ws) = true /\
  mem_ok wm = true /\
  sql_views (Sql.db ws) = mem_views wm /\
  Sql.next_rowid (Sql.db ws) = Mem.nextId wm /\
  forallb (fun v => JsString.is_ascii (v_email v)) (sql_views (Sql.db ws)) = true /\
  forallb (fun v => is_number (v_age v)) (sql_views (Sql.db ws)) = true.

(** What a query answers, as a function of the records held. *)
Definition read_views (c : Call) (l : list View) : Answer :=
  match c with
  | FindAll => Records (filter v_is_active l)
  | FindById n => Record_ (find (fun v => view_has_id n v && v_is_active v) l)
  | FindByEmail e =>
      Record_ (find (fun v => same_email (v_email v) e && v_is_active v) l)
  | EmailExists e => Flag (existsb (fun v => same_email (v_email v) e) l)
  | Count => Number (Z.of_nat (List.length (filter v_is_active l)))
  | Create _ | Delete _ => Thrown ""
  end.

Definition is_query (c : Call) : bool :=
  match c with
  | Create _ | Delete _ => false
  | _ => true
  end.

(** The state a sequence of calls leaves. *)
Fixpoint final {S} (step : Call -> S -> Answer * S) (cs : list Call) (s : S) : S :=
  match cs with
  | [] => s
  | c :: r => final step r (snd (step c s))
  end.

(** Inputs on which the two models part. *)
Definition nameless : UserCreateInput :=
  {| i_name := ""; i_email := "x@test.com"; i_password := None; i_age := None |}.

Definition newborn : UserCreateInput :=
  {| i_name := "Eva"; i_email := "eva@test.com"; i_password := None;
     i_age := Some (Int 0) |}.

(** U+00C9 and U+00E9, the capital and the small e with acute accent. *)
Definition e_acute_capital : string := (chr 201 ++ "va@test.com")%string.
Definition e_acute_small : string := (chr 233 ++ "va@test.com")%string.

Definition accented : UserCreateInput :=
  {| i_name := "Eva"; i_email := e_acute_capital; i_password := None;
     i_age := None |}.

Definition sample_calls : list Call :=
  [Create ana; Create bob; FindByEmail "BOB@TEST.COM"; Delete (Int 2);
   FindAll; Count; FindById (Int 2); EmailExists "bob@test.com"].

(** ** Identifiers *)

(** The identifiers held by the table and by the in-memory array. *)
Definition sql_ids (w : Sql.World) : list Z :=
  map Sql.row_id (Sql.users (Sql.db w)).

Definition mem_ids (w : Mem.World) : list Z :=
  map (fun k => Mem.id (Mem.object w k)) (Mem.users w).

(** The identifiers an operation adds: none, or one that is larger than
    every one held. *)
Definition appended (before after : list Z) : Prop :=
  after = before \/
  exists i : Z, after = before ++ [i] /\ forall j, In j before -> j < i.

(** The states a process reaches from an empty database through the
    model and the handler. *)
Inductive reachable : Sql.World -> Prop :=
| reach_fresh (clk : nat -> timestamp) : reachable (fresh_sql clk)
| reach_call (c : Call) (w : Sql.World) :
    reachable w -> reachable (snd (call_sql c w))
| reach_update (id : string) (b : Controller.UpdateBody) (w : Sql.World) :
    reachable w -> reachable (state_after (Controller.update id b) w).

(** ** The handlers *)

(** The public view of a row. *)
Definition public_of_row (r : Sql.UserRow) : UserPublic :=
  Sql.toPublicJSON (user_of_row r).

(** No active row has the identifier [n]. *)
Definition no_active_row (n : number) (d : Sql.Database) : Prop :=
  forall r, In r (Sql.users d) -> eq_int n (Sql.row_id r) = true ->
            Sql.row_is_active r <> 1.

(** The answer of [update] to an identifier that names no active row. *)
Definition update_not_found_response : Controller.Response :=
  {| Controller.status := 404;
     Controller.body := Controller.Failure Controller.USER_NOT_FOUND None |}.

(** The decimal numeral of a non-negative identifier, as a client puts
    it in the path of a request. *)
Definition numeral (i : Z) : string :=
  DecimalString.NilZero.string_of_uint (N.to_uint (Z.to_N i)).

(** The input [store] hands to [create]. *)
Definition input_of_body (b : Handlers.StoreBody) : UserCreateInput :=
  {| i_name := Handlers.s_name b; i_email := Handlers.s_email b;
     i_password := Handlers.s_password b;
     i_age := Handlers.age_of_body (Handlers.s_age b) |}.

(** The answers of [store]. *)
Definition store_refused (errs : list string) : Handlers.Response :=
  {| Handlers.status := 400;
     Handlers.reply := Handlers.Refused (Some (String.concat ", " errs)) (Some errs) |}.

Definition store_created (p : UserPublic) : Handlers.Response :=
  {| Handlers.status := 201;
     Handlers.reply := Handlers.Stored Handlers.USER_STORED (Some p) |}.

Definition shown (p : UserPublic) : Handlers.Response :=
  {| Handlers.status := 200; Handlers.reply := Handlers.Shown p |}.

Definition listed (l : list UserPublic) : Handlers.Response :=
  {| Handlers.status := 200;
     Handlers.reply := Handlers.Listed Handlers.USERS_LISTED
                         (Z.of_nat (List.length l)) l |}.

Definition removed : Handlers.Response :=
  {| Handlers.status := 200;
     Handlers.reply := Handlers.Removed Handlers.USER_REMOVED |}.

(** What [index] lists in a state. *)
Definition listing (w : Sql.World) : list UserPublic :=
  map public_of_row (Sql.select_active (Sql.db w)).

(** A request to register Carla, and the state after it. *)
Definition carla : Handlers.StoreBody :=
  {| Handlers.s_name := "Carla"; Handlers.s_email := "carla@test.com";
     Handlers.s_password := None; Handlers.s_age := Controller.JString "41" |}.

Definition world_carla : Sql.World := state_after (Handlers.store carla) world_ana_bob.

Definition carla_public : UserPublic :=
  {| p_id := Some 3; p_name := "Carla"; p_email := "carla@test.com";
     p_age := Some (Int 41); p_is_active := true;
     p_created_at := 1006; p_updated_at := 1008 |}.

(** A request to register under Bob's address in capitals. *)
Definition bob_again : Handlers.StoreBody :=
  {| Handlers.s_name := "Roberto"; Handlers.s_email := "BOB@test.com";
     Handlers.s_password := None; Handlers.s_age := Controller.JUndefined |}.

(** [{ age: "31" }] *)
Definition only_age (a : Controller.json_value) : Controller.UpdateBody :=
  {| Controller.b_name := Controller.TUndefined;
     Controller.b_email := Controller.TUndefined;
     Controller.b_age := a |}.

(** Bob's age set to 31, and the state after it. *)
Definition world_bob_older : Sql.World :=
  state_after (Controller.update "2" (only_age (Controller.JString "31")))
              world_ana_bob.

Definition bob_older : Controller.Response :=
  {| Controller.status := 200;
     Controller.body :=
       Controller.Success Controller.USER_UPDATED
         {| p_id := Some 2; p_name := "Bob"; p_email := "bob@test.com";
            p_age := Some (Int 31); p_is_active := true;
            p_created_at := 1003; p_updated_at := 1006 |} |}.

(** ** The states of a served database *)

(** The states a server reaches from an empty database by answering
    requests. *)
Inductive served : Sql.World -> Prop :=
| served_fresh (clk : nat -> timestamp) : served (fresh_sql clk)
| served_index (w : Sql.World) :
    served w -> served (state_after Handlers.index w)
| served_show (id : string) (w : Sql.World) :
    served w -> served (state_after (Handlers.show id) w)
| served_store (b : Handlers.StoreBody) (w : Sql.World) :
    served w -> served (state_after (Handlers.store b) w)
| served_update (id : string) (b : Controller.UpdateBody) (w : Sql.World) :
    served w -> served (state_after (Controller.update id b) w)
| served_destroy (id : string) (w : Sql.World) :
    served w -> served (state_after (Handlers.destroy id) w).

(** A row holds a record that passes [validate], and a flag. *)
Definition row_ok (r : Sql.UserRow) : bool :=
  valid (Sql.validate (user_of_row r))
  && ((Sql.row_is_active r =? 0) || (Sql.row_is_active r =? 1)).

(** Carla registered on an empty database, then removed; then Roberto
    registered. *)
Definition world_served : Sql.World :=
  state_after (Handlers.store bob_again)
    (state_after (Handlers.destroy "1")
       (state_after (Handlers.store carla) fresh_world)).

(** ** The handler over the in-memory model *)

(** The object after the three assignments of [update]. *)
Definition mem_apply_fields (o : Mem.User) (b : Controller.UpdateBody) : Mem.User :=
  let o := match Controller.truthy_text (Controller.b_name b) with
           | Some n => MemController.with_name n o
           | None => o
           end in
  let o := match Controller.truthy_text (Controller.b_email b) with
           | Some e => MemController.with_email e o
           | None => o
           end in
  match Controller.b_age b with
  | Controller.JUndefined => o
  | a => MemController.with_age (Some (Controller.parseInt_value a)) o
  end.

Definition with_heap (h : list Mem.User) (w : Mem.World) : Mem.World :=
  {| Mem.heap := h; Mem.users := Mem.users w; Mem.nextId := Mem.nextId w;
     Mem.clock := Mem.clock w; Mem.ticks := Mem.ticks w |}.

(** The test the handler makes before it touches the object. *)
Definition mem_taken (k : Mem.ref) (b : Controller.UpdateBody) (w : Mem.World) : bool :=
  match Controller.truthy_text (Controller.b_email b) with
  | Some e =>
      negb (String.eqb e (Mem.email (Mem.object w k)))
      && existsb (fun r => String.eqb (JsString.toLowerCase (Mem.email (Mem.object w r)))
                                      (JsString.toLowerCase e))
                 (Mem.users w)
  | None => false
  end.

(** Ana registered in the in-memory store. *)
Definition mem_world_ana : Mem.World :=
  state_after (Mem.create ana) (Mem.fresh sample_clock).

(** Ana's age set to 200 in the in-memory store, and what it leaves. *)
Definition mem_world_refused : Mem.World :=
  state_after (MemController.update "1" (only_age (Controller.JString "200")))
              mem_world_ana.

(** The state an accepted [update] leaves: the object behind [k] holds
    [o] with [updated_at] refreshed, and nothing else has changed but
    the clock. *)
Definition mem_stored (k : Mem.ref) (o : Mem.User) (w : Mem.World) : Mem.World :=
  {| Mem.heap := Mem.replace k (Mem.with_updated_at (Mem.clock w (Mem.ticks w)) o)
                             (Mem.heap w);
     Mem.users := Mem.users w; Mem.nextId := Mem.nextId w;
     Mem.clock := Mem.clock w; Mem.ticks := S (Mem.ticks w) |}.

(** Ana's age set to 31 in the in-memory store. *)
Definition mem_world_older : Mem.World :=
  state_after (MemController.update "1" (only_age (Controller.JString "31")))
              mem_world_ana.

Definition ana_older : Controller.Response :=
  {| Controller.status := 200;
     Controller.body :=
       Controller.Success Controller.USER_UPDATED
         {| p_id := Some 1; p_name := "Ana Silva"; p_email := "ana@test.com";
            p_age := Some (Int 31); p_is_active := true;
            p_created_at := 1000; p_updated_at := 1003 |} |}.

(** An input [validate] refuses, with what [create] answers to it. *)
Definition unnamed : UserCreateInput :=
  {| i_name := ""; i_email := "x@test.com"; i_password := None; i_age := None |}.

(** A record built outside [create]: Ana's address in capitals, and a
    record with an identifier no row carries. *)
Definition ana_capitals : Sql.User :=
  {| Sql.id := None; Sql.name := "Ana Souza"; Sql.email := "ANA@test.com";
     Sql.password := None; Sql.age := None; Sql.is_active := true;
     Sql.created_at := 2000; Sql.updated_at := 2000 |}.

Definition stranger : Sql.User :=
  {| Sql.id := Some 7; Sql.name := "Zeca"; Sql.email := "zeca@test.com";
     Sql.password := None; Sql.age := None; Sql.is_active := true;
     Sql.created_at := 2000; Sql.updated_at := 2000 |}.

(** The string is empty or begins with something else than a decimal
    digit. *)
Definition no_leading_digit (s : string) : bool :=
  match s with
  | EmptyString => true
  | String c _ =>
      match ParseInt.digit_value 10 c with Some _ => false | None => true end
  end.

(** The number of at signs of a string. *)
Fixpoint count_at (s : string) : nat :=
  match s with
  | EmptyString => O
  | String c r => ((if (JsString.code c =? 64)%N then 1 else 0) + count_at r)%nat
  end.




(** ** The JavaScript handlers *)

(** What the JavaScript [index] lists in a state. *)
Definition js_listing (w : Mem.World) : list UserList :=
  map (fun k => Mem.toListJSON (Mem.object w k))
      (filter (fun k => Mem.is_active (Mem.object w k)) (Mem.users w)).

Definition js_listed (l : list UserList) : JsHandlers.Response :=
  {| JsHandlers.status := 200;
     JsHandlers.reply := JsHandlers.Listed Handlers.USERS_LISTED
                           (Z.of_nat (List.length l)) l |}.

Definition js_shown (p : UserPublic) : JsHandlers.Response :=
  {| JsHandlers.status := 200; JsHandlers.reply := JsHandlers.Shown p |}.

Definition js_created (p : UserPublic) : JsHandlers.Response :=
  {| JsHandlers.status := 201;
     JsHandlers.reply := JsHandlers.Stored Handlers.USER_STORED p |}.

Definition js_refused (errs : list string) : JsHandlers.Response :=
  {| JsHandlers.status := 400;
     JsHandlers.reply := JsHandlers.Refused (String.concat ", " errs) (Some errs) |}.

Definition js_removed : JsHandlers.Response :=
  {| JsHandlers.status := 200;
     JsHandlers.reply := JsHandlers.Removed Handlers.USER_REMOVED |}.

(** The three fields of a public record that the listing keeps. *)
Definition list_of_public (p : UserPublic) : UserList :=
  {| l_name := p_name p; l_email := p_email p; l_age := p_age p |}.

(** Carla registered after Ana in the in-memory store. *)
Definition mem_world_carla : Mem.World :=
  state_after (JsHandlers.store carla) mem_world_ana.

Definition carla_in_memory : UserPublic :=
  {| p_id := Some 2; p_name := "Carla"; p_email := "carla@test.com";
     p_age := Some (Int 41); p_is_active := true;
     p_created_at := 1003; p_updated_at := 1005 |}.

(** The states the JavaScript server reaches from an empty store by
    answering requests. *)
Inductive js_served : Mem.World -> Prop :=
| js_served_fresh (clk : nat -> timestamp) : js_served (Mem.fresh clk)
| js_served_index (w : Mem.World) :
    js_served w -> js_served (state_after JsHandlers.index w)
| js_served_show (id : string) (w : Mem.World) :
    js_served w -> js_served (state_after (JsHandlers.show id) w)
| js_served_store (b : Handlers.StoreBody) (w : Mem.World) :
    js_served w -> js_served (state_after (JsHandlers.store b) w)
| js_served_update (id : string) (b : Controller.UpdateBody) (w : Mem.World) :
    js_served w -> js_served (state_after (MemController.update id b) w)
| js_served_destroy (id : string) (w : Mem.World) :
    js_served w -> js_served (state_after (JsHandlers.destroy id) w).

(** Ana registered through the handler, then given the age 200, which
    is refused. *)
Definition js_world_refused : Mem.World :=
  state_after (MemController.update "1" (only_age (Controller.JString "200")))
    (state_after (JsHandlers.store {| Handlers.s_name := "Ana Silva";
                                      Handlers.s_email := "ana@test.com";
                                      Handlers.s_password := Some "segredo";
                                      Handlers.s_age := Controller.JString "30" |})
                 (Mem.fresh sample_clock)).

(** ** Numbers the table does not keep *)

(** A public record as a query gives it back once written: a NaN age
    comes back as no age. *)
Definition read_back (p : UserPublic) : UserPublic :=
  {| p_id := p_id p; p_name := p_name p; p_email := p_email p;
     p_age := Sql.stored_number (p_age p); p_is_active := p_is_active p;
     p_created_at := p_created_at p; p_updated_at := p_updated_at p |}.

(** An input whose age is no number, as [store] makes of [age: "abc"]. *)
Definition ageless : UserCreateInput :=
  {| i_name := "Nana"; i_email := "nana@test.com";
     i_password := None; i_age := Some NaN |}.

(** Eva registered under a capital E with acute accent, then Bob. *)
Definition world_eva : Sql.World := state_after (Sql.create accented) fresh_world.
Definition world_eva_bob : Sql.World := state_after (Sql.create bob) world_eva.

(** ** Numbers *)

Lemma qc_compare_Int (a b : Z) :
  (Q2Qc (inject_Z a) ?= Q2Qc (inject_Z b))%Qc = (a ?= b).
Proof.
  unfold Qccompare, Q2Qc.
  change (this (Qcmake (Qred (inject_Z a)) (Qred_involutive (inject_Z a))))
    with (Qred (inject_Z a)).
  change (this (Qcmake (Qred (inject_Z b)) (Qred_involutive (inject_Z b))))
    with (Qred (inject_Z b)).
  rewrite <- Qred_compare.
  unfold Qcompare, inject_Z. cbn [Qnum Qden].
  now rewrite !Z.mul_1_r.
Qed.

Lemma ltb_Int (a b : Z) : ltb (Int a) (Int b) = (a <? b).
Proof.
  unfold ltb, Int, qc_ltb. rewrite qc_compare_Int.
  unfold Z.ltb. now destruct (a ?= b).
Qed.

Lemma gtb_Int (a b : Z) : gtb (Int a) (Int b) = (b <? a).
Proof. unfold gtb. apply ltb_Int. Qed.

Lemma eq_int_Int (a b : Z) : eq_int (Int a) b = (a =? b).
Proof.
  unfold eq_int, Int, Q2Qc.
  change (this (Qcmake (Qred (inject_Z a)) (Qred_involutive (inject_Z a))))
    with (Qred (inject_Z a)).
  destruct (Z.eqb_spec a b) as [->|Hne].
  - apply Qeq_bool_iff. apply Qred_correct.
  - destruct (Qeq_bool (Qred (inject_Z a)) (inject_Z b)) eqn:E; [|reflexivity].
    apply Qeq_bool_iff in E. rewrite Qred_correct in E.
    unfold Qeq, inject_Z in E; simpl in E. lia.
Qed.

Lemma qc_ltb_lt (x y : Qc) : qc_ltb x y = true <-> (x < y)%Qc.
Proof.
  unfold qc_ltb, Qclt, Qccompare. rewrite Qlt_alt.
  destruct (this x ?= this y)%Q; split; congruence.
Qed.

(** ** The messages are pairwise distinct *)

Lemma AGE_RANGE_not_name (n : string) : ~ In AGE_RANGE (check_name n).
Proof.
  unfold check_name.
  destruct (negb (JsString.truthy n) || JsString.is_empty (JsString.trim n)).
  - intros [H|[]]. vm_compute in H. discriminate.
  - destruct (String.length (JsString.trim n) <? 2)%nat.
    + intros [H|[]]. vm_compute in H. discriminate.
    + intros [].
Qed.

Lemma AGE_RANGE_not_email (e : string) : ~ In AGE_RANGE (check_email e).
Proof.
  unfold check_email.
  destruct (negb (JsString.truthy e) || JsString.is_empty (JsString.trim e)).
  - intros [H|[]]. vm_compute in H. discriminate.
  - destruct (negb (EmailRegex.test e)).
    + intros [H|[]]. vm_compute in H. discriminate.
    + intros [].
Qed.

(** The age message is reported exactly when the age check pushes it. *)
Lemma age_message_sql (u : Sql.User) :
  In AGE_RANGE (errors (Sql.validate u)) <-> In AGE_RANGE (Sql.check_age (Sql.age u)).
Proof.
  unfold Sql.validate; simpl. rewrite !in_app_iff. split.
  - intros [H|[H|H]]; [now apply AGE_RANGE_not_name in H
                      |now apply AGE_RANGE_not_email in H|exact H].
  - auto.
Qed.

Lemma age_message_mem (u : Mem.User) :
  In AGE_RANGE (errors (Mem.validate u)) <-> In AGE_RANGE (Mem.check_age (Mem.age u)).
Proof.
  unfold Mem.validate; simpl. rewrite !in_app_iff. split.
  - intros [H|[H|H]]; [now apply AGE_RANGE_not_name in H
                      |now apply AGE_RANGE_not_email in H|exact H].
  - auto.
Qed.

Lemma range_check_outside (a : number) :
  a <> NaN ->
  (ltb a (Int 0) || gtb a (Int 150) = true <-> outside_range a).
Proof.
  intros Hn. destruct a as [|[|]|q]; simpl.
  - congruence.
  - unfold gtb; simpl. tauto.
  - unfold gtb; simpl. tauto.
  - unfold gtb, ltb, Int. rewrite orb_true_iff, !qc_ltb_lt. tauto.
Qed.

(* ================================================================== *)
(** ** C5: the age rule of [validate] *)

Lemma thirty_and_a_half_not_integer : ~ integer_in_range thirty_and_a_half.
Proof.
  intros [z [H _]].
  assert (E : eq_int thirty_and_a_half z = true)
    by (rewrite H, eq_int_Int; apply Z.eqb_refl).
  unfold eq_int, thirty_and_a_half in E. apply Qeq_bool_iff in E.
  unfold Qeq, inject_Z in E; simpl in E. lia.
Qed.

Lemma sql_check_age_iff (a : number) :
  In AGE_RANGE (Sql.check_age (Some a)) <-> ltb a (Int 0) || gtb a (Int 150) = true.
Proof.
  change (Sql.check_age (Some a))
    with (if ltb a (Int 0) || gtb a (Int 150) then [AGE_RANGE] else []).
  destruct (ltb a (Int 0) || gtb a (Int 150)).
  - split; [reflexivity | intros _; now left].
  - split; [intros [] | discriminate].
Qed.

Lemma mem_check_age_iff (a : number) :
  In AGE_RANGE (Mem.check_age (Some a)) <-> ltb a (Int 0) || gtb a (Int 150) = true.
Proof.
  change (Mem.check_age (Some a))
    with (if ltb a (Int 0) || gtb a (Int 150) then [AGE_RANGE] else []).
  destruct (ltb a (Int 0) || gtb a (Int 150)).
  - split; [reflexivity | intros _; now left].
  - split; [intros [] | discriminate].
Qed.


(** C5, as stated, fails at the age 30.5: the value is not an integer
    from 0 to 150, and neither model reports the age message. *)
Lemma validate_accepts_fraction :
  ~ (In AGE_RANGE (errors (Sql.validate (sample_user (Some thirty_and_a_half))))
     <-> ~ integer_in_range thirty_and_a_half)
  /\ ~ (In AGE_RANGE (errors (Mem.validate (sample_object (Some thirty_and_a_half))))
        <-> ~ integer_in_range thirty_and_a_half).
Proof.
  split; intros [_ H]; specialize (H thirty_and_a_half_not_integer);
    vm_compute in H; tauto.
Qed.

(** What the two models do with a NaN age: no message. *)
Example validate_accepts_NaN :
  Sql.validate (sample_user (Some NaN)) = {| valid := true; errors := [] |}
  /\ Mem.validate (sample_object (Some NaN)) = {| valid := true; errors := [] |}.
Proof. split; vm_compute; reflexivity. Qed.

(** C5, amended: for an age that is present and is not NaN, both models
    report "A idade deve ser um numero entre 0 e 150" exactly when the
    age is below 0 or above 150; for an integer age, exactly when it is
    not one of 0..150. *)
Theorem validate_age_message (u : Sql.User) (m : Mem.User) (a : number) :
  Sql.age u = Some a -> Mem.age m = Some a -> a <> NaN ->
  (In AGE_RANGE (errors (Sql.validate u)) <-> outside_range a) /\
  (In AGE_RANGE (errors (Mem.validate m)) <-> outside_range a) /\
  (forall z : Z, a = Int z -> (outside_range a <-> ~ (0 <= z <= 150))).
Proof.
  intros Hu Hm Hn. split; [|split].
  - rewrite age_message_sql, Hu, sql_check_age_iff.
    apply range_check_outside; assumption.
  - rewrite age_message_mem, Hm, mem_check_age_iff.
    apply range_check_outside; assumption.
  - intros z ->. rewrite <- (range_check_outside _ Hn), ltb_Int, gtb_Int. lia.
Qed.

Lemma validate_age_message_witness :
  In AGE_RANGE (errors (Sql.validate (sample_user (Some (Int 200)))))
  /\ ~ In AGE_RANGE (errors (Mem.validate (sample_object (Some (Int 30))))).
Proof.
  split.
  - apply (validate_age_message (sample_user (Some (Int 200)))
             (sample_object (Some (Int 200))) (Int 200));
      [reflexivity | reflexivity | discriminate | ].
    apply (validate_age_message (sample_user (Some (Int 200)))
             (sample_object (Some (Int 200))) (Int 200)
             eq_refl eq_refl ltac:(discriminate)) with (z := 200);
      [reflexivity | lia].
  - intros H.
    apply (validate_age_message (sample_user (Some (Int 30)))
             (sample_object (Some (Int 30))) (Int 30)) in H;
      [ | reflexivity | reflexivity | discriminate].
    apply (validate_age_message (sample_user (Some (Int 30)))
             (sample_object (Some (Int 30))) (Int 30)
             eq_refl eq_refl ltac:(discriminate)) with (z := 30) in H;
      [lia | reflexivity].
Defined.

(* ================================================================== *)
(** ** C8: the two projections *)

(** C8: the public view of a record carries its identifier, name, email,
    age, active flag and two timestamps and nothing else; the listing
    view carries its name, email and age and nothing else.  Two records
    have the same view exactly when they agree on these fields, so the
    password never shows, whatever its value. *)
Theorem views_expose_exactly (u v : Sql.User) :
  (Sql.toPublicJSON u = Sql.toPublicJSON v <->
     Sql.id u = Sql.id v /\ Sql.name u = Sql.name v /\
     Sql.email u = Sql.email v /\ Sql.age u = Sql.age v /\
     Sql.is_active u = Sql.is_active v /\
     Sql.created_at u = Sql.created_at v /\
     Sql.updated_at u = Sql.updated_at v) /\
  (Sql.toListJSON u = Sql.toListJSON v <->
     Sql.name u = Sql.name v /\ Sql.email u = Sql.email v /\
     Sql.age u = Sql.age v) /\
  (forall secret : option string,
     Sql.toPublicJSON
       {| Sql.id := Sql.id u; Sql.name := Sql.name u; Sql.email := Sql.email u;
          Sql.password := secret; Sql.age := Sql.age u;
          Sql.is_active := Sql.is_active u;
          Sql.created_at := Sql.created_at u;
          Sql.updated_at := Sql.updated_at u |} = Sql.toPublicJSON u).
Proof.
  destruct u, v; unfold Sql.toPublicJSON, Sql.toListJSON; simpl.
  split; [|split].
  - split.
    + intros H. injection H as -> -> -> -> -> -> ->. repeat split.
    + intros (-> & -> & -> & -> & -> & -> & ->). reflexivity.
  - split.
    + intros H. injection H as -> -> ->. repeat split.
    + intros (-> & -> & ->). reflexivity.
  - reflexivity.
Qed.

(* ================================================================== *)
(** ** Strings *)

Lemma is_empty_true (s : string) : JsString.is_empty s = true <-> s = "".
Proof. destruct s; simpl; split; congruence. Qed.

(** [!s || s.trim() === ''] is [s.trim() === ''], the empty string
    trimming to itself. *)
Lemma required_test (s : string) :
  negb (JsString.truthy s) || JsString.is_empty (JsString.trim s) = true
  <-> JsString.trim s = "".
Proof.
  rewrite orb_true_iff, is_empty_true. unfold JsString.truthy.
  rewrite negb_involutive, is_empty_true. split.
  - intros [->|H]; [reflexivity|exact H].
  - auto.
Qed.

Lemma string_forallb_app (p : ascii -> bool) (a b : string) :
  JsString.forallb p (a ++ b)%string = JsString.forallb p a && JsString.forallb p b.
Proof.
  induction a as [|c a IH]; simpl; [reflexivity|].
  now rewrite IH, andb_assoc.
Qed.

(** *** The matcher decides the regular expression *)

Lemma split_at_spec (s l d : string) :
  EmailRegex.split_at s = Some (l, d) <->
  s = (l ++ "@" ++ d)%string /\
  JsString.forallb (fun c => negb (JsString.code c =? 64)%N) l = true.
Proof.
  revert l d. induction s as [|c s IH]; intros l d; simpl.
  - split; [discriminate|]. intros [H _]. destruct l; discriminate.
  - destruct (JsString.code c =? 64)%N eqn:E.
    + split.
      * intros H. injection H as <- <-. split; [|reflexivity].
        simpl. f_equal. apply N.eqb_eq in E.
        unfold JsString.code in E.
        rewrite <- (ascii_N_embedding c), E. reflexivity.
      * intros [H Hl]. destruct l as [|c' l]; simpl in *.
        -- injection H as _ ->. reflexivity.
        -- injection H as -> _. rewrite E in Hl. discriminate.
    + destruct (EmailRegex.split_at s) as [[l' d']|] eqn:Es.
      * split.
        -- intros H. injection H as <- <-.
           destruct (proj1 (IH l' d') eq_refl) as [-> Hl].
           split; [reflexivity|]. simpl. now rewrite E.
        -- intros [H Hl]. destruct l as [|c' l]; simpl in *.
           ++ injection H as -> _. simpl in E. discriminate.
           ++ injection H as -> ->. rewrite E in Hl. simpl in Hl.
              assert (X : Some (l', d') = Some (l, d))
                by (apply IH; split; [reflexivity|exact Hl]).
              now injection X as -> ->.
      * split; [discriminate|]. intros [H Hl].
        destruct l as [|c' l]; simpl in *.
        -- injection H as -> _. simpl in E. discriminate.
        -- injection H as -> ->. rewrite E in Hl. simpl in Hl.
           assert (X : None = Some (l, d))
             by (apply IH; split; [reflexivity|exact Hl]).
           discriminate.
Qed.

Lemma dot_inside_spec (s : string) :
  EmailRegex.dot_inside s = true <->
  exists a b : string, s = (a ++ "." ++ b)%string /\ b <> "".
Proof.
  induction s as [|c s IH]; simpl.
  - split; [discriminate|]. intros (a & b & H & _). destruct a; discriminate.
  - destruct s as [|c' s'].
    + split; [discriminate|]. intros (a & b & H & Hb).
      destruct a as [|x a]; simpl in H.
      * injection H as _ <-. congruence.
      * injection H as _ H. destruct a; discriminate.
    + rewrite orb_true_iff, IH. split.
      * intros [H|(a & b & H & Hb)].
        -- exists "", (String c' s'). split; [|discriminate].
           simpl. f_equal. unfold EmailRegex.is_dot in H.
           apply N.eqb_eq in H. unfold JsString.code in H.
           rewrite <- (ascii_N_embedding c), H. reflexivity.
        -- exists (String c a), b. split; [|exact Hb]. simpl. now rewrite H.
      * intros (a & b & H & Hb). destruct a as [|x a]; simpl in H.
        -- injection H as -> _. left. reflexivity.
        -- injection H as _ H. right. exists a, b. split; assumption.
Qed.

Lemma cls_not_at (l : string) :
  JsString.forallb EmailRegex.cls l = true ->
  JsString.forallb (fun c => negb (JsString.code c =? 64)%N) l = true.
Proof.
  induction l as [|c l IH]; simpl; [reflexivity|].
  unfold EmailRegex.cls at 1. rewrite !andb_true_iff.
  intros [[_ H] Hl]. split; [exact H|apply IH, Hl].
Qed.

Lemma test_matches (s : string) :
  EmailRegex.test s = true <-> EmailRegex.matches s.
Proof.
  unfold EmailRegex.test, EmailRegex.matches. split.
  - destruct (EmailRegex.split_at s) as [[l d]|] eqn:E; [|discriminate].
    apply split_at_spec in E. destruct E as [-> _].
    rewrite !andb_true_iff. intros [[Hl Hc] Hd].
    unfold EmailRegex.domain_ok in Hd. destruct d as [|c r]; [discriminate|].
    apply andb_true_iff in Hd. destruct Hd as [Hcls Hdot].
    apply dot_inside_spec in Hdot. destruct Hdot as (a & b & -> & Hb).
    exists l, (String c a), b.
    change (JsString.forallb EmailRegex.cls (String c a ++ "." ++ b)%string = true)
      in Hcls.
    rewrite string_forallb_app in Hcls. apply andb_true_iff in Hcls.
    destruct Hcls as [Ha Hb'].
    change ("." ++ b)%string with (String "."%char b) in Hb'. simpl in Hb'.
    repeat split; try assumption; try discriminate.
    destruct l; [discriminate|discriminate].
  - intros (l & d & t & -> & Hl & Hd & Ht & Cl & Cd & Ct).
    assert (E : EmailRegex.split_at (l ++ "@" ++ d ++ "." ++ t)%string
                = Some (l, (d ++ "." ++ t)%string))
      by (apply split_at_spec; split; [reflexivity|apply cls_not_at, Cl]).
    rewrite E, Cl. destruct l as [|x l]; [congruence|]. simpl negb. simpl andb.
    unfold EmailRegex.domain_ok. destruct d as [|c r]; [congruence|].
    change (String c r ++ "." ++ t)%string with (String c (r ++ "." ++ t)%string).
    apply andb_true_iff. split.
    + change (String c (r ++ "." ++ t)%string) with (String c r ++ "." ++ t)%string.
      rewrite string_forallb_app, Cd. simpl. now rewrite Ct.
    + apply dot_inside_spec. exists r, t. split; [reflexivity|exact Ht].
Qed.

(* ================================================================== *)
(** ** [validate] reports every failing rule, and only those *)

Lemma check_name_rule (n e : string) (a : option number) (m : string) :
  In m (check_name n) <->
  (m = NAME_REQUIRED /\ JsString.trim n = "") \/
  (m = NAME_TOO_SHORT /\ JsString.trim n <> "" /\
   (String.length (JsString.trim n) < 2)%nat).
Proof.
  unfold check_name.
  destruct (negb (JsString.truthy n) || JsString.is_empty (JsString.trim n)) eqn:R.
  - apply required_test in R. simpl. split.
    + intros [<-|[]]. left. auto.
    + intros [[-> _]|[_ [H _]]]; [now left|congruence].
  - assert (Hn : JsString.trim n <> "").
    { intros H. apply required_test in H. congruence. }
    destruct (String.length (JsString.trim n) <? 2)%nat eqn:L.
    + apply Nat.ltb_lt in L. simpl. split.
      * intros [<-|[]]. right. auto.
      * intros [[_ H]|[-> _]]; [congruence|now left].
    + apply Nat.ltb_ge in L. simpl. split; [intros []|].
      intros [[_ H]|[_ [_ H]]]; [congruence|lia].
Qed.

Lemma check_email_rule (e : string) (m : string) :
  In m (check_email e) <->
  (m = EMAIL_REQUIRED /\ JsString.trim e = "") \/
  (m = EMAIL_INVALID /\ JsString.trim e <> "" /\ ~ EmailRegex.matches e).
Proof.
  unfold check_email.
  destruct (negb (JsString.truthy e) || JsString.is_empty (JsString.trim e)) eqn:R.
  - apply required_test in R. simpl. split.
    + intros [<-|[]]. left. auto.
    + intros [[-> _]|[_ [H _]]]; [now left|congruence].
  - assert (Hn : JsString.trim e <> "").
    { intros H. apply required_test in H. congruence. }
    destruct (EmailRegex.test e) eqn:T; simpl.
    + apply test_matches in T. split; [intros []|].
      intros [[_ H]|[_ [_ H]]]; [congruence|contradiction].
    + assert (Hm : ~ EmailRegex.matches e).
      { intros H. apply test_matches in H. congruence. }
      split.
      * intros [<-|[]]. right. auto.
      * intros [[_ H]|[-> _]]; [congruence|now left].
Qed.

Lemma check_age_rule (a : option number) (m : string) :
  In m (Sql.check_age a) <->
  m = AGE_RANGE /\ exists x, a = Some x /\ ltb x (Int 0) || gtb x (Int 150) = true.
Proof.
  destruct a as [x|].
  - change (Sql.check_age (Some x))
      with (if ltb x (Int 0) || gtb x (Int 150) then [AGE_RANGE] else []).
    destruct (ltb x (Int 0) || gtb x (Int 150)) eqn:E.
    + split.
      * intros [<-|[]]. split; [reflexivity|]. exists x. auto.
      * intros [-> _]. now left.
    + split; [intros []|]. intros [_ (y & Hy & H)].
      injection Hy as <-. congruence.
  - simpl. split; [intros []|]. intros [_ (y & Hy & _)]. discriminate.
Qed.

Lemma validate_reports (u : Sql.User) (m : string) :
  In m (errors (Sql.validate u)) <->
  failing_rule (Sql.name u) (Sql.email u) (Sql.age u) m.
Proof.
  unfold Sql.validate; simpl. rewrite !in_app_iff.
  rewrite (check_name_rule _ (Sql.email u) (Sql.age u)), check_email_rule,
    check_age_rule.
  split.
  - intros [[[-> H]|[-> [H1 H2]]]|[[[-> H]|[-> [H1 H2]]]|[-> (x & Hx & H)]]].
    + now apply name_required.
    + now apply name_too_short.
    + now apply email_required.
    + now apply email_invalid.
    + now apply age_out_of_range with x.
  - intros H. destruct H as [H|H1 H2|H|H1 H2|x Hx H].
    + left. left. auto.
    + left. right. auto.
    + right. left. left. auto.
    + right. left. right. auto.
    + right. right. split; [reflexivity|]. exists x. auto.
Qed.

Lemma valid_no_failing_rule (u : Sql.User) :
  valid (Sql.validate u) = true <->
  forall m, ~ failing_rule (Sql.name u) (Sql.email u) (Sql.age u) m.
Proof.
  split.
  - intros H m Hm. apply validate_reports in Hm.
    unfold Sql.validate in *; simpl in *.
    destruct (check_name (Sql.name u) ++ check_email (Sql.email u)
              ++ Sql.check_age (Sql.age u)); [destruct Hm|discriminate].
  - intros H. unfold Sql.validate; simpl.
    destruct (check_name (Sql.name u) ++ check_email (Sql.email u)
              ++ Sql.check_age (Sql.age u)) as [|m l] eqn:E; [reflexivity|].
    exfalso. apply (H m). apply validate_reports.
    unfold Sql.validate; simpl. rewrite E. now left.
Qed.

(* ================================================================== *)
(** ** Running the queries of the SQLite-backed model *)

Lemma new_User_fromRow (r : Sql.UserRow) (w : Sql.World) :
  Sql.new_User (Sql.fromRow r) w = (Return (user_of_row r), w).
Proof. reflexivity. Qed.

Lemma findById_run (n : number) (w : Sql.World) :
  Sql.findById n w =
  (Return (option_map user_of_row (hd_error (Sql.select_by_id n (Sql.db w)))), w).
Proof.
  unfold Sql.findById, bind, Sql.getDb.
  destruct (Sql.select_by_id n (Sql.db w)); reflexivity.
Qed.

Lemma findByEmail_run (e : string) (w : Sql.World) :
  Sql.findByEmail e w =
  (Return (option_map user_of_row (hd_error (Sql.select_by_email e (Sql.db w)))), w).
Proof.
  unfold Sql.findByEmail, bind, Sql.getDb.
  destruct (Sql.select_by_email e (Sql.db w)); reflexivity.
Qed.

Lemma mapM_new_User (l : list Sql.UserRow) (w : Sql.World) :
  mapM (fun row => Sql.new_User (Sql.fromRow row)) l w
  = (Return (map user_of_row l), w).
Proof.
  induction l as [|r l IH]; [reflexivity|].
  simpl. unfold bind at 1. rewrite new_User_fromRow.
  unfold bind at 1. rewrite IH. reflexivity.
Qed.

Lemma findAll_run (w : Sql.World) :
  Sql.findAll w = (Return (map user_of_row (Sql.select_active (Sql.db w))), w).
Proof.
  unfold Sql.findAll, bind at 1, Sql.getDb. apply mapM_new_User.
Qed.

Lemma count_positive {A} (p : A -> bool) (l : list A) :
  (0 <? Z.of_nat (List.length (filter p l))) = existsb p l.
Proof.
  induction l as [|x l IH]; [reflexivity|].
  simpl. destruct (p x); simpl.
  - apply Z.ltb_lt. lia.
  - exact IH.
Qed.

Lemma emailExists_run (e : string) (w : Sql.World) :
  Sql.emailExists e w
  = (Return (existsb (fun r => same_email (Sql.row_email r) e)
                     (Sql.users (Sql.db w))), w).
Proof.
  unfold Sql.emailExists, bind, Sql.getDb, ret, Sql.count_by_email.
  now rewrite count_positive.
Qed.

Lemma count_run (w : Sql.World) :
  Sql.count w = (Return (Z.of_nat (List.length (Sql.select_active (Sql.db w)))), w).
Proof. reflexivity. Qed.

Lemma existsb_false {A} (p : A -> bool) (l : list A) :
  existsb p l = false <-> forall x, In x l -> p x = false.
Proof.
  split.
  - intros H x Hx. destruct (p x) eqn:E; [|reflexivity].
    assert (X : existsb p l = true) by (apply existsb_exists; eauto).
    congruence.
  - intros H. destruct (existsb p l) eqn:E; [|reflexivity].
    apply existsb_exists in E. destruct E as (x & Hx & Px).
    rewrite (H x Hx) in Px. discriminate.
Qed.

Lemma same_email_refl (a : string) : same_email a a = true.
Proof. unfold same_email. apply String.eqb_refl. Qed.

Lemma same_email_sym (a b : string) : same_email a b = same_email b a.
Proof. unfold same_email. apply String.eqb_sym. Qed.

Lemma eqb_same_email (a b : string) :
  String.eqb a b = true -> same_email a b = true.
Proof. intros H. apply String.eqb_eq in H. subst. apply same_email_refl. Qed.

Lemma max_rowid_ge (l : list Sql.UserRow) (x : Sql.UserRow) :
  In x l -> Sql.row_id x <= Sql.max_rowid l.
Proof.
  induction l as [|r l IH]; simpl; [intros []|].
  intros [->|H]; [lia|]. specialize (IH H). lia.
Qed.

Lemma next_rowid_fresh (d : Sql.Database) (x : Sql.UserRow) :
  In x (Sql.users d) -> Sql.row_id x < Sql.next_rowid d.
Proof.
  intros H. apply max_rowid_ge in H. unfold Sql.next_rowid. lia.
Qed.

Lemma next_rowid_positive (d : Sql.Database) : 0 < Sql.next_rowid d.
Proof.
  unfold Sql.next_rowid.
  assert (0 <= Sql.max_rowid (Sql.users d)).
  { induction (Sql.users d) as [|r l IH]; simpl; lia. }
  lia.
Qed.

(** *** Running [save] *)

Lemma save_insert_run (u : Sql.User) (w : Sql.World) :
  Sql.truthy_id (Sql.id u) = None ->
  existsb (fun r => String.eqb (Sql.row_email r) (Sql.email u))
          (Sql.users (Sql.db w)) = false ->
  let t := Sql.clock w (Sql.ticks w) in
  let i := Sql.next_rowid (Sql.db w) in
  Sql.save u w =
  (Return (Sql.with_id (Sql.with_updated_at u t) i),
   with_db (inserted (row_of_user i (Sql.created_at u) (Sql.with_updated_at u t))
                     (Sql.db w))
           (later 1 w)).
Proof.
  intros Hid Hfree. unfold Sql.save, bind at 1, Sql.now.
  cbn [Sql.with_updated_at Sql.id]. rewrite Hid.
  unfold bind, Sql.sql_insert, bind, Sql.getDb. cbn [Sql.db Sql.email Sql.with_updated_at].
  rewrite Hfree. reflexivity.
Qed.

Lemma save_insert_throws (u : Sql.User) (w : Sql.World) :
  Sql.truthy_id (Sql.id u) = None ->
  existsb (fun r => String.eqb (Sql.row_email r) (Sql.email u))
          (Sql.users (Sql.db w)) = true ->
  Sql.save u w = (Throw Sql.UNIQUE_FAILED, later 1 w).
Proof.
  intros Hid Hdup. unfold Sql.save, bind at 1, Sql.now.
  cbn [Sql.with_updated_at Sql.id]. rewrite Hid.
  unfold bind, Sql.sql_insert, bind, Sql.getDb. cbn [Sql.db Sql.email Sql.with_updated_at].
  rewrite Hdup. reflexivity.
Qed.

Lemma save_update_run (u : Sql.User) (w : Sql.World) (i : Z) :
  Sql.truthy_id (Sql.id u) = Some i ->
  existsb (fun r => Sql.row_id r =? i) (Sql.users (Sql.db w)) &&
  existsb (fun r => negb (Sql.row_id r =? i)
                    && String.eqb (Sql.row_email r) (Sql.email u))
          (Sql.users (Sql.db w)) = false ->
  let t := Sql.clock w (Sql.ticks w) in
  Sql.save u w =
  (Return (Sql.with_updated_at u t),
   with_db (updated i (Sql.with_updated_at u t) (Sql.db w)) (later 1 w)).
Proof.
  intros Hid Hfree. unfold Sql.save, bind at 1, Sql.now.
  cbn [Sql.with_updated_at Sql.id]. rewrite Hid.
  unfold bind, Sql.sql_update, bind, Sql.getDb. cbn [Sql.db Sql.email Sql.with_updated_at].
  rewrite Hfree. reflexivity.
Qed.

Lemma new_User_candidate (d : UserCreateInput) (w : Sql.World) :
  Sql.new_User (as_UserData d) w =
  (Return (candidate d (Sql.clock w (Sql.ticks w)) (Sql.clock w (S (Sql.ticks w)))),
   later 2 w).
Proof. reflexivity. Qed.

(* ================================================================== *)
(** ** C3: the three outcomes of [create] *)

Lemma create_run (d : UserCreateInput) (w : Sql.World) :
  let u := candidate d (Sql.clock w (Sql.ticks w)) (Sql.clock w (S (Sql.ticks w))) in
  Sql.create d w =
  if negb (valid (Sql.validate u))
  then (Return {| Sql.success := false; Sql.user := None;
                  Sql.result_errors := Some (errors (Sql.validate u)) |},
        later 2 w)
  else if existsb (fun r => same_email (Sql.row_email r) (i_email d))
                  (Sql.users (Sql.db w))
       then (Return {| Sql.success := false; Sql.user := None;
                       Sql.result_errors := Some [EMAIL_TAKEN] |},
             later 2 w)
       else
         let t := Sql.clock w (S (S (Sql.ticks w))) in
         let i := Sql.next_rowid (Sql.db w) in
         (Return {| Sql.success := true;
                    Sql.user := Some (Sql.with_id (Sql.with_updated_at u t) i);
                    Sql.result_errors := None |},
          with_db (inserted (row_of_user i (Sql.created_at u)
                                         (Sql.with_updated_at u t))
                            (Sql.db w))
                  (later 3 w)).
Proof.
  intros u. unfold Sql.create, bind at 1. rewrite new_User_candidate. fold u.
  destruct (negb (valid (Sql.validate u))); [reflexivity|].
  unfold bind at 1. rewrite emailExists_run.
  change (Sql.email u) with (i_email d).
  change (Sql.db (later 2 w)) with (Sql.db w).
  destruct (existsb (fun r => same_email (Sql.row_email r) (i_email d))
                    (Sql.users (Sql.db w))) eqn:E; [reflexivity|].
  unfold bind at 1. rewrite save_insert_run.
  - reflexivity.
  - reflexivity.
  - change (Sql.db (later 2 w)) with (Sql.db w).
    change (Sql.email u) with (i_email d).
    apply existsb_false. intros x Hx.
    destruct (String.eqb (Sql.row_email x) (i_email d)) eqn:Ex; [|reflexivity].
    apply eqb_same_email in Ex.
    rewrite existsb_false in E. rewrite (E x Hx) in Ex. discriminate.
Qed.

(** C3: [create] never throws and ends in exactly one of three ways.
    (a) Some rule of [validate] fails: the result is a failure whose
    error list holds the message of every failing rule and no other, and
    the database is unchanged.  (b) No rule fails and the email equals,
    up to case, the email of a row, active or not: the result is a
    failure with the single message "Este email ja esta cadastrado", and
    the database is unchanged.  (c) Otherwise the table gains exactly one
    row, whose rowid is new and larger than every other, and the result
    is a success carrying the record with that rowid as its identifier. *)
Theorem create_outcomes (d : UserCreateInput) (w : Sql.World) :
  exists (r : Sql.CreateUserResult) (w' : Sql.World),
    Sql.create d w = (Return r, w') /\
    ( ((exists m, failing_rule (i_name d) (i_email d) (i_age d) m) /\
       Sql.success r = false /\ Sql.user r = None /\
       (exists errs, Sql.result_errors r = Some errs /\
          forall m, In m errs <-> failing_rule (i_name d) (i_email d) (i_age d) m) /\
       Sql.db w' = Sql.db w)
      \/
      ((forall m, ~ failing_rule (i_name d) (i_email d) (i_age d) m) /\
       (exists row, In row (Sql.users (Sql.db w)) /\
                    same_email (Sql.row_email row) (i_email d) = true) /\
       r = {| Sql.success := false; Sql.user := None;
              Sql.result_errors := Some [EMAIL_TAKEN] |} /\
       Sql.db w' = Sql.db w)
      \/
      ((forall m, ~ failing_rule (i_name d) (i_email d) (i_age d) m) /\
       (forall row, In row (Sql.users (Sql.db w)) ->
                    same_email (Sql.row_email row) (i_email d) = false) /\
       Sql.success r = true /\ Sql.result_errors r = None /\
       exists (u : Sql.User) (row : Sql.UserRow),
         Sql.user r = Some u /\
         Sql.users (Sql.db w') = Sql.users (Sql.db w) ++ [row] /\
         Sql.id u = Some (Sql.row_id row) /\
         (forall x, In x (Sql.users (Sql.db w)) -> Sql.row_id x < Sql.row_id row) /\
         row = row_of_user (Sql.row_id row) (Sql.created_at u) u /\
         Sql.name u = i_name d /\ Sql.email u = i_email d /\
         Sql.age u = i_age d /\ Sql.is_active u = true) ).
Proof.
  pose proof (create_run d w) as R. cbv zeta in R.
  set (u := candidate d (Sql.clock w (Sql.ticks w))
                      (Sql.clock w (S (Sql.ticks w)))) in *.
  destruct (valid (Sql.validate u)) eqn:V; cbn [negb] in R.
  - destruct (existsb (fun r => same_email (Sql.row_email r) (i_email d))
                      (Sql.users (Sql.db w))) eqn:E.
    + eexists _, _. split; [exact R|]. right; left.
      split; [apply (valid_no_failing_rule u), V|].
      apply existsb_exists in E. split; [exact E|]. split; reflexivity.
    + eexists _, _. split; [exact R|]. right; right.
      split; [apply (valid_no_failing_rule u), V|].
      split; [apply existsb_false, E|].
      split; [reflexivity|]. split; [reflexivity|].
      eexists _, _. split; [reflexivity|].
      split; [reflexivity|]. split; [reflexivity|].
      split; [intros x Hx; apply next_rowid_fresh, Hx|].
      repeat split.
  - eexists _, _. split; [exact R|]. left.
    assert (F : exists m, In m (errors (Sql.validate u))).
    { unfold Sql.validate in V |- *; cbn [valid errors] in V |- *.
      destruct (check_name (Sql.name u) ++ check_email (Sql.email u)
                ++ Sql.check_age (Sql.age u)) as [|m l]; [discriminate|].
      exists m. now left. }
    split.
    + destruct F as [m Hm]. exists m. apply (validate_reports u), Hm.
    + split; [reflexivity|]. split; [reflexivity|].
      split; [|reflexivity].
      exists (errors (Sql.validate u)). split; [reflexivity|].
      intros m. apply (validate_reports u).
Qed.

(** The scenarios of the specification. *)
Example create_rejects_age_200 (w : Sql.World) :
  fst (Sql.create {| i_name := "Jo"; i_email := "jo@test.com";
                     i_password := None; i_age := Some (Int 200) |} w)
  = Return {| Sql.success := false; Sql.user := None;
              Sql.result_errors := Some [AGE_RANGE] |}.
Proof. vm_compute. reflexivity. Qed.

Example create_rejects_short_name (w : Sql.World) :
  fst (Sql.create {| i_name := " J "; i_email := "jo@test.com";
                     i_password := None; i_age := None |} w)
  = Return {| Sql.success := false; Sql.user := None;
              Sql.result_errors := Some [NAME_TOO_SHORT] |}.
Proof. vm_compute. reflexivity. Qed.

Example create_reports_all_failures (w : Sql.World) :
  fst (Sql.create {| i_name := ""; i_email := "nobody"; i_password := None;
                     i_age := Some (Int (-1)) |} w)
  = Return {| Sql.success := false; Sql.user := None;
              Sql.result_errors := Some [NAME_REQUIRED; EMAIL_INVALID; AGE_RANGE] |}.
Proof. vm_compute. reflexivity. Qed.

(* ================================================================== *)
(** ** The invariant of the table *)

Lemma distinct_map_inj {A B} (R : B -> B -> bool) (f : A -> B) (l : list A) :
  (forall a b, R a b = R b a) ->
  distinct R (map f l) = true ->
  forall x y, In x l -> In y l -> R (f x) (f y) = true -> x = y.
Proof.
  intros Rsym. induction l as [|a t IH]; simpl; [intros _ x y []|].
  rewrite andb_true_iff, negb_true_iff. intros [Ha Ht] x y Hx Hy Hxy.
  rewrite existsb_false in Ha.
  destruct Hx as [<-|Hx], Hy as [<-|Hy].
  - reflexivity.
  - rewrite Ha in Hxy; [discriminate|]. now apply in_map.
  - rewrite Rsym, Ha in Hxy; [discriminate|]. now apply in_map.
  - now apply IH.
Qed.

Lemma filter_none {A} (p : A -> bool) (l : list A) :
  (forall x, In x l -> p x = false) -> filter p l = [].
Proof.
  induction l as [|a t IH]; [reflexivity|]. intros H. simpl.
  rewrite (H a (or_introl eq_refl)). apply IH. intros x Hx. apply H. now right.
Qed.

Lemma filter_unique {A B} (R : B -> B -> bool) (f : A -> B) (p : A -> bool)
    (l : list A) (r : A) :
  distinct R (map f l) = true -> In r l -> p r = true ->
  (forall x, In x l -> p x = true ->
             R (f x) (f r) = true /\ R (f r) (f x) = true) ->
  filter p l = [r].
Proof.
  induction l as [|a t IH]; [intros _ []|].
  simpl. rewrite andb_true_iff, negb_true_iff. intros [Ha Ht] Hr Pr U.
  rewrite existsb_false in Ha.
  destruct Hr as [->|Hr].
  - rewrite Pr. f_equal. apply filter_none. intros x Hx.
    destruct (p x) eqn:Px; [|reflexivity].
    destruct (U x (or_intror Hx) Px) as [_ H].
    rewrite Ha in H; [discriminate|now apply in_map].
  - destruct (p a) eqn:Pa.
    + destruct (U a (or_introl eq_refl) Pa) as [H _].
      rewrite Ha in H; [discriminate|now apply in_map].
    + apply IH; auto.
Qed.

Lemma eq_int_same (n : number) (a b : Z) :
  eq_int n a = true -> eq_int n b = true -> a = b.
Proof.
  destruct n as [| |q]; try discriminate. unfold eq_int.
  intros Ha Hb. apply Qeq_bool_iff in Ha, Hb. rewrite Ha in Hb.
  unfold Qeq, inject_Z in Hb; simpl in Hb. lia.
Qed.

Section WellFormed.
Variable d : Sql.Database.
Hypothesis WF : well_formed d = true.

Lemma wf_positive (r : Sql.UserRow) : In r (Sql.users d) -> 0 < Sql.row_id r.
Proof.
  unfold well_formed in WF. rewrite !andb_true_iff in WF.
  destruct WF as [[[P _] _] _]. rewrite forallb_forall in P.
  intros H. apply Z.ltb_lt. now apply P.
Qed.

Lemma wf_same_id (x y : Sql.UserRow) :
  In x (Sql.users d) -> In y (Sql.users d) ->
  Sql.row_id x = Sql.row_id y -> x = y.
Proof.
  unfold well_formed in WF. rewrite !andb_true_iff in WF.
  destruct WF as [[[_ I] _] _]. intros Hx Hy E.
  apply (distinct_map_inj Z.eqb Sql.row_id (Sql.users d) Z.eqb_sym I x y Hx Hy).
  now apply Z.eqb_eq.
Qed.

Lemma wf_same_email (x y : Sql.UserRow) :
  In x (Sql.users d) -> In y (Sql.users d) ->
  same_email (Sql.row_email x) (Sql.row_email y) = true -> x = y.
Proof.
  unfold well_formed in WF. rewrite !andb_true_iff in WF.
  destruct WF as [[[_ _] E] _].
  apply (distinct_map_inj same_email Sql.row_email (Sql.users d) same_email_sym E).
Qed.

Lemma wf_password (r : Sql.UserRow) :
  In r (Sql.users d) -> Sql.or_null (Sql.row_password r) = Sql.row_password r.
Proof.
  unfold well_formed in WF. rewrite !andb_true_iff in WF.
  destruct WF as [_ P]. rewrite forallb_forall in P.
  intros H. specialize (P r H). unfold Sql.or_null.
  destruct (Sql.row_password r) as [s|]; [|reflexivity]. now rewrite P.
Qed.

(** A row found by its identifier is the only one with it. *)
Lemma select_by_id_unique (n : number) (r : Sql.UserRow) :
  In r (Sql.users d) -> eq_int n (Sql.row_id r) = true ->
  Sql.row_is_active r = 1 ->
  Sql.select_by_id n d = [r].
Proof.
  intros Hr Hn Ha. unfold Sql.select_by_id.
  unfold well_formed in WF. rewrite !andb_true_iff in WF.
  destruct WF as [[[_ I] _] _].
  apply (filter_unique Z.eqb Sql.row_id _ _ _ I Hr).
  - rewrite Hn, Ha. reflexivity.
  - intros x _ Hp. apply andb_true_iff in Hp. destruct Hp as [Hp _].
    assert (E : Sql.row_id x = Sql.row_id r) by (eapply eq_int_same; eauto).
    rewrite E, Z.eqb_refl. auto.
Qed.

End WellFormed.

(* ================================================================== *)
(** ** C7: [create] followed by [findById] *)

Lemma select_new_row (d : Sql.Database) (row : Sql.UserRow) :
  Sql.row_id row = Sql.next_rowid d -> Sql.row_is_active row = 1 ->
  Sql.select_by_id (Int (Sql.next_rowid d)) (inserted row d) = [row].
Proof.
  intros Hi Ha. rewrite <- Hi. unfold Sql.select_by_id, inserted; cbn [Sql.users].
  rewrite filter_app. rewrite filter_none.
  - cbn [filter app]. now rewrite eq_int_Int, Z.eqb_refl, Ha.
  - intros x Hx. rewrite eq_int_Int. apply next_rowid_fresh in Hx.
    apply andb_false_iff. left. apply Z.eqb_neq. lia.
Qed.

Lemma stored_number_same (a : option number) :
  a <> Some NaN -> Sql.stored_number a = a.
Proof. destruct a as [[| |q]|]; intros H; [congruence|reflexivity..]. Qed.

Lemma stored_number_idem (a : option number) :
  Sql.stored_number (Sql.stored_number a) = Sql.stored_number a.
Proof. now destruct a as [[| |q]|]. Qed.

Lemma stored_number_kept (a : option number) :
  is_number a = true -> Sql.stored_number a = a.
Proof. now destruct a as [[| |q]|]. Qed.

Lemma truthy_is_number (x : option number) :
  match x with Some a => truthy a | None => true end = true ->
  is_number x = true.
Proof. now destruct x as [[| |q]|]. Qed.

Lemma read_back_same (p : UserPublic) :
  p_age p <> Some NaN -> read_back p = p.
Proof.
  intros H. unfold read_back. rewrite (stored_number_same _ H). now destruct p.
Qed.

(** What [findById] returns after a successful [create]: the created
    record as the table gives it back. *)
Lemma create_read_back (d : UserCreateInput) (w w' : Sql.World)
    (r : Sql.CreateUserResult) :
  Sql.create d w = (Return r, w') ->
  Sql.success r = true ->
  exists (u : Sql.User) (i : Z) (found : Sql.User),
    Sql.user r = Some u /\ Sql.id u = Some i /\ Sql.age u = i_age d /\
    Sql.findById (Int i) w' = (Return (Some found), w') /\
    Sql.toPublicJSON found = read_back (Sql.toPublicJSON u).
Proof.
  intros H S. rewrite create_run in H. cbv zeta in H.
  destruct (negb (valid (Sql.validate _))).
  { injection H as <- _. discriminate. }
  destruct (existsb _ _).
  { injection H as <- _. discriminate. }
  injection H as <- <-. cbn [Sql.user].
  eexists _, _, _. split; [reflexivity|]. split; [reflexivity|].
  split; [reflexivity|].
  rewrite findById_run. cbn [Sql.db with_db].
  match goal with
  | |- context [inserted ?row ?db] =>
      rewrite (select_new_row db row eq_refl eq_refl)
  end.
  split; reflexivity.
Qed.

(** C7: for an input whose age, when present, is a number, after a
    successful [create], [findById] on the identifier of the returned
    record finds a record whose public view (identifier, name, email,
    age, active flag, both timestamps) is that of the returned record. *)
Theorem create_then_findById (d : UserCreateInput) (w w' : Sql.World)
    (r : Sql.CreateUserResult) :
  i_age d <> Some NaN ->
  Sql.create d w = (Return r, w') ->
  Sql.success r = true ->
  exists (u : Sql.User) (i : Z) (found : Sql.User),
    Sql.user r = Some u /\ Sql.id u = Some i /\
    Sql.findById (Int i) w' = (Return (Some found), w') /\
    Sql.toPublicJSON found = Sql.toPublicJSON u.
Proof.
  intros N H S.
  destruct (create_read_back d w w' r H S) as (u & i & found & U & I & A & F & P).
  exists u, i, found. split; [exact U|]. split; [exact I|]. split; [exact F|].
  rewrite P. apply read_back_same. cbn [Sql.toPublicJSON p_age]. now rewrite A.
Qed.

Lemma create_then_findById_witness :
  exists (u : Sql.User) (i : Z) (found : Sql.User),
    Sql.user {| Sql.success := true;
                Sql.user := Some {| Sql.id := Some 1; Sql.name := "Ana Silva";
                                    Sql.email := "ana@test.com";
                                    Sql.password := Some "segredo";
                                    Sql.age := Some (Int 30);
                                    Sql.is_active := true;
                                    Sql.created_at := 1000;
                                    Sql.updated_at := 1002 |};
                Sql.result_errors := None |} = Some u /\
    Sql.id u = Some i /\
    Sql.findById (Int i) world_ana = (Return (Some found), world_ana) /\
    Sql.toPublicJSON found = Sql.toPublicJSON u.
Proof.
  apply (create_then_findById ana fresh_world world_ana);
    [discriminate|vm_compute; reflexivity..].
Defined.

(** An age that is no number is let through by [validate] and comes
    back from the table as no age. *)
Example create_then_findById_NaN :
  exists (u found : Sql.User) (w' : Sql.World),
    Sql.create ageless fresh_world
    = (Return {| Sql.success := true; Sql.user := Some u;
                 Sql.result_errors := None |}, w') /\
    Sql.findById (Int 1) w' = (Return (Some found), w') /\
    Sql.age u = Some NaN /\ Sql.age found = None.
Proof. eexists _, _, _. repeat split; vm_compute; reflexivity. Qed.

(* ================================================================== *)
(** ** C4: [delete] *)

Lemma sample_rows :
  Sql.users (Sql.db world_ana_bob) = [ana_row; bob_row].
Proof. vm_compute. reflexivity. Qed.

Lemma sample_rows_deleted :
  Sql.users (Sql.db world_bob_deleted) = [ana_row; soft_deleted 1006 bob_row].
Proof. vm_compute. reflexivity. Qed.

Lemma sample_well_formed :
  well_formed (Sql.db world_ana) = true /\
  well_formed (Sql.db world_ana_bob) = true /\
  well_formed (Sql.db world_bob_deleted) = true.
Proof. repeat split; vm_compute; reflexivity. Qed.

Lemma ana_row_stored : In ana_row (Sql.users (Sql.db world_ana_bob)).
Proof. rewrite sample_rows. now left. Qed.

Lemma bob_row_stored : In bob_row (Sql.users (Sql.db world_ana_bob)).
Proof. rewrite sample_rows. right. now left. Qed.

(** No other row holds the email of a row of a well-formed table. *)
Lemma own_email_free (d : Sql.Database) (r : Sql.UserRow) :
  well_formed d = true -> In r (Sql.users d) ->
  existsb (fun x => negb (Sql.row_id x =? Sql.row_id r)
                    && String.eqb (Sql.row_email x) (Sql.row_email r))
          (Sql.users d) = false.
Proof.
  intros WF Hr. apply existsb_false. intros x Hx.
  destruct (String.eqb (Sql.row_email x) (Sql.row_email r)) eqn:E;
    [|apply andb_false_r].
  apply eqb_same_email in E.
  rewrite (wf_same_email d WF x r Hx Hr E), Z.eqb_refl. reflexivity.
Qed.

Lemma map_rows_ext (d : Sql.Database) (f g : Sql.UserRow -> Sql.UserRow) :
  (forall x, In x (Sql.users d) -> f x = g x) ->
  map f (Sql.users d) = map g (Sql.users d).
Proof. apply map_ext_in. Qed.

(** An identifier either names an active row or it does not. *)
Lemma active_row_or_none (n : number) (d : Sql.Database) :
  (exists r, In r (Sql.users d) /\ eq_int n (Sql.row_id r) = true /\
             Sql.row_is_active r = 1) \/
  (forall r, In r (Sql.users d) -> eq_int n (Sql.row_id r) = true ->
             Sql.row_is_active r <> 1).
Proof.
  destruct (existsb (fun r => eq_int n (Sql.row_id r) && (Sql.row_is_active r =? 1))
                    (Sql.users d)) eqn:E.
  - left. apply existsb_exists in E. destruct E as (r & Hr & Hp).
    apply andb_true_iff in Hp. destruct Hp as [Hn Ha].
    exists r. split; [exact Hr|]. split; [exact Hn|now apply Z.eqb_eq].
  - right. intros r Hr Hn Ha. rewrite existsb_false in E.
    specialize (E r Hr). rewrite Hn, Ha in E. discriminate.
Qed.

Lemma delete_found (n : number) (w : Sql.World) (r : Sql.UserRow) :
  well_formed (Sql.db w) = true ->
  In r (Sql.users (Sql.db w)) -> eq_int n (Sql.row_id r) = true ->
  Sql.row_is_active r = 1 ->
  Sql.delete n w =
  (Return true,
   with_db (soft_delete_db (Sql.row_id r) (Sql.clock w (Sql.ticks w)) (Sql.db w))
           (later 1 w)).
Proof.
  intros WF Hr Hn Ha. unfold Sql.delete, bind at 1.
  rewrite findById_run, (select_by_id_unique _ WF n r Hr Hn Ha).
  cbn [hd_error option_map]. unfold bind at 1.
  rewrite (save_update_run _ w (Sql.row_id r)).
  - cbv zeta. cbn [Sql.with_is_active user_of_row]. unfold ret. f_equal.
    unfold with_db. f_equal. unfold updated, soft_delete_db. f_equal.
    apply map_rows_ext. intros x Hx.
    destruct (Sql.row_id x =? Sql.row_id r) eqn:E; [|reflexivity].
    apply Z.eqb_eq in E.
    rewrite (wf_same_id _ WF x r Hx Hr E).
    unfold row_of_user, soft_deleted, Sql.with_updated_at, Sql.with_is_active.
    cbn. now rewrite (wf_password _ WF r Hr).
  - cbn [Sql.with_is_active user_of_row Sql.id Sql.truthy_id].
    pose proof (wf_positive _ WF r Hr) as P.
    destruct (Sql.row_id r =? 0) eqn:E; [apply Z.eqb_eq in E; lia|reflexivity].
  - cbn [Sql.with_is_active user_of_row Sql.email].
    rewrite (own_email_free _ r WF Hr). apply andb_false_r.
Qed.

Lemma delete_not_found (n : number) (w : Sql.World) :
  (forall r, In r (Sql.users (Sql.db w)) -> eq_int n (Sql.row_id r) = true ->
             Sql.row_is_active r <> 1) ->
  Sql.delete n w = (Return false, w).
Proof.
  intros H. unfold Sql.delete, bind at 1. rewrite findById_run.
  unfold Sql.select_by_id. rewrite filter_none; [reflexivity|].
  intros x Hx. destruct (eq_int n (Sql.row_id x)) eqn:E; [|reflexivity].
  specialize (H x Hx E). simpl. apply Z.eqb_neq, H.
Qed.

(** C4: on a well-formed table, [delete] of an identifier that an active
    row carries returns true, clears the active flag of that row, sets
    its [updated_at] to the current reading of the clock and leaves every
    other row and column as it was; a second [delete] of the same
    identifier returns false and changes nothing at all.  [delete] of an
    identifier no active row carries returns false and changes nothing. *)
Theorem delete_soft_deletes (n : number) (w : Sql.World) :
  well_formed (Sql.db w) = true ->
  (forall r : Sql.UserRow,
     In r (Sql.users (Sql.db w)) -> eq_int n (Sql.row_id r) = true ->
     Sql.row_is_active r = 1 ->
     exists w1 : Sql.World,
       Sql.delete n w = (Return true, w1) /\
       Sql.db w1 = soft_delete_db (Sql.row_id r) (Sql.clock w (Sql.ticks w))
                                  (Sql.db w) /\
       Sql.delete n w1 = (Return false, w1)) /\
  ((forall r : Sql.UserRow,
      In r (Sql.users (Sql.db w)) -> eq_int n (Sql.row_id r) = true ->
      Sql.row_is_active r <> 1) ->
   Sql.delete n w = (Return false, w)).
Proof.
  intros WF. split; [|apply delete_not_found].
  intros r Hr Hn Ha. eexists. split; [apply (delete_found n w r WF Hr Hn Ha)|].
  split; [reflexivity|].
  apply delete_not_found. cbn [with_db Sql.db soft_delete_db Sql.users].
  intros x Hx Ex. apply in_map_iff in Hx. destruct Hx as (y & <- & Hy).
  destruct (Sql.row_id y =? Sql.row_id r) eqn:E.
  - cbn. discriminate.
  - rewrite (eq_int_same n _ _ Ex Hn), Z.eqb_refl in E. discriminate.
Qed.

Lemma delete_soft_deletes_witness :
  well_formed (Sql.db world_ana_bob) = true /\
  exists w1 : Sql.World,
    Sql.delete (Int 2) world_ana_bob = (Return true, w1) /\
    Sql.db w1 = soft_delete_db 2 1006 (Sql.db world_ana_bob) /\
    Sql.delete (Int 2) w1 = (Return false, w1).
Proof.
  split; [apply sample_well_formed|].
  apply (proj1 (delete_soft_deletes (Int 2) world_ana_bob
                  (proj1 (proj2 sample_well_formed))) bob_row).
  - apply bob_row_stored.
  - vm_compute. reflexivity.
  - reflexivity.
Defined.

(* ================================================================== *)
(** ** C2: the lookups by email and by identifier *)

Lemma hd_error_filter {A} (p : A -> bool) (l : list A) :
  (exists x, hd_error (filter p l) = Some x) <-> (exists x, In x l /\ p x = true).
Proof.
  split.
  - intros [x H]. exists x. apply filter_In.
    destruct (filter p l) as [|y t] eqn:E; [discriminate|].
    simpl in H. injection H as ->. now left.
  - intros (x & Hx & Px).
    assert (F : In x (filter p l)) by (apply filter_In; auto).
    destruct (filter p l) as [|y t]; [destruct F|]. now exists y.
Qed.

Lemma hd_error_filter_In {A} (p : A -> bool) (l : list A) (x : A) :
  hd_error (filter p l) = Some x -> In x l /\ p x = true.
Proof.
  intros H. apply filter_In.
  destruct (filter p l) as [|y t] eqn:E; [discriminate|].
  simpl in H. injection H as ->. now left.
Qed.

Lemma same_email_trans (a b c : string) :
  same_email a b = true -> same_email b c = true -> same_email a c = true.
Proof.
  unfold same_email. rewrite !String.eqb_eq. congruence.
Qed.

(** C2, as stated, fails on letters outside ASCII: the one row, active,
    holds the email of Eva with a capital E with acute accent, which is
    the argument up to case (as [toLowerCase] folds it), and yet
    [emailExists] answers false and [findByEmail] finds nothing. *)
Lemma email_lookups_miss_accented_case :
  (exists r, In r (Sql.users (Sql.db world_eva)) /\ Sql.row_is_active r = 1 /\
             JsString.toLowerCase (Sql.row_email r)
             = JsString.toLowerCase e_acute_small) /\
  Sql.emailExists e_acute_small world_eva = (Return false, world_eva) /\
  Sql.findByEmail e_acute_small world_eva = (Return None, world_eva).
Proof.
  split; [|split; vm_compute; reflexivity].
  eexists. split; [vm_compute; left; reflexivity|].
  split; vm_compute; reflexivity.
Qed.

(** C2, amended: [emailExists] answers true exactly when some row,
    active or not, has the email up to the case of the ASCII letters,
    which are all that [LOWER] folds; [findByEmail] and [findById] return a
    record exactly when an active row matches, and that record is built
    from such a row; [findAll] returns the active rows.  So on a
    well-formed table, once the active row with email [e] is deleted,
    [emailExists e] is still true while [findByEmail e] finds nothing. *)
Theorem email_lookups (e : string) (w : Sql.World) :
  (exists b : bool,
     Sql.emailExists e w = (Return b, w) /\
     (b = true <->
      exists r, In r (Sql.users (Sql.db w)) /\
                same_email (Sql.row_email r) e = true)) /\
  (exists o : option Sql.User,
     Sql.findByEmail e w = (Return o, w) /\
     ((exists u, o = Some u) <->
      exists r, In r (Sql.users (Sql.db w)) /\ Sql.row_is_active r = 1 /\
                same_email (Sql.row_email r) e = true) /\
     (forall u, o = Some u ->
        exists r, In r (Sql.users (Sql.db w)) /\ Sql.row_is_active r = 1 /\
                  same_email (Sql.row_email r) e = true /\ u = user_of_row r)) /\
  (forall n : number,
     exists o : option Sql.User,
       Sql.findById n w = (Return o, w) /\
       ((exists u, o = Some u) <->
        exists r, In r (Sql.users (Sql.db w)) /\ Sql.row_is_active r = 1 /\
                  eq_int n (Sql.row_id r) = true) /\
       (forall u, o = Some u ->
          exists r, In r (Sql.users (Sql.db w)) /\ Sql.row_is_active r = 1 /\
                    eq_int n (Sql.row_id r) = true /\ u = user_of_row r)) /\
  Sql.findAll w =
    (Return (map user_of_row
               (filter (fun r => Sql.row_is_active r =? 1) (Sql.users (Sql.db w)))),
     w) /\
  (well_formed (Sql.db w) = true ->
   forall r : Sql.UserRow,
     In r (Sql.users (Sql.db w)) -> Sql.row_is_active r = 1 ->
     same_email (Sql.row_email r) e = true ->
     exists w1 : Sql.World,
       Sql.delete (Int (Sql.row_id r)) w = (Return true, w1) /\
       Sql.emailExists e w1 = (Return true, w1) /\
       Sql.findByEmail e w1 = (Return None, w1)).
Proof.
  split; [|split; [|split; [|split]]].
  - eexists. split; [apply emailExists_run|]. apply existsb_exists.
  - eexists. split; [apply findByEmail_run|]. split.
    + split.
      * intros [u H].
        destruct (hd_error (Sql.select_by_email e (Sql.db w))) as [r|] eqn:E;
          [|discriminate].
        apply hd_error_filter_In in E. destruct E as [Hr Hp].
        apply andb_true_iff in Hp. destruct Hp as [Hp Ha].
        exists r. split; [exact Hr|]. split; [now apply Z.eqb_eq|exact Hp].
      * intros (r & Hr & Ha & He).
        assert (X : exists x, hd_error (Sql.select_by_email e (Sql.db w)) = Some x).
        { apply hd_error_filter. exists r. split; [exact Hr|].
          fold (same_email (Sql.row_email r) e). rewrite He, Ha. reflexivity. }
        destruct X as [x ->]. eexists. reflexivity.
    + intros u H.
      destruct (hd_error (Sql.select_by_email e (Sql.db w))) as [r|] eqn:E;
        [|discriminate].
      injection H as <-.
      apply hd_error_filter_In in E. destruct E as [Hr Hp].
      apply andb_true_iff in Hp. destruct Hp as [Hp Ha].
      exists r. split; [exact Hr|]. split; [now apply Z.eqb_eq|]. split; [exact Hp|reflexivity].
  - intros n. eexists. split; [apply findById_run|]. split.
    + split.
      * intros [u H].
        destruct (hd_error (Sql.select_by_id n (Sql.db w))) as [r|] eqn:E;
          [|discriminate].
        apply hd_error_filter_In in E. destruct E as [Hr Hp].
        apply andb_true_iff in Hp. destruct Hp as [Hp Ha].
        exists r. split; [exact Hr|]. split; [now apply Z.eqb_eq|exact Hp].
      * intros (r & Hr & Ha & He).
        assert (X : exists x, hd_error (Sql.select_by_id n (Sql.db w)) = Some x).
        { apply hd_error_filter. exists r. split; [exact Hr|].
          rewrite He, Ha. reflexivity. }
        destruct X as [x ->]. eexists. reflexivity.
    + intros u H.
      destruct (hd_error (Sql.select_by_id n (Sql.db w))) as [r|] eqn:E;
        [|discriminate].
      injection H as <-.
      apply hd_error_filter_In in E. destruct E as [Hr Hp].
      apply andb_true_iff in Hp. destruct Hp as [Hp Ha].
      exists r. split; [exact Hr|]. split; [now apply Z.eqb_eq|]. split; [exact Hp|reflexivity].
  - apply findAll_run.
  - intros WF r Hr Ha He. eexists. split.
    + apply (delete_found _ w r WF Hr); [|exact Ha].
      rewrite eq_int_Int. apply Z.eqb_refl.
    + split.
      * rewrite emailExists_run. f_equal. f_equal.
        apply existsb_exists. exists (soft_deleted (Sql.clock w (Sql.ticks w)) r).
        split; [|exact He].
        cbn [with_db Sql.db soft_delete_db Sql.users]. apply in_map_iff.
        exists r. now rewrite Z.eqb_refl.
      * rewrite findByEmail_run. unfold Sql.select_by_email.
        rewrite filter_none; [reflexivity|].
        cbn [with_db Sql.db soft_delete_db Sql.users].
        intros x Hx. apply in_map_iff in Hx. destruct Hx as (y & <- & Hy).
        destruct (Sql.row_id y =? Sql.row_id r) eqn:E; [apply andb_false_r|].
        fold (same_email (Sql.row_email y) e).
        destruct (same_email (Sql.row_email y) e) eqn:Ey; [|reflexivity].
        exfalso. rewrite same_email_sym in He.
        pose proof (same_email_trans _ _ _ Ey He) as Hyr.
        rewrite (wf_same_email _ WF y r Hy Hr Hyr), Z.eqb_refl in E. discriminate.
Qed.

Lemma email_lookups_witness :
  well_formed (Sql.db world_ana_bob) = true /\
  exists w1 : Sql.World,
    Sql.delete (Int 2) world_ana_bob = (Return true, w1) /\
    Sql.emailExists "BOB@test.com" w1 = (Return true, w1) /\
    Sql.findByEmail "BOB@test.com" w1 = (Return None, w1).
Proof.
  split; [apply sample_well_formed|].
  apply (proj2 (proj2 (proj2 (proj2
           (email_lookups "BOB@test.com" world_ana_bob))))
           (proj1 (proj2 sample_well_formed)) bob_row).
  - apply bob_row_stored.
  - reflexivity.
  - vm_compute. reflexivity.
Defined.

(* ================================================================== *)
(** ** Running the controller's [update] *)

Lemma email_taken_run (r : Sql.UserRow) (b : Controller.UpdateBody)
    (w : Sql.World) :
  Controller.email_taken (user_of_row r) b w = (Return (taken r b (Sql.db w)), w).
Proof.
  unfold Controller.email_taken, taken.
  destruct (Controller.truthy_text (Controller.b_email b)) as [e|]; [|reflexivity].
  cbn [user_of_row Sql.email].
  destruct (String.eqb e (Sql.row_email r)); [reflexivity|].
  cbn [negb andb]. apply emailExists_run.
Qed.

Lemma apply_fields_frame (u : Sql.User) (b : Controller.UpdateBody) :
  Sql.id (Controller.apply_fields u b) = Sql.id u /\
  Sql.password (Controller.apply_fields u b) = Sql.password u /\
  Sql.is_active (Controller.apply_fields u b) = Sql.is_active u /\
  Sql.created_at (Controller.apply_fields u b) = Sql.created_at u.
Proof.
  unfold Controller.apply_fields.
  destruct (Controller.truthy_text (Controller.b_name b)),
           (Controller.truthy_text (Controller.b_email b)),
           (Controller.b_age b); repeat split.
Qed.

Lemma apply_fields_values (u : Sql.User) (b : Controller.UpdateBody) :
  Sql.name (Controller.apply_fields u b)
    = match Controller.truthy_text (Controller.b_name b) with
      | Some n => n | None => Sql.name u end /\
  Sql.email (Controller.apply_fields u b)
    = match Controller.truthy_text (Controller.b_email b) with
      | Some e => e | None => Sql.email u end /\
  Sql.age (Controller.apply_fields u b)
    = match Controller.b_age b with
      | Controller.JUndefined => Sql.age u
      | a => Some (Controller.parseInt_value a) end.
Proof.
  unfold Controller.apply_fields.
  destruct (Controller.truthy_text (Controller.b_name b)),
           (Controller.truthy_text (Controller.b_email b)),
           (Controller.b_age b); repeat split.
Qed.

(** The handler on a well-formed table, for the identifier of an active
    row: it never throws, and does one of three things. *)
Lemma update_run (id : string) (b : Controller.UpdateBody) (w : Sql.World)
    (r : Sql.UserRow) :
  well_formed (Sql.db w) = true ->
  In r (Sql.users (Sql.db w)) ->
  eq_int (ParseInt.parseInt id) (Sql.row_id r) = true ->
  Sql.row_is_active r = 1 ->
  let u := Controller.apply_fields (user_of_row r) b in
  let t := Sql.clock w (Sql.ticks w) in
  Controller.update id b w =
  if taken r b (Sql.db w) then (Return conflict, w)
  else if negb (valid (Sql.validate u))
       then (Return {| Controller.status := 400;
                       Controller.body :=
                         Controller.Failure
                           (String.concat ", " (errors (Sql.validate u)))
                           (Some (errors (Sql.validate u))) |}, w)
       else (Return {| Controller.status := 200;
                       Controller.body :=
                         Controller.Success Controller.USER_UPDATED
                           (Sql.toPublicJSON (Sql.with_updated_at u t)) |},
             with_db (update_db (Sql.row_id r) b t (Sql.db w)) (later 1 w)).
Proof.
  intros WF Hr Hn Ha u t.
  unfold Controller.update, try_catch, bind at 1.
  rewrite findById_run, (select_by_id_unique _ WF _ r Hr Hn Ha).
  cbn [hd_error option_map]. unfold bind at 1. rewrite email_taken_run.
  destruct (taken r b (Sql.db w)) eqn:T; [reflexivity|].
  fold u. destruct (negb (valid (Sql.validate u))); [reflexivity|].
  destruct (apply_fields_frame (user_of_row r) b) as (Fi & Fp & Fa & Fc).
  destruct (apply_fields_values (user_of_row r) b) as (Vn & Ve & Va).
  fold u in Fi, Fp, Fa, Fc, Vn, Ve, Va.
  cbn [user_of_row Sql.id Sql.password Sql.is_active Sql.created_at
       Sql.name Sql.email Sql.age] in Fi, Fp, Fa, Fc, Vn, Ve, Va.
  unfold bind at 1. rewrite (save_update_run u w (Sql.row_id r)).
  - cbv zeta. fold t. unfold ret. f_equal. unfold with_db. f_equal.
    unfold updated, update_db. f_equal. apply map_rows_ext. intros x Hx.
    destruct (Sql.row_id x =? Sql.row_id r) eqn:E; [|reflexivity].
    apply Z.eqb_eq in E. rewrite (wf_same_id _ WF x r Hx Hr E).
    unfold row_of_user, merged_row.
    cbn [Sql.with_updated_at Sql.name Sql.email Sql.password Sql.age
         Sql.is_active Sql.updated_at].
    rewrite Vn, Ve, Va, Fp, Fa, Ha, (wf_password _ WF r Hr). reflexivity.
  - rewrite Fi. cbn [Sql.truthy_id].
    pose proof (wf_positive _ WF r Hr) as P.
    destruct (Sql.row_id r =? 0) eqn:E; [apply Z.eqb_eq in E; lia|reflexivity].
  - apply andb_false_iff. right. rewrite Ve. unfold taken in T.
    destruct (Controller.truthy_text (Controller.b_email b)) as [e|].
    + destruct (String.eqb e (Sql.row_email r)) eqn:Ee.
      * apply String.eqb_eq in Ee. subst e. apply (own_email_free _ r WF Hr).
      * cbn [negb andb] in T. apply existsb_false. intros x Hx.
        rewrite existsb_false in T. specialize (T x Hx).
        destruct (String.eqb (Sql.row_email x) e) eqn:Ex; [|apply andb_false_r].
        apply eqb_same_email in Ex. congruence.
    + apply (own_email_free _ r WF Hr).
Qed.

Lemma update_not_found (id : string) (b : Controller.UpdateBody) (w : Sql.World) :
  (forall r, In r (Sql.users (Sql.db w)) ->
             eq_int (ParseInt.parseInt id) (Sql.row_id r) = true ->
             Sql.row_is_active r <> 1) ->
  Controller.update id b w =
  (Return {| Controller.status := 404;
             Controller.body := Controller.Failure Controller.USER_NOT_FOUND None |},
   w).
Proof.
  intros H. unfold Controller.update, try_catch, bind at 1.
  rewrite findById_run. unfold Sql.select_by_id. rewrite filter_none; [reflexivity|].
  intros x Hx. destruct (eq_int (ParseInt.parseInt id) (Sql.row_id x)) eqn:E;
    [|reflexivity].
  specialize (H x Hx E). simpl. apply Z.eqb_neq, H.
Qed.

(* ================================================================== *)
(** ** C1: the email conflict of [update] *)

(** C1, as stated, fails: Ana is active, Bob is soft-deleted, and giving
    Ana the email of Bob is answered with the conflict although no other
    active record has that email. *)
Lemma update_conflict_with_deleted :
  Controller.update "1" (only_email "bob@test.com") world_bob_deleted
    = (Return conflict, world_bob_deleted) /\
  ~ (exists x, In x (Sql.users (Sql.db world_bob_deleted)) /\
               Sql.row_id x <> 1 /\ Sql.row_is_active x = 1 /\
               same_email (Sql.row_email x) "bob@test.com" = true).
Proof.
  split; [vm_compute; reflexivity|].
  rewrite sample_rows_deleted.
  intros (x & Hx & Hi & Ha & _).
  destruct Hx as [<-|[<-|[]]]; [apply Hi; reflexivity|discriminate Ha].
Qed.

(** The email of the record itself in another case is refused too. *)
Example update_conflict_with_own_email :
  Controller.update "1" (only_email "ANA@test.com") world_ana
    = (Return conflict, world_ana).
Proof. vm_compute. reflexivity. Qed.

(** A variant in a letter outside ASCII of the email of another record
    is accepted: [LOWER] leaves such letters alone. *)
Example update_accepts_accented_variant :
  exists (p : UserPublic) (w' : Sql.World),
    Controller.update "2" (only_email e_acute_small) world_eva_bob
    = (Return {| Controller.status := 200;
                 Controller.body := Controller.Success Controller.USER_UPDATED p |},
       w') /\
    map Sql.row_email (Sql.users (Sql.db w')) = [e_acute_capital; e_acute_small].
Proof. eexists _, _. split; vm_compute; reflexivity. Qed.

(** C1, amended: on a well-formed table, for the identifier of an active
    row and a body whose email is a non-empty string that differs from
    the stored email by more than the case of its ASCII letters,
    [update] answers with the conflict "Este email ja esta cadastrado"
    exactly when another row, active or soft-deleted, has that email up
    to the case of the ASCII letters, which are all that [LOWER] folds;
    and with that answer nothing is written. *)
Theorem update_email_conflict (id e : string) (b : Controller.UpdateBody)
    (w : Sql.World) (r : Sql.UserRow) :
  well_formed (Sql.db w) = true ->
  In r (Sql.users (Sql.db w)) ->
  eq_int (ParseInt.parseInt id) (Sql.row_id r) = true ->
  Sql.row_is_active r = 1 ->
  Controller.b_email b = Controller.TString e ->
  e <> "" ->
  same_email e (Sql.row_email r) = false ->
  (result_of (Controller.update id b) w = Return conflict <->
   exists x, In x (Sql.users (Sql.db w)) /\ Sql.row_id x <> Sql.row_id r /\
             same_email (Sql.row_email x) e = true) /\
  (result_of (Controller.update id b) w = Return conflict ->
   state_after (Controller.update id b) w = w).
Proof.
  intros WF Hr Hn Ha Hb He Hown. unfold result_of, state_after.
  rewrite (update_run id b w r WF Hr Hn Ha). cbv zeta.
  assert (T : taken r b (Sql.db w)
              = existsb (fun x => same_email (Sql.row_email x) e)
                        (Sql.users (Sql.db w))).
  { unfold taken. rewrite Hb. unfold Controller.truthy_text.
    destruct e as [|c e']; [congruence|]. cbn [JsString.truthy JsString.is_empty negb].
    destruct (String.eqb (String c e') (Sql.row_email r)) eqn:E; [|reflexivity].
    apply eqb_same_email in E. congruence. }
  rewrite T.
  destruct (existsb (fun x => same_email (Sql.row_email x) e)
                    (Sql.users (Sql.db w))) eqn:X.
  - split; [|reflexivity]. split; [intros _|reflexivity].
    apply existsb_exists in X. destruct X as (x & Hx & Ex).
    exists x. split; [exact Hx|]. split; [|exact Ex].
    intros Hi. rewrite (wf_same_id _ WF x r Hx Hr Hi) in Ex.
    rewrite same_email_sym in Ex. congruence.
  - assert (N : ~ exists x, In x (Sql.users (Sql.db w)) /\
                            Sql.row_id x <> Sql.row_id r /\
                            same_email (Sql.row_email x) e = true).
    { intros (x & Hx & _ & Ex). rewrite existsb_false in X.
      rewrite (X x Hx) in Ex. discriminate. }
    destruct (negb (valid (Sql.validate _))); cbn [fst snd].
    + split; [split; [discriminate|contradiction]|discriminate].
    + split; [split; [discriminate|contradiction]|discriminate].
Qed.

Lemma update_email_conflict_witness :
  result_of (Controller.update "1" (only_email "Bob@Test.com")) world_ana_bob
    = Return conflict /\
  state_after (Controller.update "1" (only_email "Bob@Test.com")) world_ana_bob
    = world_ana_bob.
Proof.
  assert (H := update_email_conflict "1" "Bob@Test.com"
                 (only_email "Bob@Test.com") world_ana_bob ana_row
                 (proj1 (proj2 sample_well_formed)) ana_row_stored
                 ltac:(vm_compute; reflexivity) eq_refl eq_refl
                 ltac:(discriminate) ltac:(vm_compute; reflexivity)).
  destruct H as [[_ H1] H2].
  assert (C : result_of (Controller.update "1" (only_email "Bob@Test.com"))
                        world_ana_bob = Return conflict).
  { apply H1. exists bob_row. split; [apply bob_row_stored|].
    split; [discriminate|vm_compute; reflexivity]. }
  split; [exact C|exact (H2 C)].
Defined.

(* ================================================================== *)
(** ** C10: which fields [update] applies *)

Lemma falsy_name_absent (id : string) (b : Controller.UpdateBody) (w : Sql.World) :
  Controller.truthy_text (Controller.b_name b) = None ->
  Controller.update id b w = Controller.update id (without_name b) w.
Proof.
  intros H. unfold Controller.update, Controller.apply_fields,
    Controller.email_taken, without_name.
  cbn [Controller.b_name Controller.b_email Controller.b_age Controller.truthy_text].
  rewrite H. reflexivity.
Qed.

Lemma falsy_email_absent (id : string) (b : Controller.UpdateBody) (w : Sql.World) :
  Controller.truthy_text (Controller.b_email b) = None ->
  Controller.update id b w = Controller.update id (without_email b) w.
Proof.
  intros H. unfold Controller.update, Controller.apply_fields,
    Controller.email_taken, without_email.
  cbn [Controller.b_name Controller.b_email Controller.b_age Controller.truthy_text].
  rewrite H. reflexivity.
Qed.

Lemma parseInt_null : Controller.parseInt_value Controller.JNull = NaN.
Proof. reflexivity. Qed.

(** C10, as stated, fails: [age: null] on the row of Ana is answered
    200 with the age NaN, and the update is written, but NaN is not what
    is persisted: the row holds no age, and that is what [findById]
    returns. *)
Lemma update_null_age_not_persisted :
  exists (p : UserPublic) (w' : Sql.World) (found : Sql.User),
    Controller.update "1" blank_body world_ana
    = (Return {| Controller.status := 200;
                 Controller.body := Controller.Success Controller.USER_UPDATED p |},
       w') /\
    p_age p = Some NaN /\
    map Sql.row_age (Sql.users (Sql.db w')) = [None] /\
    Sql.findById (Int 1) w' = (Return (Some found), w') /\
    Sql.age found = None /\ Sql.age found <> Some NaN.
Proof.
  eexists _, _, _. split; [vm_compute; reflexivity|].
  split; [reflexivity|]. split; [vm_compute; reflexivity|].
  split; [vm_compute; reflexivity|]. split; [reflexivity|discriminate].
Qed.

(** C10, amended: on a well-formed table, for the identifier of an
    active row.  A falsy name (undefined, null, the empty string) is as
    an absent one, and so is a falsy email: the handler does exactly
    what it does without the field.  The handler never throws; when it
    answers 200 the row has become [merged_row], which takes a truthy
    name, a truthy email and what the table keeps of the integer parse
    of any defined age from the body, the time from the clock, and every
    other column from the row as it was, while all other rows are
    untouched; with any other answer nothing is written.  In particular
    [age: null] parses to NaN, which passes the age rule: if the email
    is free and the name and email pass their rules the answer is 200
    and carries NaN as age, and the row is written with no age. *)
Theorem update_applies_fields (id : string) (b : Controller.UpdateBody)
    (w : Sql.World) (r : Sql.UserRow) :
  well_formed (Sql.db w) = true ->
  In r (Sql.users (Sql.db w)) ->
  eq_int (ParseInt.parseInt id) (Sql.row_id r) = true ->
  Sql.row_is_active r = 1 ->
  let t := Sql.clock w (Sql.ticks w) in
  (Controller.truthy_text (Controller.b_name b) = None ->
   Controller.update id b w = Controller.update id (without_name b) w /\
   Sql.row_name (merged_row b t r) = Sql.row_name r) /\
  (Controller.truthy_text (Controller.b_email b) = None ->
   Controller.update id b w = Controller.update id (without_email b) w /\
   Sql.row_email (merged_row b t r) = Sql.row_email r) /\
  (Controller.b_age b <> Controller.JUndefined ->
   Sql.row_age (merged_row b t r)
     = Sql.stored_number (Some (Controller.parseInt_value (Controller.b_age b)))) /\
  (Sql.row_id (merged_row b t r) = Sql.row_id r /\
   Sql.row_password (merged_row b t r) = Sql.row_password r /\
   Sql.row_is_active (merged_row b t r) = Sql.row_is_active r /\
   Sql.row_created_at (merged_row b t r) = Sql.row_created_at r) /\
  (exists (resp : Controller.Response) (w' : Sql.World),
     Controller.update id b w = (Return resp, w') /\
     (Controller.status resp = 200 ->
      Sql.users (Sql.db w')
        = map (fun x => if Sql.row_id x =? Sql.row_id r
                        then merged_row b t x else x) (Sql.users (Sql.db w))) /\
     (Controller.status resp <> 200 -> w' = w)) /\
  (Controller.b_age b = Controller.JNull ->
   taken r b (Sql.db w) = false ->
   check_name (Sql.row_name (merged_row b t r)) = [] ->
   check_email (Sql.row_email (merged_row b t r)) = [] ->
   exists p : UserPublic,
     Controller.update id b w =
       (Return {| Controller.status := 200;
                  Controller.body := Controller.Success Controller.USER_UPDATED p |},
        with_db (update_db (Sql.row_id r) b t (Sql.db w)) (later 1 w)) /\
     p_age p = Some NaN /\
     Sql.row_age (merged_row b t r) = None).
Proof.
  intros WF Hr Hn Ha t.
  pose proof (update_run id b w r WF Hr Hn Ha) as R. cbv zeta in R. fold t in R.
  split; [|split; [|split; [|split; [|split]]]].
  - intros H. split; [apply falsy_name_absent, H|].
    unfold merged_row; cbn [Sql.row_name]. now rewrite H.
  - intros H. split; [apply falsy_email_absent, H|].
    unfold merged_row; cbn [Sql.row_email]. now rewrite H.
  - intros H. unfold merged_row; cbn [Sql.row_age].
    destruct (Controller.b_age b); [congruence|reflexivity..].
  - repeat split.
  - destruct (taken r b (Sql.db w)).
    { eexists _, _. split; [exact R|]. split; [discriminate|reflexivity]. }
    destruct (negb (valid (Sql.validate _))).
    { eexists _, _. split; [exact R|]. split; [discriminate|reflexivity]. }
    eexists _, _. split; [exact R|]. split; [reflexivity|].
    cbn [Controller.status]. congruence.
  - intros Hage Ht Hname Hemail. rewrite Ht in R.
    destruct (apply_fields_values (user_of_row r) b) as (Vn & Ve & Va).
    cbn [user_of_row Sql.name Sql.email Sql.age] in Vn, Ve, Va.
    assert (V : valid (Sql.validate (Controller.apply_fields (user_of_row r) b))
                = true).
    { unfold Sql.validate. cbn [valid]. rewrite Vn, Ve, Va, Hage.
      unfold merged_row in Hname, Hemail. cbn [Sql.row_name Sql.row_email] in *.
      rewrite Hname, Hemail. reflexivity. }
    rewrite V in R. cbn [negb] in R.
    eexists. split; [exact R|]. split.
    + cbn [Sql.toPublicJSON p_age Sql.with_updated_at Sql.age].
      rewrite Va, Hage. reflexivity.
    + unfold merged_row; cbn [Sql.row_age]. rewrite Hage. reflexivity.
Qed.

Lemma update_applies_fields_witness :
  exists p : UserPublic,
    Controller.update "1" blank_body world_ana =
      (Return {| Controller.status := 200;
                 Controller.body := Controller.Success Controller.USER_UPDATED p |},
       with_db (update_db 1 blank_body 1003 (Sql.db world_ana)) (later 1 world_ana))
    /\ p_age p = Some NaN
    /\ Sql.row_age (merged_row blank_body 1003 ana_row) = None.
Proof.
  apply (update_applies_fields "1" blank_body world_ana ana_row
           (proj1 sample_well_formed) ltac:(vm_compute; now left)
           ltac:(vm_compute; reflexivity) eq_refl);
    vm_compute; reflexivity.
Defined.

(* ================================================================== *)
(** ** The invariant is kept by every operation *)

Lemma distinct_app_one {A} (R : A -> A -> bool) (l : list A) (a : A) :
  distinct R l = true -> existsb (fun x => R x a) l = false ->
  distinct R (l ++ [a]) = true.
Proof.
  induction l as [|x t IH]; [reflexivity|]. simpl.
  rewrite !andb_true_iff, !negb_true_iff, orb_false_iff.
  intros [Hx Ht] [Hxa Hta]. split; [|now apply IH].
  rewrite existsb_app, Hx. simpl. now rewrite Hxa.
Qed.

Lemma distinct_map_change {A B} (R : B -> B -> bool) (f : A -> B) (g : A -> A)
    (l : list A) :
  distinct R (map f l) = true ->
  (forall x y, In x l -> In y l -> R (f (g x)) (f (g y)) = true ->
               R (f x) (f y) = true) ->
  distinct R (map f (map g l)) = true.
Proof.
  induction l as [|a t IH]; [reflexivity|]. simpl.
  rewrite !andb_true_iff, !negb_true_iff. intros [Ha Ht] H. split.
  - apply existsb_false. intros b Hb.
    apply in_map_iff in Hb. destruct Hb as (y' & <- & Hy').
    apply in_map_iff in Hy'. destruct Hy' as (y & <- & Hy).
    destruct (R (f (g a)) (f (g y))) eqn:E; [|reflexivity].
    apply H in E; [|now left|now right].
    rewrite existsb_false in Ha. rewrite Ha in E; [discriminate|now apply in_map].
  - apply IH; [exact Ht|]. intros x y Hx Hy. apply H; now right.
Qed.

Lemma well_formed_empty : well_formed Sql.empty_db = true.
Proof. reflexivity. Qed.

Lemma well_formed_inserted (d : Sql.Database) (row : Sql.UserRow) :
  well_formed d = true ->
  Sql.row_id row = Sql.next_rowid d ->
  existsb (fun x => same_email (Sql.row_email x) (Sql.row_email row))
          (Sql.users d) = false ->
  Sql.or_null (Sql.row_password row) = Sql.row_password row ->
  well_formed (inserted row d) = true.
Proof.
  unfold well_formed, inserted; cbn [Sql.users].
  rewrite !andb_true_iff. intros [[[P I] E] Pw] Hi He Hp.
  rewrite !map_app, !forallb_app. cbn [map forallb].
  repeat split.
  - rewrite P, Hi. simpl. rewrite andb_true_r. apply Z.ltb_lt, next_rowid_positive.
  - apply distinct_app_one; [exact I|]. apply existsb_false.
    intros x Hx. apply in_map_iff in Hx. destruct Hx as (y & <- & Hy).
    apply next_rowid_fresh in Hy. apply Z.eqb_neq. lia.
  - apply distinct_app_one; [exact E|]. rewrite existsb_false in He.
    apply existsb_false. intros x Hx. apply in_map_iff in Hx.
    destruct Hx as (y & <- & Hy). now apply He.
  - rewrite Pw. simpl. rewrite andb_true_r. unfold Sql.or_null in Hp.
    destruct (Sql.row_password row) as [s|]; [|reflexivity].
    destruct (JsString.truthy s); [reflexivity|discriminate].
Qed.

Lemma or_null_idem (x : option string) : Sql.or_null (Sql.or_null x) = Sql.or_null x.
Proof.
  unfold Sql.or_null. destruct x as [s|]; [|reflexivity].
  destruct (JsString.truthy s) eqn:E; [now rewrite E|reflexivity].
Qed.

(** A change of rows that keeps rowids and passwords, and that moves an
    email only to one no row has, keeps the table well formed. *)
Lemma well_formed_changed (d : Sql.Database) (g : Sql.UserRow -> Sql.UserRow)
    (s l : Z) :
  well_formed d = true ->
  (forall x, Sql.row_id (g x) = Sql.row_id x) ->
  (forall x, Sql.row_password (g x) = Sql.row_password x) ->
  (forall x y, In x (Sql.users d) -> In y (Sql.users d) ->
     same_email (Sql.row_email (g x)) (Sql.row_email (g y)) = true ->
     same_email (Sql.row_email x) (Sql.row_email y) = true) ->
  well_formed {| Sql.users := map g (Sql.users d); Sql.sqlite_sequence := s;
                 Sql.last_insert_rowid := l |} = true.
Proof.
  unfold well_formed; cbn [Sql.users].
  rewrite !andb_true_iff. intros [[[P I] E] Pw] Hi Hp He.
  rewrite !forallb_forall in *.
  repeat split.
  - intros x Hx. apply in_map_iff in Hx. destruct Hx as (y & <- & Hy).
    rewrite Hi. now apply P.
  - rewrite map_map. rewrite (map_ext _ Sql.row_id); [exact I|exact Hi].
  - apply distinct_map_change; assumption.
  - intros x Hx. apply in_map_iff in Hx. destruct Hx as (y & <- & Hy).
    rewrite Hp. now apply Pw.
Qed.

Lemma well_formed_soft_delete (d : Sql.Database) (i : Z) (t : timestamp) :
  well_formed d = true -> well_formed (soft_delete_db i t d) = true.
Proof.
  intros WF. unfold soft_delete_db. apply well_formed_changed; [exact WF|..].
  - intros x. now destruct (Sql.row_id x =? i).
  - intros x. now destruct (Sql.row_id x =? i).
  - intros x y _ _. now destruct (Sql.row_id x =? i), (Sql.row_id y =? i).
Qed.

Lemma well_formed_update (d : Sql.Database) (r : Sql.UserRow)
    (b : Controller.UpdateBody) (t : timestamp) :
  well_formed d = true -> In r (Sql.users d) -> taken r b d = false ->
  well_formed (update_db (Sql.row_id r) b t d) = true.
Proof.
  intros WF Hr T. unfold update_db. apply well_formed_changed; [exact WF|..].
  - intros x. now destruct (Sql.row_id x =? Sql.row_id r).
  - intros x. now destruct (Sql.row_id x =? Sql.row_id r).
  - assert (New : forall y, In y (Sql.users d) ->
              same_email (Sql.row_email (merged_row b t r)) (Sql.row_email y) = true ->
              same_email (Sql.row_email r) (Sql.row_email y) = true).
    { intros y Hy. unfold merged_row; cbn [Sql.row_email]. unfold taken in T.
      destruct (Controller.truthy_text (Controller.b_email b)) as [e|]; [|auto].
      destruct (String.eqb e (Sql.row_email r)) eqn:Ee.
      - apply String.eqb_eq in Ee. now subst e.
      - cbn [negb andb] in T. rewrite existsb_false in T.
        rewrite same_email_sym, (T y Hy). discriminate. }
    intros x y Hx Hy.
    destruct (Sql.row_id x =? Sql.row_id r) eqn:Ex,
             (Sql.row_id y =? Sql.row_id r) eqn:Ey.
    + apply Z.eqb_eq in Ex, Ey.
      rewrite (wf_same_id _ WF x r Hx Hr Ex), (wf_same_id _ WF y r Hy Hr Ey).
      intros _. apply same_email_refl.
    + apply Z.eqb_eq in Ex. rewrite (wf_same_id _ WF x r Hx Hr Ex).
      now apply New.
    + apply Z.eqb_eq in Ey. rewrite (wf_same_id _ WF y r Hy Hr Ey).
      rewrite (same_email_sym _ (Sql.row_email (merged_row b t r))),
        (same_email_sym _ (Sql.row_email r)). now apply New.
    + auto.
Qed.

Lemma next_rowid_inserted (d : Sql.Database) (row : Sql.UserRow) :
  Sql.row_id row = Sql.next_rowid d ->
  Sql.next_rowid (inserted row d) = Sql.next_rowid d + 1.
Proof.
  intros Hi. unfold Sql.next_rowid at 1, inserted; cbn [Sql.users Sql.sqlite_sequence].
  assert (M : Sql.max_rowid (Sql.users d ++ [row])
              = Z.max (Sql.max_rowid (Sql.users d)) (Sql.row_id row)).
  { induction (Sql.users d) as [|x t IH]; simpl; [lia|]. rewrite IH. lia. }
  rewrite M, Hi. unfold Sql.next_rowid. lia.
Qed.

(** [create], [delete] and the handler keep the table well formed. *)
Lemma create_keeps_well_formed (d : UserCreateInput) (w : Sql.World) :
  well_formed (Sql.db w) = true ->
  well_formed (Sql.db (state_after (Sql.create d) w)) = true.
Proof.
  intros WF. unfold state_after. rewrite create_run. cbv zeta.
  destruct (negb (valid (Sql.validate _))); [exact WF|].
  destruct (existsb _ _) eqn:E; [exact WF|].
  cbn [snd with_db Sql.db]. apply well_formed_inserted.
  - exact WF.
  - reflexivity.
  - exact E.
  - cbn. apply or_null_idem.
Qed.

Lemma delete_keeps_well_formed (n : number) (w : Sql.World) :
  well_formed (Sql.db w) = true ->
  well_formed (Sql.db (state_after (Sql.delete n) w)) = true.
Proof.
  intros WF. unfold state_after.
  destruct (active_row_or_none n (Sql.db w)) as [(r & Hr & Hn & Ha)|None].
  - rewrite (delete_found n w r WF Hr Hn Ha). cbn [snd with_db Sql.db].
    now apply well_formed_soft_delete.
  - now rewrite (delete_not_found n w None).
Qed.

Lemma update_keeps_well_formed (id : string) (b : Controller.UpdateBody)
    (w : Sql.World) :
  well_formed (Sql.db w) = true ->
  well_formed (Sql.db (state_after (Controller.update id b) w)) = true.
Proof.
  intros WF. unfold state_after.
  destruct (active_row_or_none (ParseInt.parseInt id) (Sql.db w))
    as [(r & Hr & Hn & Ha)|None].
  - rewrite (update_run id b w r WF Hr Hn Ha). cbv zeta.
    destruct (taken r b (Sql.db w)) eqn:T; [exact WF|].
    destruct (negb (valid (Sql.validate _))); [exact WF|].
    cbn [snd with_db Sql.db]. now apply well_formed_update.
  - now rewrite (update_not_found id b w None).
Qed.

(* ================================================================== *)
(** ** The in-memory model *)

Lemma replace_length (r : Mem.ref) (u : Mem.User) (h : list Mem.User) :
  List.length (Mem.replace r u h) = List.length h.
Proof.
  revert r. induction h as [|x t IH]; intros [|r]; simpl; auto.
Qed.

Lemma nth_replace_same (r : Mem.ref) (u : Mem.User) (h : list Mem.User) :
  (r < List.length h)%nat -> nth r (Mem.replace r u h) Mem.no_object = u.
Proof.
  revert r. induction h as [|x t IH]; intros [|r]; simpl; try lia; auto.
  intros H. apply IH. lia.
Qed.

Lemma nth_replace_other (r k : Mem.ref) (u : Mem.User) (h : list Mem.User) :
  r <> k -> nth k (Mem.replace r u h) Mem.no_object = nth k h Mem.no_object.
Proof.
  revert r k. induction h as [|x t IH]; intros [|r] [|k]; simpl; try congruence; auto.
Qed.

Lemma replace_last (h : list Mem.User) (o u : Mem.User) :
  Mem.replace (List.length h) u (h ++ [o]) = h ++ [u].
Proof. induction h as [|x t IH]; simpl; [reflexivity|now rewrite IH]. Qed.

Lemma replace_replace (r : Mem.ref) (u v : Mem.User) (h : list Mem.User) :
  Mem.replace r v (Mem.replace r u h) = Mem.replace r v h.
Proof.
  revert r. induction h as [|x t IH]; intros [|r]; simpl; auto.
  now rewrite IH.
Qed.

Lemma findIndex_none (p : Mem.User -> bool) (w : Mem.World) (l : list Mem.ref) :
  (forall k, In k l -> p (Mem.object w k) = false) -> Mem.findIndex p w l = None.
Proof.
  induction l as [|k t IH]; [reflexivity|]. intros H. simpl.
  rewrite (H k (or_introl eq_refl)). rewrite IH; [reflexivity|].
  intros x Hx. apply H. now right.
Qed.

Lemma nth_replace (r k : Mem.ref) (u : Mem.User) (h : list Mem.User) :
  nth k (Mem.replace r u h) Mem.no_object
  = if (r =? k)%nat && (r <? List.length h)%nat then u else nth k h Mem.no_object.
Proof.
  revert r k. induction h as [|x t IH]; intros [|r] [|k]; simpl; auto;
    try (now rewrite andb_false_r).
Qed.

Lemma existsb_ext_in {A} (p q : A -> bool) (l : list A) :
  (forall x, In x l -> p x = q x) -> existsb p l = existsb q l.
Proof.
  induction l as [|a t IH]; [reflexivity|]. intros H. simpl.
  rewrite (H a (or_introl eq_refl)), IH; [reflexivity|].
  intros x Hx. apply H. now right.
Qed.

Lemma forallb_ext_in {A} (p q : A -> bool) (l : list A) :
  (forall x, In x l -> p x = q x) -> forallb p l = forallb q l.
Proof.
  induction l as [|a t IH]; [reflexivity|]. intros H. simpl.
  rewrite (H a (or_introl eq_refl)), IH; [reflexivity|].
  intros x Hx. apply H. now right.
Qed.

Lemma find_ext_in {A} (p q : A -> bool) (l : list A) :
  (forall x, In x l -> p x = q x) -> find p l = find q l.
Proof.
  induction l as [|a t IH]; [reflexivity|]. intros H. simpl.
  rewrite (H a (or_introl eq_refl)), IH; [reflexivity|].
  intros x Hx. apply H. now right.
Qed.

(** [save] of an object whose identifier no stored object has: the
    reference is pushed. *)
Lemma mem_save_push (w : Mem.World) (k : Mem.ref) :
  (forall r, In r (Mem.users w) ->
             Mem.id (Mem.object w r) <> Mem.id (Mem.object w k)) ->
  Mem.save k w =
  (Return k,
   {| Mem.heap := Mem.replace k (Mem.with_updated_at (Mem.clock w (Mem.ticks w))
                                                     (Mem.object w k))
                              (Mem.heap w);
      Mem.users := Mem.users w ++ [k];
      Mem.nextId := Mem.nextId w; Mem.clock := Mem.clock w;
      Mem.ticks := S (Mem.ticks w) |}).
Proof.
  intros H. unfold Mem.save, bind, Mem.now, Mem.assign, get, Mem.set_users, ret.
  cbn [Mem.heap Mem.users Mem.nextId Mem.clock Mem.ticks].
  rewrite findIndex_none; [reflexivity|].
  intros r Hr. apply Z.eqb_neq.
  assert (I : forall j,
            Mem.id (Mem.object
              {| Mem.heap := Mem.replace k
                   (Mem.with_updated_at (Mem.clock w (Mem.ticks w))
                      (Mem.object
                         {| Mem.heap := Mem.heap w; Mem.users := Mem.users w;
                            Mem.nextId := Mem.nextId w; Mem.clock := Mem.clock w;
                            Mem.ticks := S (Mem.ticks w) |} k)) (Mem.heap w);
                 Mem.users := Mem.users w; Mem.nextId := Mem.nextId w;
                 Mem.clock := Mem.clock w; Mem.ticks := S (Mem.ticks w) |} j)
            = Mem.id (Mem.object w j)).
  { intros j. unfold Mem.object; cbn [Mem.heap]. rewrite nth_replace.
    destruct ((k =? j)%nat && (k <? List.length (Mem.heap w))%nat) eqn:E;
      [|reflexivity].
    apply andb_true_iff in E. destruct E as [E _]. apply Nat.eqb_eq in E.
    now subst j. }
  rewrite !I. now apply H.
Qed.

Section MemOk.
Variable w : Mem.World.
Hypothesis OK : mem_ok w = true.

Lemma ok_allocated (k : Mem.ref) :
  In k (Mem.users w) -> (k < List.length (Mem.heap w))%nat.
Proof.
  unfold mem_ok in OK. rewrite !andb_true_iff in OK.
  destruct OK as [[[[_ A] _] _] _]. rewrite forallb_forall in A.
  intros H. apply Nat.ltb_lt. now apply A.
Qed.

Lemma ok_id_range (k : Mem.ref) :
  In k (Mem.users w) ->
  0 < Mem.id (Mem.object w k) < Mem.nextId w.
Proof.
  unfold mem_ok in OK. rewrite !andb_true_iff in OK.
  destruct OK as [_ B]. rewrite forallb_forall in B.
  intros H. specialize (B k H). apply andb_true_iff in B.
  destruct B as [B1 B2]. apply Z.ltb_lt in B1, B2. lia.
Qed.

Lemma ok_same_id (j k : Mem.ref) :
  In j (Mem.users w) -> In k (Mem.users w) ->
  Mem.id (Mem.object w j) = Mem.id (Mem.object w k) -> j = k.
Proof.
  unfold mem_ok in OK. rewrite !andb_true_iff in OK.
  destruct OK as [[[[_ _] _] I] _]. intros Hj Hk E.
  apply (distinct_map_inj Z.eqb (fun k => Mem.id (Mem.object w k)) (Mem.users w)
           Z.eqb_sym I j k Hj Hk).
  now apply Z.eqb_eq.
Qed.

(** Objects allocated before are untouched by a later allocation. *)
Lemma old_object (o : Mem.User) (k : Mem.ref) :
  In k (Mem.users w) ->
  nth k (Mem.heap w ++ [o]) Mem.no_object = Mem.object w k.
Proof.
  intros H. apply ok_allocated in H. unfold Mem.object. now apply app_nth1.
Qed.

Lemma mem_create_run (d : UserCreateInput) :
  let i := Mem.nextId w in
  let k := List.length (Mem.heap w) in
  let o := candidate_object d i (Mem.clock w (Mem.ticks w))
                            (Mem.clock w (S (Mem.ticks w))) in
  let t := Mem.clock w (S (S (Mem.ticks w))) in
  let w1 := {| Mem.heap := Mem.heap w ++ [o]; Mem.users := Mem.users w;
               Mem.nextId := i + 1; Mem.clock := Mem.clock w;
               Mem.ticks := S (S (Mem.ticks w)) |} in
  Mem.create d w =
  if negb (valid (Mem.validate o))
  then (Return {| Mem.success := false; Mem.user := None;
                  Mem.result_errors := Some (errors (Mem.validate o)) |}, w1)
  else if existsb (fun r => String.eqb (JsString.toLowerCase (Mem.email (Mem.object w r)))
                                       (JsString.toLowerCase (i_email d)))
                  (Mem.users w)
       then (Return {| Mem.success := false; Mem.user := None;
                       Mem.result_errors := Some [EMAIL_TAKEN] |}, w1)
       else (Return {| Mem.success := true; Mem.user := Some k;
                       Mem.result_errors := None |},
             {| Mem.heap := Mem.heap w ++ [Mem.with_updated_at t o];
                Mem.users := Mem.users w ++ [k];
                Mem.nextId := i + 1; Mem.clock := Mem.clock w;
                Mem.ticks := S (S (S (Mem.ticks w))) |}).
Proof.
  intros i k o t w1.
  unfold Mem.create, bind at 1.
  change (Mem.new_User (as_UserData d) w) with (Return k, w1).
  unfold bind at 1, Mem.deref.
  assert (O1 : Mem.object w1 k = o).
  { unfold Mem.object, w1, k; cbn [Mem.heap]. apply nth_middle. }
  assert (Old : forall r, In r (Mem.users w) -> Mem.object w1 r = Mem.object w r).
  { intros r Hr. unfold Mem.object at 1, w1; cbn [Mem.heap]. now apply old_object. }
  rewrite O1.
  destruct (negb (valid (Mem.validate o))); [reflexivity|].
  unfold bind at 1, Mem.emailExists, bind at 1, get, ret.
  rewrite (existsb_ext_in _
             (fun r => String.eqb (JsString.toLowerCase (Mem.email (Mem.object w r)))
                                  (JsString.toLowerCase (i_email d))) (Mem.users w1));
    [|intros r Hr; now rewrite (Old r Hr)].
  change (Mem.users w1) with (Mem.users w).
  destruct (existsb _ (Mem.users w)); [reflexivity|].
  unfold bind at 1. rewrite mem_save_push.
  - rewrite O1. unfold w1 at 1 2 3 4 5; cbn [Mem.heap Mem.users Mem.nextId Mem.clock Mem.ticks].
    unfold k at 2. rewrite replace_last. reflexivity.
  - intros r Hr. rewrite O1, (Old r Hr). cbn [candidate_object o Mem.id].
    pose proof (ok_id_range r Hr). unfold i. lia.
Qed.

Lemma ok_counter : 0 < Mem.nextId w.
Proof.
  unfold mem_ok in OK. rewrite !andb_true_iff in OK.
  destruct OK as [[[[N _] _] _] _]. now apply Z.ltb_lt.
Qed.

Lemma ok_distinct_refs : distinct Nat.eqb (Mem.users w) = true.
Proof.
  unfold mem_ok in OK. rewrite !andb_true_iff in OK.
  now destruct OK as [[[[_ _] D] _] _].
Qed.

Lemma mem_delete_run (n : number) :
  let t := Mem.clock w (Mem.ticks w) in
  Mem.delete n w =
  match find (fun r => eq_int n (Mem.id (Mem.object w r))
                       && Mem.is_active (Mem.object w r)) (Mem.users w) with
  | Some k =>
      (Return true,
       {| Mem.heap := Mem.replace k
                        (Mem.with_updated_at t
                           (Mem.with_is_active false (Mem.object w k)))
                        (Mem.heap w);
          Mem.users := Mem.users w; Mem.nextId := Mem.nextId w;
          Mem.clock := Mem.clock w; Mem.ticks := S (Mem.ticks w) |})
  | None => (Return false, w)
  end.
Proof.
  intros t. unfold Mem.delete, bind at 1, Mem.findById, bind at 1, get, ret.
  destruct (find _ (Mem.users w)) as [k|] eqn:F; [|reflexivity].
  apply find_some in F. destruct F as [Hk _]. apply ok_allocated in Hk.
  unfold bind, Mem.assign, Mem.now, ret.
  cbn [Mem.heap Mem.users Mem.nextId Mem.clock Mem.ticks].
  f_equal. f_equal. unfold Mem.object at 1; cbn [Mem.heap].
  rewrite nth_replace_same, replace_replace; [reflexivity|exact Hk].
Qed.

End MemOk.

(** Objects that keep their identifiers keep the store in order. *)
Lemma mem_ok_same_ids (w w' : Mem.World) :
  (forall r, Mem.id (Mem.object w' r) = Mem.id (Mem.object w r)) ->
  List.length (Mem.heap w') = List.length (Mem.heap w) ->
  Mem.users w' = Mem.users w -> Mem.nextId w' = Mem.nextId w ->
  mem_ok w' = mem_ok w.
Proof.
  intros I L U N. unfold mem_ok. rewrite L, U, N.
  f_equal; [f_equal|].
  - f_equal. apply map_ext. intros r. apply I.
  - apply forallb_ext_in. intros r _. now rewrite I.
Qed.

Lemma mem_delete_keeps_ok (n : number) (w : Mem.World) :
  mem_ok w = true -> mem_ok (state_after (Mem.delete n) w) = true.
Proof.
  intros OK. unfold state_after. rewrite (mem_delete_run w OK). cbv zeta.
  destruct (find _ (Mem.users w)) as [k|]; [|exact OK].
  cbn [snd]. rewrite <- OK. apply mem_ok_same_ids; cbn [Mem.heap Mem.users Mem.nextId].
  - intros r. unfold Mem.object; cbn [Mem.heap]. rewrite nth_replace.
    destruct ((k =? r)%nat && (k <? List.length (Mem.heap w))%nat) eqn:E;
      [|reflexivity].
    apply andb_true_iff in E. destruct E as [E _]. apply Nat.eqb_eq in E.
    now subst r.
  - apply replace_length.
  - reflexivity.
  - reflexivity.
Qed.

Lemma mem_ok_allocated (w : Mem.World) (o : Mem.User) (n : Z) (c : nat) :
  mem_ok w = true -> Mem.nextId w <= n ->
  mem_ok {| Mem.heap := Mem.heap w ++ [o]; Mem.users := Mem.users w;
            Mem.nextId := n; Mem.clock := Mem.clock w; Mem.ticks := c |} = true.
Proof.
  intros OK Hn. pose proof OK as OK'. unfold mem_ok in OK' |- *.
  cbn [Mem.heap Mem.users Mem.nextId].
  rewrite !andb_true_iff in OK'. destruct OK' as [[[[N A] D] I] R].
  rewrite !andb_true_iff. rewrite !forallb_forall in *.
  assert (Old : forall r, In r (Mem.users w) ->
            Mem.object {| Mem.heap := Mem.heap w ++ [o]; Mem.users := Mem.users w;
                          Mem.nextId := n; Mem.clock := Mem.clock w; Mem.ticks := c |} r
            = Mem.object w r).
  { intros r Hr. unfold Mem.object at 1; cbn [Mem.heap]. now apply old_object. }
  repeat split.
  - apply Z.ltb_lt in N. apply Z.ltb_lt. lia.
  - intros r Hr. specialize (A r Hr). apply Nat.ltb_lt in A. apply Nat.ltb_lt.
    rewrite length_app. simpl. lia.
  - exact D.
  - rewrite (map_ext_in _ (fun k => Mem.id (Mem.object w k))); [exact I|].
    intros r Hr. now rewrite Old.
  - intros r Hr. rewrite (Old r Hr). specialize (R r Hr).
    apply andb_true_iff in R. destruct R as [R1 R2].
    apply Z.ltb_lt in R2. rewrite R1. apply Z.ltb_lt. lia.
Qed.

Lemma mem_ok_pushed (w : Mem.World) (o : Mem.User) (c : nat) :
  mem_ok w = true -> Mem.id o = Mem.nextId w ->
  mem_ok {| Mem.heap := Mem.heap w ++ [o];
            Mem.users := Mem.users w ++ [List.length (Mem.heap w)];
            Mem.nextId := Mem.nextId w + 1; Mem.clock := Mem.clock w;
            Mem.ticks := c |} = true.
Proof.
  intros OK Hi. pose proof OK as OK'. unfold mem_ok in OK' |- *.
  cbn [Mem.heap Mem.users Mem.nextId].
  rewrite !andb_true_iff in OK'. destruct OK' as [[[[N A] D] I] R].
  set (w' := {| Mem.heap := Mem.heap w ++ [o];
                Mem.users := Mem.users w ++ [List.length (Mem.heap w)];
                Mem.nextId := Mem.nextId w + 1; Mem.clock := Mem.clock w;
                Mem.ticks := c |}).
  assert (Old : forall r, In r (Mem.users w) -> Mem.object w' r = Mem.object w r).
  { intros r Hr. unfold Mem.object at 1; cbn [Mem.heap w']. now apply old_object. }
  assert (New : Mem.object w' (List.length (Mem.heap w)) = o).
  { unfold Mem.object; cbn [Mem.heap w']. apply nth_middle. }
  apply Z.ltb_lt in N.
  rewrite !andb_true_iff, !map_app, !forallb_app. cbn [map forallb].
  rewrite New, Hi.
  repeat split.
  - apply Z.ltb_lt. lia.
  - rewrite andb_true_iff. split.
    + rewrite forallb_forall in *. intros r Hr. specialize (A r Hr).
      apply Nat.ltb_lt in A. apply Nat.ltb_lt. rewrite length_app. simpl. lia.
    + rewrite andb_true_r. apply Nat.ltb_lt. rewrite length_app. simpl. lia.
  - apply distinct_app_one; [exact D|]. apply existsb_false.
    intros r Hr. apply Nat.eqb_neq. apply (ok_allocated w OK) in Hr. lia.
  - rewrite (map_ext_in _ (fun k => Mem.id (Mem.object w k)));
      [|intros r Hr; now rewrite Old].
    apply distinct_app_one; [exact I|]. apply existsb_false.
    intros z Hz. apply in_map_iff in Hz. destruct Hz as (r & <- & Hr).
    apply Z.eqb_neq. pose proof (ok_id_range w OK r Hr). lia.
  - rewrite andb_true_iff. split.
    + rewrite forallb_forall in *. intros r Hr. rewrite (Old r Hr).
      specialize (R r Hr). apply andb_true_iff in R. destruct R as [R1 R2].
      apply Z.ltb_lt in R2. rewrite R1. apply Z.ltb_lt. lia.
    + rewrite andb_true_r. apply andb_true_iff. split; apply Z.ltb_lt; lia.
Qed.

Lemma mem_create_keeps_ok (d : UserCreateInput) (w : Mem.World) :
  mem_ok w = true -> mem_ok (state_after (Mem.create d) w) = true.
Proof.
  intros OK. unfold state_after. rewrite (mem_create_run w OK). cbv zeta.
  destruct (negb (valid (Mem.validate _))).
  { cbn [snd]. apply mem_ok_allocated; [exact OK|lia]. }
  destruct (existsb _ _).
  { cbn [snd]. apply mem_ok_allocated; [exact OK|lia]. }
  cbn [snd]. now apply mem_ok_pushed.
Qed.

(* ================================================================== *)
(** ** The two models answer alike *)

Lemma lower_ascii (s : string) :
  JsString.is_ascii s = true -> JsString.toLowerCase s = JsString.LOWER s.
Proof.
  unfold JsString.is_ascii, JsString.toLowerCase, JsString.LOWER.
  induction s as [|c s IH]; [reflexivity|]. simpl.
  rewrite andb_true_iff. intros [Hc Hs]. rewrite (IH Hs). f_equal.
  unfold JsString.js_lower_char, JsString.sql_lower_char.
  destruct ((65 <=? JsString.code c) && (JsString.code c <=? 90))%N; [reflexivity|].
  apply N.ltb_lt in Hc.
  destruct (192 <=? JsString.code c)%N eqn:E; [|reflexivity].
  apply N.leb_le in E. lia.
Qed.

Lemma same_email_js (a b : string) :
  JsString.is_ascii a = true -> JsString.is_ascii b = true ->
  String.eqb (JsString.toLowerCase a) (JsString.toLowerCase b) = same_email a b.
Proof.
  intros Ha Hb. unfold same_email. now rewrite (lower_ascii a Ha), (lower_ascii b Hb).
Qed.

Lemma hd_error_filter_find {A} (p : A -> bool) (l : list A) :
  hd_error (filter p l) = find p l.
Proof.
  induction l as [|a t IH]; [reflexivity|]. simpl. now destruct (p a).
Qed.

Lemma find_map {A B} (f : A -> B) (p : B -> bool) (l : list A) :
  find p (map f l) = option_map f (find (fun x => p (f x)) l).
Proof.
  induction l as [|a t IH]; [reflexivity|]. simpl. now destruct (p (f a)).
Qed.

Lemma filter_map_comm {A B} (f : A -> B) (p : B -> bool) (l : list A) :
  filter p (map f l) = map f (filter (fun x => p (f x)) l).
Proof.
  induction l as [|a t IH]; [reflexivity|]. simpl.
  destruct (p (f a)); simpl; now rewrite IH.
Qed.

Lemma existsb_map {A B} (f : A -> B) (p : B -> bool) (l : list A) :
  existsb p (map f l) = existsb (fun x => p (f x)) l.
Proof.
  induction l as [|a t IH]; [reflexivity|]. simpl. now rewrite IH.
Qed.

(** *** Queries *)

Lemma sql_query (c : Call) (w : Sql.World) :
  is_query c = true ->
  call_sql c w = (read_views c (sql_views (Sql.db w)), w).
Proof.
  destruct c; try discriminate; intros _; unfold call_sql, read_views, sql_views.
  - rewrite findAll_run. cbn [answer]. f_equal. f_equal.
    rewrite filter_map_comm, map_map. reflexivity.
  - rewrite findById_run. cbn [answer]. f_equal. f_equal.
    unfold Sql.select_by_id. rewrite hd_error_filter_find, find_map.
    now destruct (find _ (Sql.users (Sql.db w))).
  - rewrite findByEmail_run. cbn [answer]. f_equal. f_equal.
    unfold Sql.select_by_email. rewrite hd_error_filter_find, find_map.
    now destruct (find _ (Sql.users (Sql.db w))).
  - rewrite emailExists_run. cbn [answer]. f_equal. f_equal.
    now rewrite existsb_map.
  - rewrite count_run. cbn [answer]. f_equal. f_equal. f_equal.
    unfold Sql.select_active. rewrite filter_map_comm, length_map. reflexivity.
Qed.

Lemma mem_query (c : Call) (w : Mem.World) :
  is_query c = true -> plain c = true ->
  forallb (fun v => JsString.is_ascii (v_email v)) (mem_views w) = true ->
  call_mem c w = (read_views c (mem_views w), w).
Proof.
  intros Q P A. rewrite forallb_forall in A.
  destruct c; try discriminate; unfold call_mem, read_views, mem_views;
    cbn [plain] in P.
  - cbn. f_equal. f_equal. rewrite filter_map_comm. reflexivity.
  - cbn. f_equal. f_equal. rewrite find_map. reflexivity.
  - cbn. f_equal. f_equal. rewrite find_map. f_equal.
    apply find_ext_in. intros k Hk.
    rewrite same_email_js; [reflexivity| |exact P].
    apply (A (view_of_object (Mem.object w k))).
    apply in_map_iff. now exists k.
  - cbn. f_equal. f_equal. rewrite existsb_map.
    apply existsb_ext_in. intros k Hk.
    cbn [view_of_object v_email].
    rewrite same_email_js; [reflexivity| |exact P].
    apply (A (view_of_object (Mem.object w k))).
    apply in_map_iff. now exists k.
  - cbn. f_equal. f_equal. f_equal.
    rewrite filter_map_comm, length_map. reflexivity.
Qed.

(** *** [create] *)

Lemma validate_agrees (d : UserCreateInput) (i : Z) (c u c' u' : timestamp) :
  match i_age d with Some a => truthy a | None => true end = true ->
  Mem.validate (candidate_object d i c' u') = Sql.validate (candidate d c u).
Proof.
  intros P. unfold Mem.validate, Sql.validate, candidate_object, candidate.
  cbn [Mem.name Mem.email Mem.age Sql.name Sql.email Sql.age].
  assert (E : Mem.check_age (Mem.age_or_null (i_age d)) = Sql.check_age (i_age d)).
  { destruct (i_age d) as [a|]; [|reflexivity]. cbn [Mem.age_or_null].
    rewrite P. reflexivity. }
  now rewrite E.
Qed.

Lemma age_or_null_plain (x : option number) :
  match x with Some a => truthy a | None => true end = true ->
  Mem.age_or_null x = x.
Proof.
  destruct x as [a|]; [|reflexivity]. cbn [Mem.age_or_null]. now intros ->.
Qed.

Lemma mem_views_old (w w' : Mem.World) :
  (forall k, In k (Mem.users w) -> Mem.object w' k = Mem.object w k) ->
  map (fun k => view_of_object (Mem.object w' k)) (Mem.users w) = mem_views w.
Proof.
  intros H. unfold mem_views. apply map_ext_in. intros k Hk. now rewrite H.
Qed.

Lemma create_agrees (d : UserCreateInput) (ws : Sql.World) (wm : Mem.World) :
  related ws wm -> plain (Create d) = true ->
  fst (call_sql (Create d) ws) = fst (call_mem (Create d) wm) /\
  (rejected (fst (call_sql (Create d) ws)) = false ->
   related (snd (call_sql (Create d) ws)) (snd (call_mem (Create d) wm))).
Proof.
  intros (WF & OK & V & N & A & K) P. cbn [plain] in P.
  apply andb_true_iff in P. destruct P as [Pe Pa].
  pose proof (stored_number_kept _ (truthy_is_number _ Pa)) as Kd.
  unfold call_sql, call_mem. rewrite create_run, (mem_create_run wm OK). cbv zeta.
  rewrite (validate_agrees d _
             (Sql.clock ws (Sql.ticks ws)) (Sql.clock ws (S (Sql.ticks ws)))
             _ _ Pa).
  destruct (negb (valid (Sql.validate _))).
  { cbn. split; [reflexivity|discriminate]. }
  assert (X : existsb (fun r => String.eqb
                         (JsString.toLowerCase (Mem.email (Mem.object wm r)))
                         (JsString.toLowerCase (i_email d))) (Mem.users wm)
              = existsb (fun r => same_email (Sql.row_email r) (i_email d))
                        (Sql.users (Sql.db ws))).
  { transitivity (existsb (fun v => same_email (v_email v) (i_email d))
                          (mem_views wm)).
    - unfold mem_views. rewrite existsb_map. apply existsb_ext_in.
      intros k Hk. cbn [view_of_object v_email].
      apply same_email_js; [|exact Pe].
      rewrite V in A. rewrite forallb_forall in A.
      apply (A (view_of_object (Mem.object wm k))).
      apply in_map_iff. now exists k.
    - rewrite <- V. unfold sql_views. now rewrite existsb_map. }
  rewrite X.
  destruct (existsb _ (Sql.users (Sql.db ws))) eqn:E.
  { cbn. split; [reflexivity|discriminate]. }
  cbn [answer fst snd Sql.success Sql.user Sql.result_errors
       Mem.success Mem.user Mem.result_errors option_map].
  assert (New : Mem.object
            {| Mem.heap := Mem.heap wm ++
                 [Mem.with_updated_at (Mem.clock wm (S (S (Mem.ticks wm))))
                    (candidate_object d (Mem.nextId wm)
                       (Mem.clock wm (Mem.ticks wm))
                       (Mem.clock wm (S (Mem.ticks wm))))];
               Mem.users := Mem.users wm ++ [List.length (Mem.heap wm)];
               Mem.nextId := Mem.nextId wm + 1; Mem.clock := Mem.clock wm;
               Mem.ticks := S (S (S (Mem.ticks wm))) |} (List.length (Mem.heap wm))
          = Mem.with_updated_at (Mem.clock wm (S (S (Mem.ticks wm))))
              (candidate_object d (Mem.nextId wm)
                 (Mem.clock wm (Mem.ticks wm)) (Mem.clock wm (S (Mem.ticks wm))))).
  { unfold Mem.object; cbn [Mem.heap]. apply nth_middle. }
  rewrite New.
  assert (Vnew : view_of_object
                   (Mem.with_updated_at (Mem.clock wm (S (S (Mem.ticks wm))))
                      (candidate_object d (Mem.nextId wm)
                         (Mem.clock wm (Mem.ticks wm))
                         (Mem.clock wm (S (Mem.ticks wm)))))
                 = {| v_id := Some (Sql.next_rowid (Sql.db ws));
                      v_name := i_name d; v_email := i_email d;
                      v_age := i_age d; v_is_active := true |}).
  { unfold view_of_object, Mem.with_updated_at, candidate_object.
    cbn [Mem.id Mem.name Mem.email Mem.age Mem.is_active].
    now rewrite N, (age_or_null_plain _ Pa). }
  rewrite Vnew. split; [reflexivity|]. intros _.
  unfold related. cbn [with_db Sql.db].
  split; [|split; [|split; [|split; [|split]]]].
  - apply well_formed_inserted; [exact WF|reflexivity|exact E|apply or_null_idem].
  - apply mem_ok_pushed; [exact OK|reflexivity].
  - unfold sql_views, inserted, mem_views. cbn [Sql.users Mem.users].
    rewrite !map_app. cbn [map]. rewrite New, Vnew. f_equal.
    + fold (sql_views (Sql.db ws)). rewrite V. symmetry. apply mem_views_old.
      intros k Hk. unfold Mem.object at 1; cbn [Mem.heap]. now apply old_object.
    + unfold view_of_row, view_of_user.
      cbn [user_of_row row_of_user Sql.with_updated_at candidate Sql.id Sql.name
           Sql.email Sql.age Sql.is_active Sql.row_id Sql.row_name Sql.row_email
           Sql.row_age Sql.row_is_active].
      now rewrite Kd.
  - rewrite next_rowid_inserted; [|reflexivity]. cbn [Mem.nextId]. lia.
  - unfold sql_views, inserted. cbn [Sql.users]. rewrite map_app, forallb_app.
    fold (sql_views (Sql.db ws)). rewrite A. cbn [andb map forallb].
    rewrite andb_true_r. exact Pe.
  - unfold sql_views, inserted. cbn [Sql.users]. rewrite map_app, forallb_app.
    fold (sql_views (Sql.db ws)). rewrite K. cbn [andb map forallb].
    rewrite andb_true_r.
    cbn [view_of_row view_of_user user_of_row row_of_user Sql.with_updated_at
         candidate Sql.age Sql.row_age v_age].
    rewrite Kd. now apply truthy_is_number.
Qed.

(** *** [delete] *)

Lemma sql_views_soft_delete (i : Z) (t : timestamp) (d : Sql.Database) :
  forallb (fun v => is_number (v_age v)) (sql_views d) = true ->
  sql_views (soft_delete_db i t d) = deactivate i (sql_views d).
Proof.
  intros K. unfold sql_views in K. rewrite forallb_forall in K.
  unfold sql_views, soft_delete_db, deactivate. cbn [Sql.users].
  rewrite !map_map. apply map_ext_in. intros x Hx.
  unfold view_has_id. cbn [view_of_row view_of_user user_of_row Sql.id v_id].
  rewrite eq_int_Int, (Z.eqb_sym i).
  destruct (Sql.row_id x =? i); [|reflexivity].
  specialize (K (view_of_row x) (in_map view_of_row _ x Hx)).
  cbn [view_of_row view_of_user user_of_row Sql.age v_age] in K.
  unfold deactivated, view_of_row, view_of_user.
  cbn [user_of_row soft_deleted Sql.id Sql.name Sql.email Sql.age Sql.is_active
       Sql.row_id Sql.row_name Sql.row_email Sql.row_age Sql.row_is_active
       v_id v_name v_email v_age].
  now rewrite (stored_number_kept _ K).
Qed.

Lemma max_rowid_same_ids (l : list Sql.UserRow) (g : Sql.UserRow -> Sql.UserRow) :
  (forall x, Sql.row_id (g x) = Sql.row_id x) ->
  Sql.max_rowid (map g l) = Sql.max_rowid l.
Proof.
  intros H. induction l as [|x t IH]; [reflexivity|]. simpl. now rewrite H, IH.
Qed.

Lemma mem_views_deactivate (w : Mem.World) (k : Mem.ref) (t : timestamp) (c : nat) :
  mem_ok w = true -> In k (Mem.users w) ->
  mem_views {| Mem.heap := Mem.replace k
                 (Mem.with_updated_at t (Mem.with_is_active false (Mem.object w k)))
                 (Mem.heap w);
               Mem.users := Mem.users w; Mem.nextId := Mem.nextId w;
               Mem.clock := Mem.clock w; Mem.ticks := c |}
  = deactivate (Mem.id (Mem.object w k)) (mem_views w).
Proof.
  intros OK Hk. unfold mem_views, deactivate. cbn [Mem.users].
  rewrite map_map. apply map_ext_in. intros r Hr.
  unfold view_has_id. cbn [view_of_object v_id]. rewrite eq_int_Int.
  unfold Mem.object at 1. cbn [Mem.heap]. rewrite nth_replace.
  pose proof (ok_allocated w OK k Hk) as L. apply Nat.ltb_lt in L. rewrite L.
  rewrite andb_true_r.
  destruct (Nat.eqb_spec k r) as [->|Hne].
  - rewrite Z.eqb_refl. reflexivity.
  - destruct (Z.eqb_spec (Mem.id (Mem.object w k)) (Mem.id (Mem.object w r)))
      as [E|_]; [|reflexivity].
    exfalso. apply Hne. now apply (ok_same_id w OK).
Qed.

Lemma deactivate_emails (i : Z) (l : list View) :
  map v_email (deactivate i l) = map v_email l.
Proof.
  unfold deactivate. rewrite map_map. apply map_ext. intros v.
  now destruct (view_has_id (Int i) v).
Qed.

Lemma forallb_map {A B} (f : A -> B) (p : B -> bool) (l : list A) :
  forallb p (map f l) = forallb (fun x => p (f x)) l.
Proof.
  induction l as [|a t IH]; [reflexivity|]. simpl. now rewrite IH.
Qed.

Lemma deactivate_ages (i : Z) (l : list View) :
  map v_age (deactivate i l) = map v_age l.
Proof.
  unfold deactivate. rewrite map_map. apply map_ext. intros v.
  now destruct (view_has_id (Int i) v).
Qed.

Lemma delete_agrees (n : number) (ws : Sql.World) (wm : Mem.World) :
  related ws wm ->
  fst (call_sql (Delete n) ws) = fst (call_mem (Delete n) wm) /\
  related (snd (call_sql (Delete n) ws)) (snd (call_mem (Delete n) wm)).
Proof.
  intros (WF & OK & V & N & A & K). unfold call_sql, call_mem.
  rewrite (mem_delete_run wm OK). cbv zeta.
  pose proof (find_map view_of_row
                (fun v => view_has_id n v && v_is_active v)
                (Sql.users (Sql.db ws))) as Fs.
  pose proof (find_map (fun k => view_of_object (Mem.object wm k))
                (fun v => view_has_id n v && v_is_active v)
                (Mem.users wm)) as Fm.
  fold (sql_views (Sql.db ws)) in Fs. fold (mem_views wm) in Fm.
  rewrite V, Fm in Fs. clear Fm.
  cbn [view_of_object v_id v_is_active view_has_id] in Fs.
  change (fun x : Sql.UserRow =>
            view_has_id n (view_of_row x) && v_is_active (view_of_row x))
    with (fun r : Sql.UserRow =>
            eq_int n (Sql.row_id r) && (Sql.row_is_active r =? 1)) in Fs.
  destruct (find (fun r => eq_int n (Sql.row_id r) && (Sql.row_is_active r =? 1))
                 (Sql.users (Sql.db ws))) as [r|] eqn:Er;
    destruct (find (fun r => eq_int n (Mem.id (Mem.object wm r))
                             && Mem.is_active (Mem.object wm r))
                   (Mem.users wm)) as [k|] eqn:Ek;
    try discriminate.
  - apply find_some in Er. destruct Er as [Hr Hp].
    apply andb_true_iff in Hp. destruct Hp as [Hn Ha]. apply Z.eqb_eq in Ha.
    apply find_some in Ek. destruct Ek as [Hk _].
    rewrite (delete_found n ws r WF Hr Hn Ha). cbn [answer fst snd].
    split; [reflexivity|].
    assert (I : Mem.id (Mem.object wm k) = Sql.row_id r).
    { apply (f_equal (fun o => match o with
                               | Some v => v_id v
                               | None => None
                               end)) in Fs.
      cbn in Fs. congruence. }
    unfold related. cbn [with_db Sql.db].
    split; [|split; [|split; [|split; [|split]]]].
    + now apply well_formed_soft_delete.
    + rewrite <- OK. apply mem_ok_same_ids; cbn [Mem.heap Mem.users Mem.nextId].
      * intros j. unfold Mem.object; cbn [Mem.heap]. rewrite nth_replace.
        destruct ((k =? j)%nat && (k <? List.length (Mem.heap wm))%nat) eqn:E;
          [|reflexivity].
        apply andb_true_iff in E. destruct E as [E _]. apply Nat.eqb_eq in E.
        now subst j.
      * apply replace_length.
      * reflexivity.
      * reflexivity.
    + rewrite (sql_views_soft_delete _ _ _ K),
        (mem_views_deactivate wm k _ _ OK Hk), I, V.
      reflexivity.
    + unfold Sql.next_rowid, soft_delete_db. cbn [Sql.users Sql.sqlite_sequence Mem.nextId].
      rewrite max_rowid_same_ids; [exact N|].
      intros x. now destruct (Sql.row_id x =? Sql.row_id r).
    + rewrite (sql_views_soft_delete _ _ _ K).
      rewrite <- forallb_map, deactivate_emails, forallb_map. exact A.
    + rewrite (sql_views_soft_delete _ _ _ K).
      rewrite <- forallb_map, deactivate_ages, forallb_map. exact K.
  - rewrite delete_not_found.
    + cbn. split; [reflexivity|]. unfold related. auto 7.
    + intros r Hr Hn Ha.
      apply (find_none _ _ Er) in Hr. rewrite Hn, Ha in Hr. discriminate.
Qed.

(* ================================================================== *)
(** ** C9: the two models side by side *)

Lemma fresh_related (c1 c2 : nat -> timestamp) :
  related (fresh_sql c1) (Mem.fresh c2).
Proof. repeat split. Qed.

Lemma step_agrees (c : Call) (ws : Sql.World) (wm : Mem.World) :
  related ws wm -> plain c = true ->
  fst (call_sql c ws) = fst (call_mem c wm) /\
  (rejected (fst (call_sql c ws)) = false ->
   related (snd (call_sql c ws)) (snd (call_mem c wm))).
Proof.
  intros R P.
  destruct (is_query c) eqn:Q.
  - pose proof R as (WF & OK & V & N & A & K).
    rewrite (sql_query c ws Q), (mem_query c wm Q P); [|now rewrite <- V].
    cbn [fst snd]. rewrite V. split; [reflexivity|]. intros _. exact R.
  - destruct c; try discriminate.
    + now apply create_agrees.
    + destruct (delete_agrees i ws wm R) as [H1 H2]. split; [exact H1|auto].
Qed.

Lemma run_agrees (cs : list Call) :
  forall (ws : Sql.World) (wm : Mem.World),
    related ws wm -> forallb plain cs = true ->
    existsb rejected (run call_sql cs ws) = false ->
    run call_sql cs ws = run call_mem cs wm /\
    related (final call_sql cs ws) (final call_mem cs wm).
Proof.
  induction cs as [|c cs IH]; intros ws wm R P X; [split; [reflexivity|exact R]|].
  cbn [forallb] in P. apply andb_true_iff in P. destruct P as [Pc Pcs].
  destruct (step_agrees c ws wm R Pc) as [H1 H2].
  cbn [run final] in *.
  destruct (call_sql c ws) as [a ws'] eqn:Es.
  destruct (call_mem c wm) as [b wm'] eqn:Em.
  cbn [fst snd] in *. subst b. cbn [existsb] in X.
  apply orb_false_iff in X. destruct X as [Xa Xcs].
  destruct (IH ws' wm' (H2 Xa) Pcs Xcs) as [I1 I2].
  split; [now rewrite I1|exact I2].
Qed.

Lemma run_app {S} (step : Call -> S -> Answer * S) (cs : list Call) (c : Call)
    (s : S) :
  run step (cs ++ [c]) s = run step cs s ++ [fst (step c (final step cs s))].
Proof.
  revert s. induction cs as [|x cs IH]; intros s; cbn [run final app].
  - now destruct (step c s).
  - destruct (step x s) as [a s']. cbn [snd]. now rewrite IH.
Qed.

(** C9, as stated, fails on the very inputs it names.  A record that
    validation rejects has already taken an identifier in the in-memory
    model, so the next record is 2 there and 1 in the database; the age
    0 is kept by the database model and dropped by the in-memory one. *)
Lemma models_differ :
  run call_sql [Create nameless; Create ana] (fresh_sql sample_clock)
    <> run call_mem [Create nameless; Create ana] (Mem.fresh sample_clock)
  /\
  run call_sql [Create newborn; FindById (Int 1)] (fresh_sql sample_clock)
    <> run call_mem [Create newborn; FindById (Int 1)] (Mem.fresh sample_clock).
Proof.
  split; vm_compute; intros H; discriminate H.
Qed.

(** They also part on letters outside ASCII, which [LOWER] leaves alone
    and [toLowerCase] folds. *)
Example models_differ_on_case_folding :
  run call_sql [Create accented; EmailExists e_acute_small] (fresh_sql sample_clock)
    = [Created true (Some {| v_id := Some 1; v_name := "Eva";
                             v_email := e_acute_capital; v_age := None;
                             v_is_active := true |}) None;
       Flag false]
  /\
  run call_mem [Create accented; EmailExists e_acute_small] (Mem.fresh sample_clock)
    = [Created true (Some {| v_id := Some 1; v_name := "Eva";
                             v_email := e_acute_capital; v_age := None;
                             v_is_active := true |}) None;
       Flag true].
Proof. split; vm_compute; reflexivity. Qed.

(** C9, amended: started on empty stores, with any two clocks, the two
    models give the same answers, timestamps aside, to every sequence of
    calls whose emails are ASCII and whose ages are absent or truthy, up
    to and including the first [create] that is rejected. *)
Theorem models_agree (c1 c2 : nat -> timestamp) (cs : list Call) (c : Call) :
  forallb plain (cs ++ [c]) = true ->
  existsb rejected (run call_sql cs (fresh_sql c1)) = false ->
  run call_sql (cs ++ [c]) (fresh_sql c1) = run call_mem (cs ++ [c]) (Mem.fresh c2).
Proof.
  intros P X. rewrite forallb_app in P. apply andb_true_iff in P.
  destruct P as [Pcs Pc]. cbn [forallb] in Pc. rewrite andb_true_r in Pc.
  destruct (run_agrees cs _ _ (fresh_related c1 c2) Pcs X) as [H R].
  rewrite !run_app, H. f_equal. f_equal.
  apply (step_agrees c _ _ R Pc).
Qed.

Lemma models_agree_witness :
  run call_sql (sample_calls ++ [Create bob]) (fresh_sql sample_clock)
  = run call_mem (sample_calls ++ [Create bob]) (Mem.fresh (fun n => Z.of_nat n)).
Proof.
  apply (models_agree sample_clock (fun n => Z.of_nat n) sample_calls (Create bob));
    vm_compute; reflexivity.
Defined.

Example sample_calls_answers :
  run call_sql (sample_calls ++ [Create bob]) (fresh_sql sample_clock) =
  [Created true (Some {| v_id := Some 1; v_name := "Ana Silva";
                         v_email := "ana@test.com"; v_age := Some (Int 30);
                         v_is_active := true |}) None;
   Created true (Some {| v_id := Some 2; v_name := "Bob";
                         v_email := "bob@test.com"; v_age := None;
                         v_is_active := true |}) None;
   Record_ (Some {| v_id := Some 2; v_name := "Bob"; v_email := "bob@test.com";
                    v_age := None; v_is_active := true |});
   Flag true;
   Records [{| v_id := Some 1; v_name := "Ana Silva"; v_email := "ana@test.com";
               v_age := Some (Int 30); v_is_active := true |}];
   Number 1;
   Record_ None;
   Flag true;
   Created false None (Some [EMAIL_TAKEN])].
Proof. vm_compute. reflexivity. Qed.

(* ================================================================== *)
(** ** C6: identifiers *)

Lemma distinct_NoDup (l : list Z) : distinct Z.eqb l = true -> NoDup l.
Proof.
  induction l as [|x t IH]; [constructor|]. simpl.
  rewrite andb_true_iff, negb_true_iff. intros [Hx Ht].
  constructor; [|now apply IH].
  intros Hin. rewrite existsb_false in Hx. specialize (Hx x Hin).
  rewrite Z.eqb_refl in Hx. discriminate.
Qed.

Lemma well_formed_NoDup (w : Sql.World) :
  well_formed (Sql.db w) = true -> NoDup (sql_ids w).
Proof.
  unfold well_formed. rewrite !andb_true_iff. intros [[[_ I] _] _].
  now apply distinct_NoDup.
Qed.

Lemma mem_ok_NoDup (w : Mem.World) : mem_ok w = true -> NoDup (mem_ids w).
Proof.
  unfold mem_ok. rewrite !andb_true_iff. intros [[[[_ _] _] I] _].
  now apply distinct_NoDup.
Qed.

(** *** The database model *)

Lemma save_assigns_rowid (u u' : Sql.User) (w w' : Sql.World) :
  Sql.id u = None -> Sql.save u w = (Return u', w') ->
  Sql.id u' = Some (Sql.next_rowid (Sql.db w)) /\
  sql_ids w' = sql_ids w ++ [Sql.next_rowid (Sql.db w)] /\
  (forall j, In j (sql_ids w) -> j < Sql.next_rowid (Sql.db w)).
Proof.
  intros Hi H.
  assert (T : Sql.truthy_id (Sql.id u) = None) by now rewrite Hi.
  destruct (existsb (fun r => String.eqb (Sql.row_email r) (Sql.email u))
                    (Sql.users (Sql.db w))) eqn:E.
  - rewrite (save_insert_throws u w T E) in H. discriminate.
  - rewrite (save_insert_run u w T E) in H. cbv zeta in H.
    injection H as <- <-. split; [reflexivity|]. split.
    + unfold sql_ids. cbn [with_db Sql.db inserted Sql.users].
      now rewrite map_app.
    + intros j Hj. apply in_map_iff in Hj. destruct Hj as (x & <- & Hx).
      now apply next_rowid_fresh.
Qed.

Lemma save_keeps_rowid (u : Sql.User) (w : Sql.World) (i : Z) :
  Sql.truthy_id (Sql.id u) = Some i ->
  sql_ids (state_after (Sql.save u) w) = sql_ids w /\
  (forall u' w', Sql.save u w = (Return u', w') -> Sql.id u' = Sql.id u).
Proof.
  intros T. unfold state_after.
  destruct (existsb (fun r => Sql.row_id r =? i) (Sql.users (Sql.db w)) &&
            existsb (fun r => negb (Sql.row_id r =? i)
                              && String.eqb (Sql.row_email r) (Sql.email u))
                    (Sql.users (Sql.db w))) eqn:E.
  - assert (X : Sql.save u w = (Throw Sql.UNIQUE_FAILED, later 1 w)).
    { unfold Sql.save, bind at 1, Sql.now.
      cbn [Sql.with_updated_at Sql.id]. rewrite T.
      unfold bind, Sql.sql_update, bind, Sql.getDb.
      cbn [Sql.db Sql.email Sql.with_updated_at]. rewrite E. reflexivity. }
    rewrite X. split; [reflexivity|]. intros u' w' H. discriminate.
  - rewrite (save_update_run u w i T E). cbv zeta. cbn [snd]. split.
    + unfold sql_ids. cbn [with_db Sql.db updated Sql.users].
      rewrite map_map. apply map_ext. intros x.
      now destruct (Sql.row_id x =? i).
    + intros u' w' H. injection H as <- _. reflexivity.
Qed.

Lemma sql_call_ids (c : Call) (w : Sql.World) :
  well_formed (Sql.db w) = true ->
  well_formed (Sql.db (snd (call_sql c w))) = true /\
  appended (sql_ids w) (sql_ids (snd (call_sql c w))).
Proof.
  intros WF. destruct (is_query c) eqn:Q.
  - rewrite (sql_query c w Q). cbn [snd]. split; [exact WF|now left].
  - destruct c; try discriminate.
    + split.
      * pose proof (create_keeps_well_formed d w WF) as H.
        unfold state_after in H. unfold call_sql.
        destruct (Sql.create d w) as [[r|e] w']; exact H.
      * unfold call_sql. rewrite create_run. cbv zeta.
        destruct (negb (valid (Sql.validate _))); [now left|].
        destruct (existsb _ _); [now left|].
        right. exists (Sql.next_rowid (Sql.db w)). split.
        -- unfold sql_ids. cbn [answer snd with_db Sql.db inserted Sql.users].
           now rewrite map_app.
        -- intros j Hj. apply in_map_iff in Hj. destruct Hj as (x & <- & Hx).
           now apply next_rowid_fresh.
    + split.
      * pose proof (delete_keeps_well_formed i w WF) as H.
        unfold state_after in H. unfold call_sql.
        destruct (Sql.delete i w) as [[r|e] w']; exact H.
      * left. unfold call_sql.
        destruct (active_row_or_none i (Sql.db w)) as [(r & Hr & Hn & Ha)|None].
        -- rewrite (delete_found i w r WF Hr Hn Ha).
           unfold sql_ids. cbn [answer snd with_db Sql.db soft_delete_db Sql.users].
           rewrite map_map. apply map_ext. intros x.
           now destruct (Sql.row_id x =? Sql.row_id r).
        -- now rewrite (delete_not_found i w None).
Qed.

Lemma update_ids (id : string) (b : Controller.UpdateBody) (w : Sql.World) :
  well_formed (Sql.db w) = true ->
  sql_ids (state_after (Controller.update id b) w) = sql_ids w.
Proof.
  intros WF. unfold state_after.
  destruct (active_row_or_none (ParseInt.parseInt id) (Sql.db w))
    as [(r & Hr & Hn & Ha)|None].
  - rewrite (update_run id b w r WF Hr Hn Ha). cbv zeta.
    destruct (taken r b (Sql.db w)); [reflexivity|].
    destruct (negb (valid (Sql.validate _))); [reflexivity|].
    unfold sql_ids. cbn [snd with_db Sql.db update_db Sql.users].
    rewrite map_map. apply map_ext. intros x.
    now destruct (Sql.row_id x =? Sql.row_id r).
  - now rewrite (update_not_found id b w None).
Qed.

(** *** The in-memory model *)

Lemma mem_call_ids (c : Call) (w : Mem.World) :
  mem_ok w = true ->
  mem_ok (snd (call_mem c w)) = true /\
  appended (mem_ids w) (mem_ids (snd (call_mem c w))).
Proof.
  intros OK. destruct c.
  - split.
    + pose proof (mem_create_keeps_ok d w OK) as H.
      unfold state_after in H. unfold call_mem. cbv zeta.
      destruct (Mem.create d w) as [[r|e] w']; exact H.
    + unfold call_mem. cbv zeta. rewrite (mem_create_run w OK). cbv zeta.
      assert (Old : forall o n c,
                mem_ids {| Mem.heap := Mem.heap w ++ [o]; Mem.users := Mem.users w;
                           Mem.nextId := n; Mem.clock := Mem.clock w;
                           Mem.ticks := c |} = mem_ids w).
      { intros o n c. unfold mem_ids. cbn [Mem.users]. apply map_ext_in.
        intros k Hk. unfold Mem.object at 1. cbn [Mem.heap].
        now rewrite (old_object w OK). }
      destruct (negb (valid (Mem.validate _))); [left; apply Old|].
      destruct (existsb _ _); [left; apply Old|].
      right. exists (Mem.nextId w). split.
      * unfold mem_ids. cbn [answer snd Mem.users]. rewrite map_app. f_equal.
        -- apply map_ext_in. intros k Hk. unfold Mem.object at 1. cbn [Mem.heap].
           now rewrite (old_object w OK).
        -- cbn [map]. unfold Mem.object. cbn [Mem.heap]. now rewrite nth_middle.
      * intros j Hj. apply in_map_iff in Hj. destruct Hj as (k & <- & Hk).
        apply (ok_id_range w OK k Hk).
  - split; [exact OK|now left].
  - split; [exact OK|now left].
  - split; [exact OK|now left].
  - split; [exact OK|now left].
  - split.
    + pose proof (mem_delete_keeps_ok i w OK) as H.
      unfold state_after in H. unfold call_mem.
      destruct (Mem.delete i w) as [[r|e] w']; exact H.
    + left. unfold call_mem. rewrite (mem_delete_run w OK). cbv zeta.
      destruct (find _ (Mem.users w)) as [k|]; [|reflexivity].
      unfold mem_ids. cbn [answer snd Mem.users]. apply map_ext. intros j.
      unfold Mem.object. cbn [Mem.heap]. rewrite nth_replace.
      destruct ((k =? j)%nat && (k <? List.length (Mem.heap w))%nat) eqn:E;
        [|reflexivity].
      apply andb_true_iff in E. destruct E as [E _]. apply Nat.eqb_eq in E.
      now subst j.
  - split; [exact OK|now left].
Qed.

(** C6, as stated, fails in the in-memory model: the constructor alone
    gives the record the identifier 1, while the array of stored records
    is still empty. *)
Lemma identifier_before_persistence :
  exists (k : Mem.ref) (w' : Mem.World),
    Mem.new_User (as_UserData ana) (Mem.fresh sample_clock) = (Return k, w') /\
    p_id (Mem.toPublicJSON (Mem.object w' k)) = Some 1 /\
    Mem.users w' = [].
Proof. eexists _, _. split; [reflexivity|]. split; reflexivity. Qed.

(** C6, amended.  In the database model a constructed record has no
    identifier and the table is untouched; the first [save] gives it the
    next rowid, larger than every rowid of the table, and adds exactly
    that rowid; a [save] of a record that has an identifier keeps it; and
    on a well-formed table every call of the model and every [update] of
    the controller leaves a well-formed table whose rowids are pairwise
    distinct and are those held before, in place, with at most one
    larger one added.  In the in-memory model the constructor itself
    takes the identifier from the counter, which it advances, before
    anything is stored; every call keeps the stored identifiers pairwise
    distinct and in place, with at most one larger one added. *)
Theorem identifier_lifecycle :
  (forall (d : UserCreateInput) (w : Sql.World),
     exists (u : Sql.User) (w' : Sql.World),
       Sql.new_User (as_UserData d) w = (Return u, w') /\
       Sql.id u = None /\ Sql.db w' = Sql.db w) /\
  (forall (u u' : Sql.User) (w w' : Sql.World),
     Sql.id u = None -> Sql.save u w = (Return u', w') ->
     Sql.id u' = Some (Sql.next_rowid (Sql.db w)) /\
     sql_ids w' = sql_ids w ++ [Sql.next_rowid (Sql.db w)] /\
     (forall j, In j (sql_ids w) -> j < Sql.next_rowid (Sql.db w))) /\
  (forall (u : Sql.User) (w : Sql.World) (i : Z),
     Sql.truthy_id (Sql.id u) = Some i ->
     sql_ids (state_after (Sql.save u) w) = sql_ids w /\
     (forall u' w', Sql.save u w = (Return u', w') -> Sql.id u' = Sql.id u)) /\
  (forall w : Sql.World,
     well_formed (Sql.db w) = true ->
     NoDup (sql_ids w) /\
     (forall c : Call,
        well_formed (Sql.db (snd (call_sql c w))) = true /\
        appended (sql_ids w) (sql_ids (snd (call_sql c w)))) /\
     (forall (id : string) (b : Controller.UpdateBody),
        well_formed (Sql.db (state_after (Controller.update id b) w)) = true /\
        sql_ids (state_after (Controller.update id b) w) = sql_ids w)) /\
  (forall (d : UserCreateInput) (w : Mem.World),
     exists (k : Mem.ref) (w' : Mem.World),
       Mem.new_User (as_UserData d) w = (Return k, w') /\
       Mem.id (Mem.object w' k) = Mem.nextId w /\
       Mem.nextId w' = Mem.nextId w + 1 /\
       Mem.users w' = Mem.users w) /\
  (forall w : Mem.World,
     mem_ok w = true ->
     NoDup (mem_ids w) /\
     (forall c : Call,
        mem_ok (snd (call_mem c w)) = true /\
        appended (mem_ids w) (mem_ids (snd (call_mem c w))))).
Proof.
  split; [|split; [|split; [|split; [|split]]]].
  - intros d w. eexists _, _. split; [apply new_User_candidate|].
    split; reflexivity.
  - apply save_assigns_rowid.
  - apply save_keeps_rowid.
  - intros w WF. split; [now apply well_formed_NoDup|]. split.
    + intros c. now apply sql_call_ids.
    + intros id b. split; [now apply update_keeps_well_formed|now apply update_ids].
  - intros d w. eexists _, _. split; [reflexivity|].
    split; [|split; reflexivity].
    unfold Mem.object. cbn [Mem.heap]. now rewrite nth_middle.
  - intros w OK. split; [now apply mem_ok_NoDup|].
    intros c. now apply mem_call_ids.
Qed.

Lemma identifier_lifecycle_witness :
  well_formed (Sql.db world_ana) = true /\
  well_formed (Sql.db world_ana_bob) = true /\
  appended (sql_ids world_ana) (sql_ids world_ana_bob) /\
  NoDup (sql_ids world_ana_bob).
Proof.
  destruct identifier_lifecycle as (_ & _ & _ & H & _).
  split; [apply sample_well_formed|].
  destruct (H world_ana (proj1 sample_well_formed)) as (_ & Hc & _).
  destruct (Hc (Create bob)) as [H1 H2].
  split; [exact H1|]. split; [exact H2|].
  destruct (H (snd (call_sql (Create bob) world_ana)) H1) as (N & _).
  exact N.
Defined.

(* ================================================================== *)
(** ** Every reachable table is well formed *)

Lemma reachable_well_formed (w : Sql.World) :
  reachable w -> well_formed (Sql.db w) = true.
Proof.
  induction 1 as [clk|c w _ IH|id b w _ IH].
  - reflexivity.
  - now apply sql_call_ids.
  - now apply update_keeps_well_formed.
Qed.

(** The scenarios of the specification on the sample data. *)
Example create_rejects_case_variant :
  result_of (Sql.create {| i_name := "Ana"; i_email := "ANA@Test.com";
                           i_password := None; i_age := None |}) world_ana
  = Return {| Sql.success := false; Sql.user := None;
              Sql.result_errors := Some [EMAIL_TAKEN] |}
  /\ Sql.db (state_after
               (Sql.create {| i_name := "Ana"; i_email := "ANA@Test.com";
                              i_password := None; i_age := None |}) world_ana)
     = Sql.db world_ana.
Proof. split; vm_compute; reflexivity. Qed.

Example list_view_of_ana :
  option_map Sql.toListJSON (hd_error (map user_of_row (Sql.users (Sql.db world_ana))))
  = Some {| l_name := "Ana Silva"; l_email := "ana@test.com";
            l_age := Some (Int 30) |}.
Proof. vm_compute. reflexivity. Qed.

(* ================================================================== *)
(** * Further properties *)

(** ** Running the handlers [index], [show], [store] and [destroy] *)

Lemma index_run (w : Sql.World) :
  Handlers.index w =
  (Return {| Handlers.status := 200;
             Handlers.reply :=
               Handlers.Listed Handlers.USERS_LISTED
                 (Z.of_nat (List.length (Sql.select_active (Sql.db w))))
                 (map public_of_row (Sql.select_active (Sql.db w))) |}, w).
Proof.
  unfold Handlers.index, try_catch, bind. rewrite findAll_run. unfold ret.
  rewrite !map_map, length_map. reflexivity.
Qed.

Lemma show_run (id : string) (w : Sql.World) :
  Handlers.show id w =
  (Return match hd_error (Sql.select_by_id (ParseInt.parseInt id) (Sql.db w)) with
          | Some r => {| Handlers.status := 200;
                         Handlers.reply := Handlers.Shown (public_of_row r) |}
          | None => Handlers.not_found
          end, w).
Proof.
  unfold Handlers.show, try_catch, bind. rewrite findById_run.
  now destruct (hd_error (Sql.select_by_id (ParseInt.parseInt id) (Sql.db w))).
Qed.

Lemma show_found (id : string) (w : Sql.World) (r : Sql.UserRow) :
  well_formed (Sql.db w) = true -> In r (Sql.users (Sql.db w)) ->
  eq_int (ParseInt.parseInt id) (Sql.row_id r) = true ->
  Sql.row_is_active r = 1 ->
  Handlers.show id w =
  (Return {| Handlers.status := 200;
             Handlers.reply := Handlers.Shown (public_of_row r) |}, w).
Proof.
  intros WF Hr Hn Ha.
  now rewrite show_run, (select_by_id_unique _ WF _ r Hr Hn Ha).
Qed.

Lemma show_not_found (id : string) (w : Sql.World) :
  no_active_row (ParseInt.parseInt id) (Sql.db w) ->
  Handlers.show id w = (Return Handlers.not_found, w).
Proof.
  intros H. rewrite show_run. unfold Sql.select_by_id.
  rewrite filter_none; [reflexivity|].
  intros x Hx. destruct (eq_int (ParseInt.parseInt id) (Sql.row_id x)) eqn:E;
    [|reflexivity].
  specialize (H x Hx E). simpl. apply Z.eqb_neq, H.
Qed.

Lemma destroy_found (id : string) (w : Sql.World) (r : Sql.UserRow) :
  well_formed (Sql.db w) = true -> In r (Sql.users (Sql.db w)) ->
  eq_int (ParseInt.parseInt id) (Sql.row_id r) = true ->
  Sql.row_is_active r = 1 ->
  Handlers.destroy id w =
  (Return {| Handlers.status := 200;
             Handlers.reply := Handlers.Removed Handlers.USER_REMOVED |},
   with_db (soft_delete_db (Sql.row_id r) (Sql.clock w (Sql.ticks w)) (Sql.db w))
           (later 1 w)).
Proof.
  intros WF Hr Hn Ha. unfold Handlers.destroy, try_catch, bind.
  now rewrite (delete_found _ w r WF Hr Hn Ha).
Qed.

Lemma destroy_not_found (id : string) (w : Sql.World) :
  no_active_row (ParseInt.parseInt id) (Sql.db w) ->
  Handlers.destroy id w = (Return Handlers.not_found, w).
Proof.
  intros H. unfold Handlers.destroy, try_catch, bind.
  now rewrite (delete_not_found _ w H).
Qed.

(** The rows with the identifier [n] are inactive once it is deleted. *)
Lemma no_active_row_after_delete (n : number) (i : Z) (t : timestamp)
    (d : Sql.Database) :
  eq_int n i = true -> no_active_row n (soft_delete_db i t d).
Proof.
  intros Hn x Hx Ex. cbn [soft_delete_db Sql.users] in Hx.
  apply in_map_iff in Hx. destruct Hx as (y & <- & Hy).
  destruct (Sql.row_id y =? i) eqn:E.
  - cbn. discriminate.
  - rewrite (eq_int_same n _ _ Ex Hn), Z.eqb_refl in E. discriminate.
Qed.

Lemma no_active_row_NaN (d : Sql.Database) : no_active_row NaN d.
Proof. intros r _ H. discriminate H. Qed.

(** ** Identifiers that name no active record *)

(** X1: An identifier that no active row carries - a soft-deleted one, an
    unknown one, or a text [parseInt] reads as NaN - is answered 404 by
    [show], [update] and [destroy], which then leave the state as it
    was. *)
Theorem missing_record_is_404 (id : string) (w : Sql.World) :
  (no_active_row (ParseInt.parseInt id) (Sql.db w) ->
   Handlers.show id w = (Return Handlers.not_found, w) /\
   (forall b, Controller.update id b w = (Return update_not_found_response, w)) /\
   Handlers.destroy id w = (Return Handlers.not_found, w)) /\
  (ParseInt.parseInt id = NaN ->
   no_active_row (ParseInt.parseInt id) (Sql.db w)).
Proof.
  split.
  - intros H. split; [now apply show_not_found|].
    split; [intros b; now apply update_not_found|now apply destroy_not_found].
  - intros ->. apply no_active_row_NaN.
Qed.

Lemma missing_record_is_404_witness :
  Handlers.show "abc" world_ana_bob = (Return Handlers.not_found, world_ana_bob) /\
  (forall b, Controller.update "abc" b world_ana_bob
             = (Return update_not_found_response, world_ana_bob)) /\
  Handlers.destroy "abc" world_ana_bob = (Return Handlers.not_found, world_ana_bob).
Proof.
  apply (proj1 (missing_record_is_404 "abc" world_ana_bob)).
  apply (proj2 (missing_record_is_404 "abc" world_ana_bob)).
  vm_compute. reflexivity.
Defined.

(** ** [parseInt] reads a decimal numeral back *)

Lemma digits_step (c : ascii) (r : string) (a : N) :
  ParseInt.digits 10 (String c r) (Some a)
  = match ParseInt.digit_value 10 c with
    | Some d => ParseInt.digits 10 r (Some (a * 10 + d)%N)
    | None => Some a
    end.
Proof. reflexivity. Qed.

Lemma digits_numeral_pos (d : Decimal.uint) (p : positive) :
  ParseInt.digits 10 (DecimalString.NilEmpty.string_of_uint d) (Some (N.pos p))
  = Some (N.pos (Pos.of_uint_acc d p)).
Proof.
  revert p. induction d; intros p;
    cbn [DecimalString.NilEmpty.string_of_uint Pos.of_uint_acc];
    [reflexivity|..]; rewrite digits_step;
    match goal with
    | |- context [ParseInt.digit_value 10 ?c] =>
        let v := eval vm_compute in (ParseInt.digit_value 10 c) in
        change (ParseInt.digit_value 10 c) with v
    end;
    cbv iota beta; rewrite <- IHd; f_equal; f_equal; lia.
Qed.

Lemma digits_numeral_zero (d : Decimal.uint) :
  ParseInt.digits 10 (DecimalString.NilEmpty.string_of_uint d) (Some 0%N)
  = Some (Pos.of_uint d).
Proof.
  induction d; cbn [DecimalString.NilEmpty.string_of_uint Pos.of_uint];
    [ reflexivity
    | exact IHd
    | exact (digits_numeral_pos d 1) | exact (digits_numeral_pos d 2)
    | exact (digits_numeral_pos d 3) | exact (digits_numeral_pos d 4)
    | exact (digits_numeral_pos d 5) | exact (digits_numeral_pos d 6)
    | exact (digits_numeral_pos d 7) | exact (digits_numeral_pos d 8)
    | exact (digits_numeral_pos d 9) ].
Qed.

Lemma digits_numeral (d : Decimal.uint) :
  d <> Decimal.Nil ->
  ParseInt.digits 10 (DecimalString.NilEmpty.string_of_uint d) None
  = Some (Pos.of_uint d).
Proof.
  destruct d; intros H;
    [ congruence
    | exact (digits_numeral_zero d)
    | exact (digits_numeral_pos d 1) | exact (digits_numeral_pos d 2)
    | exact (digits_numeral_pos d 3) | exact (digits_numeral_pos d 4)
    | exact (digits_numeral_pos d 5) | exact (digits_numeral_pos d 6)
    | exact (digits_numeral_pos d 7) | exact (digits_numeral_pos d 8)
    | exact (digits_numeral_pos d 9) ].
Qed.

Lemma parseInt_digits (d : Decimal.uint) :
  d <> Decimal.Nil ->
  ParseInt.parseInt (DecimalString.NilEmpty.string_of_uint d)
  = match ParseInt.digits 10 (DecimalString.NilEmpty.string_of_uint d) None with
    | None => NaN
    | Some v => Int (Z.of_N v)
    end.
Proof.
  destruct d as [|d|d|d|d|d|d|d|d|d|d]; intros H; [congruence|..];
    destruct d; reflexivity.
Qed.

Lemma to_uint_not_Nil (n : N) : N.to_uint n <> Decimal.Nil.
Proof.
  intros H. pose proof (DecimalN.Unsigned.of_to n) as E. rewrite H in E.
  cbn in E. subst n. discriminate H.
Qed.

Lemma parseInt_numeral (i : Z) : 0 <= i -> ParseInt.parseInt (numeral i) = Int i.
Proof.
  intros H. unfold numeral.
  pose proof (to_uint_not_Nil (Z.to_N i)) as NN.
  assert (S : DecimalString.NilZero.string_of_uint (N.to_uint (Z.to_N i))
              = DecimalString.NilEmpty.string_of_uint (N.to_uint (Z.to_N i))).
  { destruct (N.to_uint (Z.to_N i)); [congruence|reflexivity..]. }
  rewrite S, (parseInt_digits _ NN), (digits_numeral _ NN).
  change (Pos.of_uint (N.to_uint (Z.to_N i))) with (N.of_uint (N.to_uint (Z.to_N i))).
  rewrite DecimalN.Unsigned.of_to, Z2N.id; [reflexivity|exact H].
Qed.

(** ** Running [store] *)

Lemma new_User_data_of_user (u : Sql.User) (w : Sql.World) :
  exists u', Sql.new_User (Handlers.data_of_user u) w = (Return u', w) /\
             Sql.toPublicJSON u' = Sql.toPublicJSON u.
Proof. eexists. split; reflexivity. Qed.

Lemma store_run (b : Handlers.StoreBody) (w : Sql.World) :
  let d := input_of_body b in
  let u := candidate d (Sql.clock w (Sql.ticks w)) (Sql.clock w (S (Sql.ticks w))) in
  Handlers.store b w =
  if negb (valid (Sql.validate u))
  then (Return (store_refused (errors (Sql.validate u))), later 2 w)
  else if existsb (fun r => same_email (Sql.row_email r) (i_email d))
                  (Sql.users (Sql.db w))
       then (Return (store_refused [EMAIL_TAKEN]), later 2 w)
       else
         let t := Sql.clock w (S (S (Sql.ticks w))) in
         let i := Sql.next_rowid (Sql.db w) in
         (Return (store_created
                    (Sql.toPublicJSON (Sql.with_id (Sql.with_updated_at u t) i))),
          with_db (inserted (row_of_user i (Sql.created_at u)
                                         (Sql.with_updated_at u t))
                            (Sql.db w))
                  (later 3 w)).
Proof.
  intros d u. unfold Handlers.store, try_catch, bind at 1.
  fold (input_of_body b). fold d. rewrite create_run. cbv zeta. fold u.
  destruct (negb (valid (Sql.validate u))); [reflexivity|].
  destruct (existsb _ _); reflexivity.
Qed.

(** ** The handlers never answer 500 *)



(** ** What [index] lists *)

Lemma index_listing (w : Sql.World) :
  Handlers.index w = (Return (listed (listing w)), w).
Proof. rewrite index_run. unfold listed, listing. now rewrite length_map. Qed.

(** X3: [index] lists the public views of exactly the active rows, in table
    order, which are the records [findAll] returns; its count is their
    number and is what [count] answers; it changes nothing. *)
Theorem index_lists_active (w : Sql.World) :
  Handlers.index w = (Return (listed (listing w)), w) /\
  Sql.count w = (Return (Z.of_nat (List.length (listing w))), w) /\
  (exists l, Sql.findAll w = (Return l, w) /\ listing w = map Sql.toPublicJSON l) /\
  (forall r, In r (Sql.users (Sql.db w)) ->
     (In (public_of_row r) (listing w) <-> Sql.row_is_active r = 1)).
Proof.
  split; [|split; [|split]].
  - apply index_listing.
  - rewrite count_run. unfold listing. now rewrite length_map.
  - eexists. split; [apply findAll_run|]. unfold listing, public_of_row.
    now rewrite map_map.
  - intros r Hr. unfold listing, Sql.select_active. split.
    + intros H. apply in_map_iff in H. destruct H as (x & E & Hx).
      apply filter_In in Hx. destruct Hx as [_ Hx]. apply Z.eqb_eq in Hx.
      apply (f_equal p_is_active) in E. cbn in E.
      rewrite Hx in E. simpl in E. symmetry in E. now apply Z.eqb_eq.
    + intros Ha. apply in_map. apply filter_In. split; [exact Hr|].
      now apply Z.eqb_eq.
Qed.

(** ** [store] followed by [show] and [index] *)


Lemma carla_stored :
  Handlers.store carla world_ana_bob = (Return (store_created carla_public), world_carla).
Proof. vm_compute. reflexivity. Qed.

Lemma show_new_row (u : Sql.User) (w w0 : Sql.World) :
  let i := Sql.next_rowid (Sql.db w) in
  let w' := with_db (inserted (row_of_user i (Sql.created_at u) u) (Sql.db w)) w0 in
  Sql.is_active u = true ->
  Handlers.show (numeral i) w'
  = (Return (shown (read_back (Sql.toPublicJSON (Sql.with_id u i)))), w').
Proof.
  intros i w' A. unfold w'.
  rewrite show_run, parseInt_numeral
    by (pose proof (next_rowid_positive (Sql.db w)); unfold i; lia).
  cbn [Sql.db with_db]. unfold i.
  rewrite (select_new_row (Sql.db w)
             (row_of_user (Sql.next_rowid (Sql.db w)) (Sql.created_at u) u)
             eq_refl)
    by (cbn [row_of_user Sql.row_is_active]; now rewrite A).
  cbn [hd_error]. unfold public_of_row, read_back, Sql.toPublicJSON.
  cbn [user_of_row row_of_user Sql.with_id Sql.id Sql.name Sql.email Sql.age
       Sql.is_active Sql.created_at Sql.updated_at Sql.row_id Sql.row_name
       Sql.row_email Sql.row_age Sql.row_is_active Sql.row_created_at
       Sql.row_updated_at p_id p_name p_email p_age p_is_active p_created_at
       p_updated_at].
  now rewrite A.
Qed.

(** X4: When [store] answers 201, the record it returns carries the next
    rowid of the table, and [show] on the decimal numeral of that
    identifier answers 200 with that record as the table gives it back:
    the very same record, except that an age that is no number (the NaN
    [parseInt] makes of a text without digits) comes back as no age. *)
Theorem store_then_show (b : Handlers.StoreBody) (w w' : Sql.World)
    (resp : Handlers.Response) :
  Handlers.store b w = (Return resp, w') ->
  Handlers.status resp = 201 ->
  exists (p : UserPublic) (i : Z),
    resp = store_created p /\ p_id p = Some i /\
    i = Sql.next_rowid (Sql.db w) /\
    p_name p = Handlers.s_name b /\ p_email p = Handlers.s_email b /\
    Handlers.show (numeral i) w' = (Return (shown (read_back p)), w') /\
    (p_age p <> Some NaN ->
     Handlers.show (numeral i) w' = (Return (shown p), w')).
Proof.
  intros H St. rewrite store_run in H. cbv zeta in H.
  destruct (negb (valid (Sql.validate _))).
  { injection H as <- _. discriminate. }
  destruct (existsb _ _).
  { injection H as <- _. discriminate. }
  injection H as <- <-.
  eexists _, _. split; [reflexivity|]. split; [reflexivity|].
  split; [reflexivity|]. split; [reflexivity|]. split; [reflexivity|].
  match goal with
  | |- context [with_db (inserted (row_of_user _ _ ?u) _) ?w0] =>
      pose proof (show_new_row u w w0 eq_refl) as Sh
  end.
  cbv zeta in Sh. split; [exact Sh|].
  intros N. rewrite <- (read_back_same _ N). exact Sh.
Qed.

Lemma store_then_show_witness :
  exists (p : UserPublic) (i : Z),
    store_created carla_public = store_created p /\ p_id p = Some i /\
    i = Sql.next_rowid (Sql.db world_ana_bob) /\
    p_name p = Handlers.s_name carla /\ p_email p = Handlers.s_email carla /\
    Handlers.show (numeral i) world_carla = (Return (shown (read_back p)), world_carla) /\
    (p_age p <> Some NaN ->
     Handlers.show (numeral i) world_carla = (Return (shown p), world_carla)).
Proof.
  apply (store_then_show carla world_ana_bob world_carla (store_created carla_public));
    vm_compute; reflexivity.
Defined.



(** ** [destroy] followed by the other handlers *)

Lemma eq_int_is_Int (n : number) (i : Z) : eq_int n i = true -> n = Int i.
Proof.
  destruct n as [| |q]; try discriminate. unfold eq_int, Int. intros H.
  f_equal. apply Qc_is_canon. apply Qeq_bool_iff in H. rewrite H.
  unfold Q2Qc.
  change (this (Qcmake (Qred (inject_Z i)) (Qred_involutive (inject_Z i))))
    with (Qred (inject_Z i)).
  symmetry. apply Qred_correct.
Qed.

Lemma soft_delete_split (l1 l2 : list Sql.UserRow) (r : Sql.UserRow) (t : timestamp) :
  NoDup (map Sql.row_id (l1 ++ r :: l2)) ->
  map (fun x => if Sql.row_id x =? Sql.row_id r then soft_deleted t x else x)
      (l1 ++ r :: l2)
  = l1 ++ soft_deleted t r :: l2.
Proof.
  intros N. rewrite map_app in N. cbn [map] in N.
  pose proof (NoDup_remove_2 _ _ _ N) as Out.
  rewrite map_app. cbn [map]. rewrite Z.eqb_refl. f_equal; [|f_equal].
  - rewrite <- (map_id l1) at 2. apply map_ext_in. intros x Hx.
    destruct (Z.eqb_spec (Sql.row_id x) (Sql.row_id r)) as [E|]; [|reflexivity].
    exfalso. apply Out, in_or_app. left. rewrite <- E. now apply in_map.
  - rewrite <- (map_id l2) at 2. apply map_ext_in. intros x Hx.
    destruct (Z.eqb_spec (Sql.row_id x) (Sql.row_id r)) as [E|]; [|reflexivity].
    exfalso. apply Out, in_or_app. right. rewrite <- E. now apply in_map.
Qed.

Lemma select_active_soft_delete (d : Sql.Database) (r : Sql.UserRow) (t : timestamp) :
  well_formed d = true -> In r (Sql.users d) -> Sql.row_is_active r = 1 ->
  exists l1 l2, Sql.select_active d = l1 ++ r :: l2 /\
                Sql.select_active (soft_delete_db (Sql.row_id r) t d) = l1 ++ l2.
Proof.
  intros WF Hr Ha.
  pose proof (well_formed_NoDup {| Sql.db := d; Sql.clock := fun _ => 0;
                                   Sql.ticks := O |} WF) as N.
  unfold sql_ids in N. cbn [Sql.db] in N.
  destruct (in_split _ _ Hr) as (a & c & E).
  unfold Sql.select_active, soft_delete_db. cbn [Sql.users].
  rewrite E in N |- *. rewrite (soft_delete_split a c r t N).
  exists (filter (fun x => Sql.row_is_active x =? 1) a),
         (filter (fun x => Sql.row_is_active x =? 1) c).
  rewrite !filter_app. cbn [filter soft_deleted Sql.row_is_active].
  rewrite Ha. cbn [Z.eqb Pos.eqb]. split; reflexivity.
Qed.

(** X6: On a well-formed table, when [destroy] answers 200 the record is
    gone for every handler: [show], [update] and a second [destroy] on
    the same identifier answer 404, and [index] lists what it listed
    before, in the same order, without exactly one record, the one with
    that identifier. *)
Theorem destroy_then_gone (id : string) (w w' : Sql.World) :
  well_formed (Sql.db w) = true ->
  Handlers.destroy id w = (Return removed, w') ->
  Handlers.show id w' = (Return Handlers.not_found, w') /\
  (forall b, Controller.update id b w' = (Return update_not_found_response, w')) /\
  Handlers.destroy id w' = (Return Handlers.not_found, w') /\
  exists (l1 l2 : list UserPublic) (p : UserPublic) (i : Z),
    listing w = l1 ++ p :: l2 /\ listing w' = l1 ++ l2 /\
    p_id p = Some i /\ ParseInt.parseInt id = Int i.
Proof.
  intros WF H.
  destruct (active_row_or_none (ParseInt.parseInt id) (Sql.db w))
    as [(r & Hr & Hn & Ha)|None].
  2:{ rewrite (destroy_not_found id w None) in H. discriminate H. }
  rewrite (destroy_found id w r WF Hr Hn Ha) in H. injection H as <-.
  assert (Gone : no_active_row (ParseInt.parseInt id)
                   (Sql.db (with_db (soft_delete_db (Sql.row_id r)
                                       (Sql.clock w (Sql.ticks w)) (Sql.db w))
                                    (later 1 w)))).
  { cbn [Sql.db with_db]. now apply no_active_row_after_delete. }
  split; [now apply show_not_found|].
  split; [intros b; now apply update_not_found|].
  split; [now apply destroy_not_found|].
  destruct (select_active_soft_delete (Sql.db w) r (Sql.clock w (Sql.ticks w))
              WF Hr Ha) as (l1 & l2 & E1 & E2).
  exists (map public_of_row l1), (map public_of_row l2), (public_of_row r),
         (Sql.row_id r).
  unfold listing. cbn [Sql.db with_db]. rewrite E1, E2, !map_app.
  split; [reflexivity|]. split; [reflexivity|]. split; [reflexivity|].
  now apply eq_int_is_Int.
Qed.

Lemma destroy_then_gone_witness :
  Handlers.show "2" world_bob_deleted = (Return Handlers.not_found, world_bob_deleted) /\
  (forall b, Controller.update "2" b world_bob_deleted
             = (Return update_not_found_response, world_bob_deleted)) /\
  Handlers.destroy "2" world_bob_deleted
  = (Return Handlers.not_found, world_bob_deleted) /\
  exists (l1 l2 : list UserPublic) (p : UserPublic) (i : Z),
    listing world_ana_bob = l1 ++ p :: l2 /\ listing world_bob_deleted = l1 ++ l2 /\
    p_id p = Some i /\ ParseInt.parseInt "2" = Int i.
Proof.
  apply (destroy_then_gone "2" world_ana_bob world_bob_deleted).
  - apply sample_well_formed.
  - vm_compute. reflexivity.
Defined.

(** ** Registered emails *)

(** X7: The email of any row of the table, active or soft-deleted, blocks a
    registration under every spelling that differs in ASCII case only:
    [store] answers 400 (with the validation errors if there are any,
    else with the one message that the email is taken) and writes
    nothing.  If the row is soft-deleted and the table well formed,
    [findByEmail] nevertheless finds no record under that email. *)
Theorem deleted_email_stays_taken (b : Handlers.StoreBody) (w : Sql.World)
    (r : Sql.UserRow) :
  In r (Sql.users (Sql.db w)) ->
  same_email (Sql.row_email r) (Handlers.s_email b) = true ->
  let u := candidate (input_of_body b) (Sql.clock w (Sql.ticks w))
                     (Sql.clock w (S (Sql.ticks w))) in
  Handlers.store b w
  = (Return (store_refused (if valid (Sql.validate u) then [EMAIL_TAKEN]
                            else errors (Sql.validate u))), later 2 w) /\
  (Sql.row_is_active r <> 1 -> well_formed (Sql.db w) = true ->
   Sql.findByEmail (Handlers.s_email b) w = (Return None, w)).
Proof.
  intros Hr He u. split.
  - rewrite store_run. cbv zeta. fold u.
    destruct (valid (Sql.validate u)); [|reflexivity]. cbn [negb].
    replace (existsb _ _) with true; [reflexivity|].
    symmetry. apply existsb_exists. exists r. split; [exact Hr|exact He].
  - intros Hd WF. rewrite findByEmail_run. unfold Sql.select_by_email.
    rewrite filter_none; [reflexivity|].
    intros x Hx.
    destruct (String.eqb (JsString.LOWER (Sql.row_email x))
                         (JsString.LOWER (Handlers.s_email b))) eqn:E;
      [|reflexivity].
    assert (x = r) as ->.
    { apply (wf_same_email _ WF x r Hx Hr).
      apply (same_email_trans _ (Handlers.s_email b)); [exact E|].
      now rewrite same_email_sym. }
    cbn [andb]. now apply Z.eqb_neq.
Qed.

Lemma deleted_email_stays_taken_witness :
  Handlers.store bob_again world_bob_deleted
  = (Return (store_refused [EMAIL_TAKEN]), later 2 world_bob_deleted) /\
  (Sql.row_is_active (soft_deleted 1006 bob_row) <> 1 ->
   well_formed (Sql.db world_bob_deleted) = true ->
   Sql.findByEmail (Handlers.s_email bob_again) world_bob_deleted
   = (Return None, world_bob_deleted)).
Proof.
  apply (deleted_email_stays_taken bob_again world_bob_deleted
                                   (soft_deleted 1006 bob_row)).
  - rewrite sample_rows_deleted. right. now left.
  - vm_compute. reflexivity.
Defined.

(** X8: After a successful [create], [findByEmail] under every spelling of
    the email that differs in ASCII case only finds the created record
    as the table gives it back, with the public view of the created one
    but for an age that is no number, which comes back as no age; and
    [emailExists] answers true. *)
Theorem create_then_findByEmail (d : UserCreateInput) (w w' : Sql.World)
    (res : Sql.CreateUserResult) (e : string) :
  Sql.create d w = (Return res, w') ->
  Sql.success res = true ->
  same_email e (i_email d) = true ->
  exists (u found : Sql.User),
    Sql.user res = Some u /\
    Sql.findByEmail e w' = (Return (Some found), w') /\
    Sql.toPublicJSON found = read_back (Sql.toPublicJSON u) /\
    Sql.emailExists e w' = (Return true, w').
Proof.
  intros H S He. rewrite create_run in H. cbv zeta in H.
  destruct (negb (valid (Sql.validate _))).
  { injection H as <- _. discriminate. }
  destruct (existsb _ _) eqn:Free.
  { injection H as <- _. discriminate. }
  injection H as <- <-. cbn [Sql.user].
  eexists _, _. split; [reflexivity|].
  rewrite findByEmail_run, emailExists_run. cbn [Sql.db with_db].
  unfold Sql.select_by_email, inserted. cbn [Sql.users].
  rewrite filter_app, existsb_app.
  rewrite filter_none.
  2:{ intros x Hx.
      destruct (String.eqb (JsString.LOWER (Sql.row_email x)) (JsString.LOWER e))
        eqn:E; [|reflexivity].
      exfalso. pose proof (proj1 (existsb_false _ _) Free x Hx) as F.
      cbv beta in F.
      rewrite (same_email_trans _ e _ E He) in F. discriminate F. }
  cbn [filter app existsb row_of_user Sql.row_email Sql.row_is_active
       Sql.with_updated_at Sql.email Sql.is_active candidate].
  rewrite same_email_sym in He. unfold same_email in He |- *. rewrite He.
  cbn [andb Z.eqb Pos.eqb hd_error option_map orb].
  rewrite orb_true_r. repeat split.
Qed.

Lemma create_then_findByEmail_witness :
  exists (u found : Sql.User),
    Sql.user {| Sql.success := true;
                Sql.user := Some {| Sql.id := Some 1; Sql.name := "Ana Silva";
                                    Sql.email := "ana@test.com";
                                    Sql.password := Some "segredo";
                                    Sql.age := Some (Int 30);
                                    Sql.is_active := true;
                                    Sql.created_at := 1000;
                                    Sql.updated_at := 1002 |};
                Sql.result_errors := None |} = Some u /\
    Sql.findByEmail "ANA@Test.Com" world_ana = (Return (Some found), world_ana) /\
    Sql.toPublicJSON found = read_back (Sql.toPublicJSON u) /\
    Sql.emailExists "ANA@Test.Com" world_ana = (Return true, world_ana).
Proof.
  apply (create_then_findByEmail ana fresh_world world_ana);
    vm_compute; reflexivity.
Defined.

(** ** [update] followed by [show] *)

Lemma merged_row_public (r : Sql.UserRow) (b : Controller.UpdateBody)
    (t : timestamp) :
  public_of_row (merged_row b t r)
  = read_back (Sql.toPublicJSON
                 (Sql.with_updated_at (Controller.apply_fields (user_of_row r) b) t)).
Proof.
  destruct (apply_fields_frame (user_of_row r) b) as (Fi & Fp & Fa & Fc).
  destruct (apply_fields_values (user_of_row r) b) as (Vn & Ve & Va).
  unfold public_of_row, read_back, Sql.toPublicJSON, Sql.with_updated_at.
  cbn [Sql.id Sql.name Sql.email Sql.age Sql.is_active Sql.created_at
       Sql.updated_at p_id p_name p_email p_age p_is_active p_created_at
       p_updated_at].
  rewrite Fi, Fa, Fc, Vn, Ve, Va. reflexivity.
Qed.

(** X9: On a well-formed table, when [update] answers 200, [show] then
    returns for the same identifier the record of that answer as the
    table gives it back (the same record, but for an age that is no
    number, such as the NaN of [age: null], which comes back as no age),
    and the table is still well formed; when it answers anything else
    nothing has been written. *)
Theorem update_then_show (id : string) (b : Controller.UpdateBody)
    (w w' : Sql.World) (resp : Controller.Response) :
  well_formed (Sql.db w) = true ->
  Controller.update id b w = (Return resp, w') ->
  (Controller.status resp = 200 ->
   exists p, Controller.body resp = Controller.Success Controller.USER_UPDATED p /\
             Handlers.show id w' = (Return (shown (read_back p)), w') /\
             well_formed (Sql.db w') = true) /\
  (Controller.status resp <> 200 -> w' = w).
Proof.
  intros WF H.
  destruct (active_row_or_none (ParseInt.parseInt id) (Sql.db w))
    as [(r & Hr & Hn & Ha)|None].
  2:{ rewrite (update_not_found id b w None) in H. injection H as <- <-.
      split; [discriminate|reflexivity]. }
  rewrite (update_run id b w r WF Hr Hn Ha) in H. cbv zeta in H.
  destruct (taken r b (Sql.db w)) eqn:T.
  { injection H as <- <-. split; [discriminate|reflexivity]. }
  destruct (negb (valid (Sql.validate _))).
  { injection H as <- <-. split; [discriminate|reflexivity]. }
  injection H as <- <-. split; [|intros N; now elim N].
  intros _. eexists. split; [reflexivity|].
  pose proof (well_formed_update (Sql.db w) r b (Sql.clock w (Sql.ticks w))
                WF Hr T) as WF'.
  split; [|exact WF'].
  rewrite (show_found id _ (merged_row b (Sql.clock w (Sql.ticks w)) r)).
  - now rewrite merged_row_public.
  - exact WF'.
  - cbn [Sql.db with_db update_db Sql.users]. apply in_map_iff. exists r.
    now rewrite Z.eqb_refl.
  - exact Hn.
  - exact Ha.
Qed.

Lemma update_then_show_witness :
  (Controller.status bob_older = 200 ->
   exists p, Controller.body bob_older
             = Controller.Success Controller.USER_UPDATED p /\
             Handlers.show "2" world_bob_older
             = (Return (shown (read_back p)), world_bob_older) /\
             well_formed (Sql.db world_bob_older) = true) /\
  (Controller.status bob_older <> 200 -> world_bob_older = world_ana_bob).
Proof.
  apply (update_then_show "2" (only_age (Controller.JString "31"))
                          world_ana_bob world_bob_older bob_older).
  - apply sample_well_formed.
  - vm_compute. reflexivity.
Defined.

(** ** What holds of every served database *)

Lemma check_age_stored (a : option number) :
  Sql.check_age (Sql.stored_number a) = Sql.check_age a.
Proof. now destruct a as [[| |q]|]. Qed.

Lemma validate_same (u v : Sql.User) :
  Sql.name u = Sql.name v -> Sql.email u = Sql.email v ->
  Sql.age u = Sql.stored_number (Sql.age v) ->
  Sql.validate u = Sql.validate v.
Proof.
  intros N E A. unfold Sql.validate. now rewrite N, E, A, check_age_stored.
Qed.

Lemma row_ok_soft_deleted (t : timestamp) (r : Sql.UserRow) :
  row_ok r = true -> row_ok (soft_deleted t r) = true.
Proof.
  unfold row_ok. rewrite !andb_true_iff. intros [V _]. split; [|reflexivity].
  now rewrite (validate_same _ (user_of_row r)).
Qed.

Lemma row_ok_merged (b : Controller.UpdateBody) (t : timestamp) (r : Sql.UserRow) :
  valid (Sql.validate (Controller.apply_fields (user_of_row r) b)) = true ->
  row_ok r = true -> row_ok (merged_row b t r) = true.
Proof.
  unfold row_ok. rewrite !andb_true_iff. intros V [_ F]. split; [|exact F].
  destruct (apply_fields_values (user_of_row r) b) as (Vn & Ve & Va).
  rewrite (validate_same _ (Controller.apply_fields (user_of_row r) b)); auto.
  cbn [user_of_row merged_row Sql.age Sql.row_age]. now rewrite Va.
Qed.

Lemma forallb_map_if {A} (p : A -> bool) (c : A -> bool) (g : A -> A) (l : list A) :
  forallb p l = true -> (forall x, In x l -> c x = true -> p (g x) = true) ->
  forallb p (map (fun x => if c x then g x else x) l) = true.
Proof.
  intros H G. apply forallb_forall. intros y Hy. apply in_map_iff in Hy.
  destruct Hy as (x & <- & Hx). rewrite forallb_forall in H.
  destruct (c x) eqn:C; [now apply G|now apply H].
Qed.

Lemma sorted_snoc (l : list Z) (i : Z) :
  Sorted.StronglySorted Z.lt l -> (forall j, In j l -> j < i) ->
  Sorted.StronglySorted Z.lt (l ++ [i]).
Proof.
  induction 1 as [|a l S IH F]; intros B.
  - repeat constructor.
  - cbn [app]. constructor.
    + apply IH. intros j Hj. apply B. now right.
    + apply Forall_app. split; [exact F|]. constructor; [|constructor].
      apply B. now left.
Qed.

Lemma sorted_filter_map {A} (f : A -> Z) (p : A -> bool) (l : list A) :
  Sorted.StronglySorted Z.lt (map f l) ->
  Sorted.StronglySorted Z.lt (map f (filter p l)).
Proof.
  induction l as [|a l IH]; intros S; [constructor|].
  cbn [map] in S. apply Sorted.StronglySorted_inv in S. destruct S as [S F].
  cbn [filter]. destruct (p a); [|now apply IH].
  cbn [map]. constructor; [now apply IH|].
  rewrite Forall_forall in F |- *. intros x Hx. apply F.
  apply in_map_iff in Hx. destruct Hx as (y & <- & Hy).
  apply in_map. apply filter_In in Hy. tauto.
Qed.

Lemma store_state (b : Handlers.StoreBody) (w : Sql.World) :
  state_after (Handlers.store b) w = state_after (Sql.create (input_of_body b)) w.
Proof.
  unfold state_after. rewrite store_run, create_run. cbv zeta.
  destruct (negb (valid (Sql.validate _))); [reflexivity|].
  destruct (existsb _ _); reflexivity.
Qed.

Lemma destroy_state (id : string) (w : Sql.World) :
  well_formed (Sql.db w) = true ->
  state_after (Handlers.destroy id) w
  = state_after (Sql.delete (ParseInt.parseInt id)) w.
Proof.
  intros WF. unfold state_after.
  destruct (active_row_or_none (ParseInt.parseInt id) (Sql.db w))
    as [(r & Hr & Hn & Ha)|None].
  - now rewrite (destroy_found id w r WF Hr Hn Ha), (delete_found _ w r WF Hr Hn Ha).
  - now rewrite (destroy_not_found id w None), (delete_not_found _ w None).
Qed.

Lemma served_well_formed (w : Sql.World) :
  served w -> well_formed (Sql.db w) = true.
Proof.
  induction 1 as [clk|w _ IH|id w _ IH|b w _ IH|id b w _ IH|id w _ IH].
  - reflexivity.
  - unfold state_after. now rewrite index_run.
  - unfold state_after. now rewrite show_run.
  - rewrite store_state. now apply create_keeps_well_formed.
  - now apply update_keeps_well_formed.
  - rewrite (destroy_state id w IH). now apply delete_keeps_well_formed.
Qed.

Lemma served_rows_ok (w : Sql.World) :
  served w -> forallb row_ok (Sql.users (Sql.db w)) = true.
Proof.
  induction 1 as [clk|w _ IH|id w _ IH|b w _ IH|id b w S IH|id w S IH].
  - reflexivity.
  - unfold state_after. now rewrite index_run.
  - unfold state_after. now rewrite show_run.
  - unfold state_after. rewrite store_run. cbv zeta.
    destruct (negb (valid (Sql.validate _))) eqn:V; [exact IH|].
    destruct (existsb _ _); [exact IH|].
    cbn [snd with_db Sql.db inserted Sql.users]. rewrite forallb_app, IH.
    cbn [forallb andb]. rewrite andb_true_r. unfold row_ok.
    apply negb_false_iff in V. apply andb_true_iff. split; [|reflexivity].
    erewrite validate_same; [exact V|reflexivity..].
  - pose proof (served_well_formed w S) as WF. unfold state_after.
    destruct (active_row_or_none (ParseInt.parseInt id) (Sql.db w))
      as [(r & Hr & Hn & Ha)|None].
    + rewrite (update_run id b w r WF Hr Hn Ha). cbv zeta.
      destruct (taken r b (Sql.db w)); [exact IH|].
      destruct (negb (valid (Sql.validate _))) eqn:V; [exact IH|].
      apply negb_false_iff in V.
      cbn [snd with_db Sql.db update_db Sql.users].
      apply (forallb_map_if row_ok (fun x => Sql.row_id x =? Sql.row_id r)
                            (merged_row b (Sql.clock w (Sql.ticks w))));
        [exact IH|].
      intros x Hx E. apply Z.eqb_eq in E.
      rewrite (wf_same_id _ WF x r Hx Hr E).
      apply row_ok_merged; [exact V|].
      rewrite forallb_forall in IH. now apply IH.
    + now rewrite (update_not_found id b w None).
  - pose proof (served_well_formed w S) as WF. unfold state_after.
    destruct (active_row_or_none (ParseInt.parseInt id) (Sql.db w))
      as [(r & Hr & Hn & Ha)|None].
    + rewrite (destroy_found id w r WF Hr Hn Ha).
      cbn [snd with_db Sql.db soft_delete_db Sql.users].
      apply (forallb_map_if row_ok (fun x => Sql.row_id x =? Sql.row_id r)
                            (soft_deleted (Sql.clock w (Sql.ticks w))));
        [exact IH|].
      intros x Hx _. apply row_ok_soft_deleted.
      rewrite forallb_forall in IH. now apply IH.
    + now rewrite (destroy_not_found id w None).
Qed.

Lemma served_ids_sorted (w : Sql.World) :
  served w -> Sorted.StronglySorted Z.lt (sql_ids w).
Proof.
  induction 1 as [clk|w _ IH|id w _ IH|b w S IH|id b w S IH|id w S IH].
  - constructor.
  - unfold state_after. now rewrite index_run.
  - unfold state_after. now rewrite show_run.
  - unfold state_after. rewrite store_run. cbv zeta.
    destruct (negb (valid (Sql.validate _))); [exact IH|].
    destruct (existsb _ _); [exact IH|].
    unfold sql_ids. cbn [snd with_db Sql.db inserted Sql.users].
    rewrite map_app. apply sorted_snoc; [exact IH|].
    intros j Hj. apply in_map_iff in Hj. destruct Hj as (x & <- & Hx).
    now apply next_rowid_fresh.
  - now rewrite (update_ids id b w (served_well_formed w S)).
  - pose proof (served_well_formed w S) as WF. unfold state_after.
    destruct (active_row_or_none (ParseInt.parseInt id) (Sql.db w))
      as [(r & Hr & Hn & Ha)|None].
    + rewrite (destroy_found id w r WF Hr Hn Ha).
      unfold sql_ids in *. cbn [snd with_db Sql.db soft_delete_db Sql.users].
      rewrite map_map.
      erewrite map_ext; [exact IH|].
      intros x. cbv beta. now destruct (Sql.row_id x =? Sql.row_id r).
    + now rewrite (destroy_not_found id w None).
Qed.

Lemma sample_served : served world_served.
Proof.
  unfold world_served.
  apply served_store, served_destroy, served_store.
  exact (served_fresh sample_clock).
Qed.

(** X10: In every state a server reaches from an empty database by answering
    requests, the table is well formed (positive distinct rowids, emails
    distinct up to ASCII case over all rows, deleted ones included),
    every row carries the flag 0 or 1, and every record [findAll]
    returns passes [validate]. *)
Theorem served_records_valid (w : Sql.World) :
  served w ->
  well_formed (Sql.db w) = true /\
  (forall r, In r (Sql.users (Sql.db w)) ->
     Sql.row_is_active r = 0 \/ Sql.row_is_active r = 1) /\
  exists l, Sql.findAll w = (Return l, w) /\
            forall u, In u l -> valid (Sql.validate u) = true.
Proof.
  intros S. pose proof (served_rows_ok w S) as R. rewrite forallb_forall in R.
  split; [now apply served_well_formed|]. split.
  - intros r Hr. specialize (R r Hr). unfold row_ok in R.
    apply andb_true_iff in R. destruct R as [_ F].
    apply orb_true_iff in F. rewrite !Z.eqb_eq in F. exact F.
  - eexists. split; [apply findAll_run|].
    intros u Hu. apply in_map_iff in Hu. destruct Hu as (r & <- & Hr).
    apply filter_In in Hr. destruct Hr as [Hr _]. specialize (R r Hr).
    unfold row_ok in R. apply andb_true_iff in R. tauto.
Qed.

Lemma served_records_valid_witness :
  well_formed (Sql.db world_served) = true /\
  (forall r, In r (Sql.users (Sql.db world_served)) ->
     Sql.row_is_active r = 0 \/ Sql.row_is_active r = 1) /\
  exists l, Sql.findAll world_served = (Return l, world_served) /\
            forall u, In u l -> valid (Sql.validate u) = true.
Proof. apply (served_records_valid world_served). exact sample_served. Defined.

(** X11: In every served state the rows are held by strictly ascending
    rowid, which is the order of their registration and the order in
    which a SELECT without ORDER BY scans the table: [index] lists the
    records by strictly ascending identifier. *)
Theorem served_listing_ascending (w : Sql.World) :
  served w ->
  exists ids : list Z,
    map p_id (listing w) = map Some ids /\
    Sorted.StronglySorted Z.lt ids /\
    Handlers.index w = (Return (listed (listing w)), w).
Proof.
  intros S. exists (map Sql.row_id (Sql.select_active (Sql.db w))).
  split; [|split].
  - unfold listing. rewrite !map_map. reflexivity.
  - apply sorted_filter_map. exact (served_ids_sorted w S).
  - apply index_listing.
Qed.

Lemma served_listing_ascending_witness :
  exists ids : list Z,
    map p_id (listing world_served) = map Some ids /\
    Sorted.StronglySorted Z.lt ids /\
    Handlers.index world_served = (Return (listed (listing world_served)), world_served).
Proof. apply (served_listing_ascending world_served). exact sample_served. Defined.

(** ** [update] over the in-memory model *)

Lemma replace_same (r : Mem.ref) (h : list Mem.User) :
  Mem.replace r (nth r h Mem.no_object) h = h.
Proof.
  revert r. induction h as [|x h IH]; intros [|r]; cbn; try reflexivity.
  now rewrite IH.
Qed.

Lemma mem_email_taken_run (k : Mem.ref) (b : Controller.UpdateBody) (w : Mem.World) :
  MemController.email_taken k b w = (Return (mem_taken k b w), w).
Proof.
  unfold MemController.email_taken, mem_taken.
  destruct (Controller.truthy_text (Controller.b_email b)) as [e|]; [|reflexivity].
  unfold bind, Mem.deref.
  destruct (negb (String.eqb e (Mem.email (Mem.object w k)))); reflexivity.
Qed.

Lemma assign_run (k : Mem.ref) (f : Mem.User -> Mem.User) (h : list Mem.User)
    (w : Mem.World) :
  Mem.assign k f (with_heap h w)
  = (Return tt, with_heap (Mem.replace k (f (nth k h Mem.no_object)) h) w).
Proof. reflexivity. Qed.

Lemma with_heap_same (w : Mem.World) : with_heap (Mem.heap w) w = w.
Proof. now destruct w. Qed.

Lemma assign_fields_run (k : Mem.ref) (b : Controller.UpdateBody) (w : Mem.World) :
  (k < List.length (Mem.heap w))%nat ->
  MemController.assign_fields k b w
  = (Return tt,
     with_heap (Mem.replace k (mem_apply_fields (Mem.object w k) b) (Mem.heap w)) w).
Proof.
  intros A. unfold MemController.assign_fields, mem_apply_fields, Mem.object.
  rewrite <- (with_heap_same w) at 1. unfold bind.
  destruct (Controller.truthy_text (Controller.b_name b)) as [n|];
    destruct (Controller.truthy_text (Controller.b_email b)) as [e|];
    destruct (Controller.b_age b);
    repeat (rewrite assign_run
            || (rewrite nth_replace_same by (now rewrite ?replace_length))
            || rewrite replace_replace
            || unfold ret);
    rewrite ?replace_same; reflexivity.
Qed.

Lemma mem_apply_fields_frame (o : Mem.User) (b : Controller.UpdateBody) :
  Mem.id (mem_apply_fields o b) = Mem.id o /\
  Mem.is_active (mem_apply_fields o b) = Mem.is_active o /\
  Mem.password (mem_apply_fields o b) = Mem.password o /\
  Mem.created_at (mem_apply_fields o b) = Mem.created_at o.
Proof.
  unfold mem_apply_fields.
  destruct (Controller.truthy_text (Controller.b_name b));
    destruct (Controller.truthy_text (Controller.b_email b));
    destruct (Controller.b_age b); repeat split.
Qed.

Lemma mem_findById_run (n : number) (w : Mem.World) :
  Mem.findById n w
  = (Return (find (fun r => eq_int n (Mem.id (Mem.object w r))
                            && Mem.is_active (Mem.object w r)) (Mem.users w)), w).
Proof. reflexivity. Qed.

(** X12: The handler over the in-memory model changes the stored object
    before it validates it: when [update] answers 400 with a list of
    validation errors, the object that [findById] returns for the same
    identifier afterwards carries the refused fields, and fails
    [validate] with exactly the reported errors. *)
Theorem refused_update_is_kept (id : string) (b : Controller.UpdateBody)
    (w w' : Mem.World) (k : Mem.ref) (m : string) (errs : list string) :
  mem_ok w = true ->
  Mem.findById (ParseInt.parseInt id) w = (Return (Some k), w) ->
  MemController.update id b w
  = (Return {| Controller.status := 400;
               Controller.body := Controller.Failure m (Some errs) |}, w') ->
  Mem.findById (ParseInt.parseInt id) w' = (Return (Some k), w') /\
  Mem.object w' k = mem_apply_fields (Mem.object w k) b /\
  errors (Mem.validate (Mem.object w' k)) = errs /\ errs <> [].
Proof.
  intros OK F H. rewrite mem_findById_run in F.
  assert (Fk : find (fun r => eq_int (ParseInt.parseInt id) (Mem.id (Mem.object w r))
                              && Mem.is_active (Mem.object w r)) (Mem.users w)
               = Some k) by congruence.
  clear F. pose proof (find_some _ _ Fk) as [Ik Pk].
  pose proof (ok_allocated w OK k Ik) as A.
  unfold MemController.update, try_catch, bind at 1 in H.
  rewrite mem_findById_run, Fk in H. unfold bind at 1 in H.
  rewrite mem_email_taken_run in H.
  destruct (mem_taken k b w); [discriminate H|].
  unfold bind at 1 in H. rewrite (assign_fields_run k b w A) in H.
  unfold bind at 1, Mem.deref in H.
  set (o := mem_apply_fields (Mem.object w k) b) in *.
  set (w1 := with_heap (Mem.replace k o (Mem.heap w)) w) in *.
  assert (O1 : Mem.object w1 k = o).
  { unfold Mem.object, w1. cbn [with_heap Mem.heap]. now apply nth_replace_same. }
  rewrite O1 in H.
  destruct (negb (valid (Mem.validate o))) eqn:V.
  2:{ unfold bind in H. destruct (Mem.save k w1) as [[x|e] w2]; discriminate H. }
  unfold ret in H. injection H as _ <- <-. rewrite O1.
  split; [|split; [reflexivity|split; [reflexivity|]]].
  - rewrite mem_findById_run. f_equal. f_equal. rewrite <- Fk.
    apply find_ext_in. intros x Hx. unfold Mem.object, w1.
    cbn [with_heap Mem.heap]. rewrite nth_replace.
    destruct (Nat.eqb_spec k x) as [<-|N]; [|reflexivity].
    apply Nat.ltb_lt in A. rewrite A. cbn [andb].
    destruct (mem_apply_fields_frame (Mem.object w k) b) as (Fi & Fa & _).
    fold o in Fi, Fa. unfold Mem.object in Fi, Fa. now rewrite Fi, Fa.
  - apply negb_true_iff in V. intros E. unfold Mem.validate in V.
    cbn [valid] in V. unfold Mem.validate in E. cbn [errors] in E.
    now rewrite E in V.
Qed.

Lemma refused_update_is_kept_witness :
  Mem.findById (ParseInt.parseInt "1") mem_world_refused
  = (Return (Some O), mem_world_refused) /\
  Mem.object mem_world_refused O
  = mem_apply_fields (Mem.object mem_world_ana O)
                     (only_age (Controller.JString "200")) /\
  errors (Mem.validate (Mem.object mem_world_refused O)) = [AGE_RANGE] /\
  [AGE_RANGE] <> [].
Proof.
  apply (refused_update_is_kept "1" (only_age (Controller.JString "200"))
                                mem_world_ana mem_world_refused O AGE_RANGE);
    vm_compute; reflexivity.
Defined.

Lemma findIndex_own (p : Mem.User -> bool) (w : Mem.World) (l : list Mem.ref)
    (k : Mem.ref) :
  In k l -> p (Mem.object w k) = true ->
  (forall r, In r l -> p (Mem.object w r) = true -> r = k) ->
  exists idx, Mem.findIndex p w l = Some idx /\ Mem.set_nth idx k l = l.
Proof.
  induction l as [|a l IH]; intros I P U; [destruct I|].
  cbn [Mem.findIndex]. destruct (p (Mem.object w a)) eqn:E.
  - exists O. split; [reflexivity|]. cbn [Mem.set_nth].
    now rewrite (U a (or_introl eq_refl) E).
  - destruct I as [->|I]; [congruence|].
    destruct IH as (idx & F & S); [exact I|exact P| |].
    { intros r Hr. apply U. now right. }
    rewrite F. exists (Datatypes.S idx). split; [reflexivity|].
    cbn [Mem.set_nth]. now rewrite S.
Qed.

Lemma mem_save_existing (w : Mem.World) (k : Mem.ref) :
  mem_ok w = true -> In k (Mem.users w) ->
  Mem.save k w = (Return k, mem_stored k (Mem.object w k) w).
Proof.
  intros OK Ik. unfold Mem.save, bind, Mem.now, Mem.assign, get.
  cbn [Mem.heap Mem.users Mem.nextId Mem.clock Mem.ticks].
  match goal with
  | |- context [Mem.findIndex ?p ?w2 (Mem.users w)] =>
      assert (I : forall j, Mem.id (Mem.object w2 j) = Mem.id (Mem.object w j));
      [|destruct (findIndex_own p w2 (Mem.users w) k Ik) as (idx & F & S)]
  end.
  - intros j. unfold Mem.object; cbn [Mem.heap]. rewrite nth_replace.
    destruct ((k =? j)%nat && (k <? List.length (Mem.heap w))%nat) eqn:E;
      [|reflexivity].
    apply andb_true_iff in E. destruct E as [E _]. apply Nat.eqb_eq in E.
    now subst j.
  - apply Z.eqb_refl.
  - intros r Hr E. apply Z.eqb_eq in E. rewrite !I in E.
    now apply (ok_same_id w OK).
  - rewrite F. unfold Mem.set_users, ret.
    cbn [Mem.heap Mem.users Mem.nextId Mem.clock Mem.ticks]. rewrite S.
    reflexivity.
Qed.

Lemma mem_update_run (id : string) (b : Controller.UpdateBody) (w : Mem.World) :
  mem_ok w = true ->
  MemController.update id b w =
  match find (fun r => eq_int (ParseInt.parseInt id) (Mem.id (Mem.object w r))
                       && Mem.is_active (Mem.object w r)) (Mem.users w) with
  | None => (Return update_not_found_response, w)
  | Some k =>
      if mem_taken k b w then (Return conflict, w)
      else
        let o := mem_apply_fields (Mem.object w k) b in
        if negb (valid (Mem.validate o))
        then (Return {| Controller.status := 400;
                        Controller.body :=
                          Controller.Failure
                            (String.concat ", " (errors (Mem.validate o)))
                            (Some (errors (Mem.validate o))) |},
              with_heap (Mem.replace k o (Mem.heap w)) w)
        else (Return {| Controller.status := 200;
                        Controller.body :=
                          Controller.Success Controller.USER_UPDATED
                            (Mem.toPublicJSON
                               (Mem.with_updated_at (Mem.clock w (Mem.ticks w)) o)) |},
              mem_stored k o w)
  end.
Proof.
  intros OK. unfold MemController.update, try_catch, bind at 1.
  rewrite mem_findById_run.
  destruct (find _ (Mem.users w)) as [k|] eqn:Fk; [|reflexivity].
  pose proof (find_some _ _ Fk) as [Ik Pk].
  pose proof (ok_allocated w OK k Ik) as A.
  unfold bind at 1. rewrite mem_email_taken_run.
  destruct (mem_taken k b w); [reflexivity|].
  unfold bind at 1. rewrite (assign_fields_run k b w A).
  unfold bind at 1, Mem.deref. cbv zeta.
  set (o := mem_apply_fields (Mem.object w k) b) in *.
  set (w1 := with_heap (Mem.replace k o (Mem.heap w)) w) in *.
  assert (O1 : Mem.object w1 k = o).
  { unfold Mem.object, w1. cbn [with_heap Mem.heap]. now apply nth_replace_same. }
  rewrite O1. destruct (negb (valid (Mem.validate o))); [reflexivity|].
  assert (OK1 : mem_ok w1 = true).
  { rewrite <- OK. apply mem_ok_same_ids; cbn [w1 with_heap Mem.heap Mem.users Mem.nextId].
    - intros r. unfold Mem.object, w1; cbn [with_heap Mem.heap]. rewrite nth_replace.
      destruct (Nat.eqb_spec k r) as [<-|N]; [|reflexivity].
      apply Nat.ltb_lt in A. rewrite A. cbn [andb].
      apply (mem_apply_fields_frame (Mem.object w k) b).
    - apply replace_length.
    - reflexivity.
    - reflexivity. }
  unfold bind at 1. rewrite (mem_save_existing w1 k OK1 Ik).
  unfold bind, Mem.deref, ret, mem_stored. rewrite O1. clear O1 OK1.
  subst w1. cbn [with_heap Mem.heap Mem.users Mem.nextId Mem.clock Mem.ticks].
  rewrite replace_replace. unfold Mem.object at 1. cbn [Mem.heap].
  rewrite nth_replace_same by exact A. reflexivity.
Qed.

Lemma mem_stored_object (k j : Mem.ref) (o : Mem.User) (w : Mem.World) :
  (k < List.length (Mem.heap w))%nat ->
  Mem.object (mem_stored k o w) j
  = if (k =? j)%nat then Mem.with_updated_at (Mem.clock w (Mem.ticks w)) o
    else Mem.object w j.
Proof.
  intros A. unfold Mem.object, mem_stored. cbn [Mem.heap]. rewrite nth_replace.
  apply Nat.ltb_lt in A. rewrite A. now rewrite andb_true_r.
Qed.

(** X13: Over the in-memory model, when [update] answers 200 on an orderly
    store the change was made in place: the array of users and the
    counter are as before, [findById] returns the same reference as
    before the call, the answer shows the object behind it, which
    carries the fields of the request and passes [validate], every
    other object is untouched and the store is still orderly. *)
Theorem accepted_update_in_place (id : string) (b : Controller.UpdateBody)
    (w w' : Mem.World) (resp : Controller.Response) :
  mem_ok w = true ->
  MemController.update id b w = (Return resp, w') ->
  Controller.status resp = 200 ->
  exists k : Mem.ref,
    Mem.findById (ParseInt.parseInt id) w = (Return (Some k), w) /\
    Mem.findById (ParseInt.parseInt id) w' = (Return (Some k), w') /\
    Controller.body resp
    = Controller.Success Controller.USER_UPDATED (Mem.toPublicJSON (Mem.object w' k)) /\
    Mem.object w' k
    = Mem.with_updated_at (Mem.clock w (Mem.ticks w))
                          (mem_apply_fields (Mem.object w k) b) /\
    valid (Mem.validate (Mem.object w' k)) = true /\
    (forall j, j <> k -> Mem.object w' j = Mem.object w j) /\
    Mem.users w' = Mem.users w /\ Mem.nextId w' = Mem.nextId w /\
    mem_ok w' = true.
Proof.
  intros OK H S. rewrite (mem_update_run id b w OK) in H.
  rewrite !mem_findById_run.
  destruct (find _ (Mem.users w)) as [k|] eqn:Fk.
  2:{ injection H as <- _. discriminate S. }
  pose proof (find_some _ _ Fk) as [Ik Pk].
  pose proof (ok_allocated w OK k Ik) as A.
  destruct (mem_taken k b w).
  { injection H as <- _. discriminate S. }
  cbv zeta in H. destruct (negb (valid (Mem.validate _))) eqn:V.
  { injection H as <- _. discriminate S. }
  injection H as <- <-. apply negb_false_iff in V.
  destruct (mem_apply_fields_frame (Mem.object w k) b) as (Fi & Fa & _).
  assert (I : forall j, Mem.id (Mem.object (mem_stored k (mem_apply_fields (Mem.object w k) b) w) j)
                        = Mem.id (Mem.object w j) /\
                        Mem.is_active (Mem.object (mem_stored k (mem_apply_fields (Mem.object w k) b) w) j)
                        = Mem.is_active (Mem.object w j)).
  { intros j. rewrite (mem_stored_object k j _ w A).
    destruct (Nat.eqb_spec k j) as [<-|N]; [|now split].
    cbn [Mem.with_updated_at Mem.id Mem.is_active]. now split. }
  exists k. split; [reflexivity|]. split.
  { f_equal. f_equal. rewrite <- Fk. apply find_ext_in. intros x _.
    cbn [mem_stored Mem.users].
    destruct (I x) as [-> ->]. reflexivity. }
  rewrite (mem_stored_object k k _ w A), Nat.eqb_refl.
  split; [reflexivity|]. split; [reflexivity|]. split; [exact V|].
  split.
  { intros j N. rewrite (mem_stored_object k j _ w A).
    destruct (Nat.eqb_spec k j) as [E|_]; [now elim N|reflexivity]. }
  split; [reflexivity|]. split; [reflexivity|].
  rewrite <- OK. apply mem_ok_same_ids.
  - intros r. apply I.
  - apply replace_length.
  - reflexivity.
  - reflexivity.
Qed.

Lemma accepted_update_in_place_witness :
  exists k : Mem.ref,
    Mem.findById (ParseInt.parseInt "1") mem_world_ana
    = (Return (Some k), mem_world_ana) /\
    Mem.findById (ParseInt.parseInt "1") mem_world_older
    = (Return (Some k), mem_world_older) /\
    Controller.body ana_older
    = Controller.Success Controller.USER_UPDATED
        (Mem.toPublicJSON (Mem.object mem_world_older k)) /\
    Mem.object mem_world_older k
    = Mem.with_updated_at (Mem.clock mem_world_ana (Mem.ticks mem_world_ana))
        (mem_apply_fields (Mem.object mem_world_ana k)
                          (only_age (Controller.JString "31"))) /\
    valid (Mem.validate (Mem.object mem_world_older k)) = true /\
    (forall j, j <> k -> Mem.object mem_world_older j = Mem.object mem_world_ana j) /\
    Mem.users mem_world_older = Mem.users mem_world_ana /\
    Mem.nextId mem_world_older = Mem.nextId mem_world_ana /\
    mem_ok mem_world_older = true.
Proof.
  apply (accepted_update_in_place "1" (only_age (Controller.JString "31"))
                                  mem_world_ana mem_world_older ana_older);
    vm_compute; reflexivity.
Defined.

(** ** [delete] in the in-memory model *)

Lemma find_all_false {A} (p : A -> bool) (l : list A) :
  (forall x, In x l -> p x = false) -> find p l = None.
Proof.
  induction l as [|a l IH]; intros H; [reflexivity|].
  cbn [find]. rewrite (H a (or_introl eq_refl)). apply IH.
  intros x Hx. apply H. now right.
Qed.

(** X14: In the in-memory model [delete] works through the reference that
    [findById] returns: on an orderly store, when [findById] finds an
    object, [delete] returns true, the object behind that same reference
    is inactive afterwards and stays in the array, no other object
    changes, [findById] no longer finds it, a second [delete] returns
    false and changes nothing, and [emailExists] still answers true for
    its email. *)
Theorem mem_delete_through_reference (n : number) (w : Mem.World) (k : Mem.ref) :
  mem_ok w = true ->
  Mem.findById n w = (Return (Some k), w) ->
  exists w' : Mem.World,
    Mem.delete n w = (Return true, w') /\
    Mem.is_active (Mem.object w' k) = false /\
    Mem.users w' = Mem.users w /\
    (forall j, j <> k -> Mem.object w' j = Mem.object w j) /\
    Mem.findById n w' = (Return None, w') /\
    Mem.delete n w' = (Return false, w') /\
    Mem.emailExists (Mem.email (Mem.object w k)) w' = (Return true, w').
Proof.
  intros OK F. rewrite mem_findById_run in F.
  assert (Fk : find (fun r => eq_int n (Mem.id (Mem.object w r))
                              && Mem.is_active (Mem.object w r)) (Mem.users w)
               = Some k) by congruence.
  clear F. pose proof (find_some _ _ Fk) as [Ik Pk].
  apply andb_true_iff in Pk. destruct Pk as [Pn Pa].
  pose proof (ok_allocated w OK k Ik) as A.
  pose proof (mem_delete_keeps_ok n w OK) as OK'. unfold state_after in OK'.
  rewrite (mem_delete_run w OK n) in *. cbv zeta in *. rewrite Fk in *.
  cbn [snd] in OK'.
  match goal with
  | |- exists w', (_, ?x) = (_, w') /\ _ => set (w1 := x) in *
  end.
  assert (O : forall j, Mem.object w1 j
                        = if (k =? j)%nat
                          then Mem.with_updated_at (Mem.clock w (Mem.ticks w))
                                 (Mem.with_is_active false (Mem.object w k))
                          else Mem.object w j).
  { intros j. unfold Mem.object, w1. cbn [Mem.heap]. rewrite nth_replace.
    apply Nat.ltb_lt in A. rewrite A. now rewrite andb_true_r. }
  assert (None1 : find (fun r => eq_int n (Mem.id (Mem.object w1 r))
                                 && Mem.is_active (Mem.object w1 r)) (Mem.users w1)
                  = None).
  { apply find_all_false. intros x Hx. rewrite (O x).
    destruct (Nat.eqb_spec k x) as [<-|N].
    - cbn [Mem.with_updated_at Mem.with_is_active Mem.is_active].
      apply andb_false_r.
    - destruct (eq_int n (Mem.id (Mem.object w x))) eqn:E; [|reflexivity].
      exfalso. apply N. symmetry. apply (ok_same_id w OK x k Hx Ik).
      exact (eq_int_same n _ _ E Pn). }
  exists w1. split; [reflexivity|]. split.
  { now rewrite (O k), Nat.eqb_refl. }
  split; [reflexivity|]. split.
  { intros j N. rewrite (O j).
    destruct (Nat.eqb_spec k j) as [E|_]; [now elim N|reflexivity]. }
  split; [now rewrite mem_findById_run, None1|].
  split; [now rewrite (mem_delete_run w1 OK' n), None1|].
  unfold Mem.emailExists, bind, get, ret. f_equal. f_equal.
  apply existsb_exists. exists k. split; [exact Ik|].
  rewrite (O k), Nat.eqb_refl.
  cbn [Mem.with_updated_at Mem.with_is_active Mem.email].
  apply String.eqb_refl.
Qed.

Lemma mem_delete_through_reference_witness :
  exists w' : Mem.World,
    Mem.delete (Int 1) mem_world_ana = (Return true, w') /\
    Mem.is_active (Mem.object w' O) = false /\
    Mem.users w' = Mem.users mem_world_ana /\
    (forall j, j <> O -> Mem.object w' j = Mem.object mem_world_ana j) /\
    Mem.findById (Int 1) w' = (Return None, w') /\
    Mem.delete (Int 1) w' = (Return false, w') /\
    Mem.emailExists (Mem.email (Mem.object mem_world_ana O)) w' = (Return true, w').
Proof.
  apply (mem_delete_through_reference (Int 1) mem_world_ana O);
    vm_compute; reflexivity.
Defined.

(** ** Identifiers taken by [create] *)

(** X15: Every [create] of the in-memory model takes an identifier from the
    counter, whether it stores the record or refuses it: the counter
    advances by one, a refused [create] leaves the array as it was, and
    an accepted one appends the reference it returns, whose object
    carries the identifier the counter held.  In the database model a
    refused [create] leaves the table and its next rowid as they were,
    and an accepted one advances the next rowid by one. *)
Theorem create_takes_identifier :
  (forall (d : UserCreateInput) (w w' : Mem.World) (res : Mem.CreateUserResult),
     mem_ok w = true ->
     Mem.create d w = (Return res, w') ->
     Mem.nextId w' = Mem.nextId w + 1 /\
     (Mem.success res = false -> Mem.users w' = Mem.users w) /\
     (Mem.success res = true ->
      exists k, Mem.user res = Some k /\ Mem.users w' = Mem.users w ++ [k] /\
                Mem.id (Mem.object w' k) = Mem.nextId w)) /\
  (forall (d : UserCreateInput) (w w' : Sql.World) (res : Sql.CreateUserResult),
     Sql.create d w = (Return res, w') ->
     (Sql.success res = false -> Sql.db w' = Sql.db w) /\
     (Sql.success res = true ->
      Sql.next_rowid (Sql.db w') = Sql.next_rowid (Sql.db w) + 1 /\
      exists u, Sql.user res = Some u /\ Sql.id u = Some (Sql.next_rowid (Sql.db w)))).
Proof.
  split.
  - intros d w w' res OK H. rewrite (mem_create_run w OK d) in H. cbv zeta in H.
    destruct (negb (valid (Mem.validate _))).
    { injection H as <- <-. split; [reflexivity|]. split; [reflexivity|discriminate]. }
    destruct (existsb _ _).
    { injection H as <- <-. split; [reflexivity|]. split; [reflexivity|discriminate]. }
    injection H as <- <-. split; [reflexivity|]. split; [discriminate|].
    intros _. eexists. split; [reflexivity|]. split; [reflexivity|].
    unfold Mem.object. cbn [Mem.heap]. rewrite app_nth2 by lia.
    now rewrite Nat.sub_diag.
  - intros d w w' res H. rewrite create_run in H. cbv zeta in H.
    destruct (negb (valid (Sql.validate _))).
    { injection H as <- <-. split; [reflexivity|discriminate]. }
    destruct (existsb _ _).
    { injection H as <- <-. split; [reflexivity|discriminate]. }
    injection H as <- <-. split; [discriminate|]. intros _. split.
    + cbn [Sql.db with_db]. now apply next_rowid_inserted.
    + eexists. split; reflexivity.
Qed.

Lemma create_takes_identifier_witness :
  Mem.nextId (state_after (Mem.create unnamed) mem_world_ana)
  = Mem.nextId mem_world_ana + 1 /\
  (Mem.success {| Mem.success := false; Mem.user := None;
                  Mem.result_errors := Some [NAME_REQUIRED] |} = false ->
   Mem.users (state_after (Mem.create unnamed) mem_world_ana)
   = Mem.users mem_world_ana) /\
  (Mem.success {| Mem.success := false; Mem.user := None;
                  Mem.result_errors := Some [NAME_REQUIRED] |} = true ->
   exists k, Mem.user {| Mem.success := false; Mem.user := None;
                         Mem.result_errors := Some [NAME_REQUIRED] |} = Some k /\
             Mem.users (state_after (Mem.create unnamed) mem_world_ana)
             = Mem.users mem_world_ana ++ [k] /\
             Mem.id (Mem.object (state_after (Mem.create unnamed) mem_world_ana) k)
             = Mem.nextId mem_world_ana).
Proof.
  apply (proj1 create_takes_identifier unnamed mem_world_ana);
    vm_compute; reflexivity.
Defined.

(** ** [save] called directly *)

(** X16: [save] on a record whose identifier no row carries runs an UPDATE
    that matches nothing: it returns the record with [updated_at]
    refreshed, as after a successful write, and the table is unchanged. *)
Theorem save_unknown_id_writes_nothing (u : Sql.User) (w : Sql.World) (i : Z) :
  Sql.truthy_id (Sql.id u) = Some i ->
  (forall r, In r (Sql.users (Sql.db w)) -> Sql.row_id r <> i) ->
  exists w', Sql.save u w
             = (Return (Sql.with_updated_at u (Sql.clock w (Sql.ticks w))), w') /\
             Sql.db w' = Sql.db w.
Proof.
  intros T N.
  assert (E : existsb (fun r => Sql.row_id r =? i) (Sql.users (Sql.db w)) = false).
  { apply existsb_false. intros r Hr. apply Z.eqb_neq. now apply N. }
  rewrite (save_update_run u w i T) by now rewrite E.
  cbv zeta. eexists. split; [reflexivity|].
  cbn [Sql.db with_db]. unfold updated.
  rewrite (map_ext_in _ (fun r => r)), map_id.
  - now destruct (Sql.db w).
  - intros r Hr. apply N in Hr. apply Z.eqb_neq in Hr. now rewrite Hr.
Qed.

Lemma save_unknown_id_writes_nothing_witness :
  exists w', Sql.save stranger world_ana_bob
             = (Return (Sql.with_updated_at stranger
                          (Sql.clock world_ana_bob (Sql.ticks world_ana_bob))), w') /\
             Sql.db w' = Sql.db world_ana_bob.
Proof.
  apply (save_unknown_id_writes_nothing stranger world_ana_bob 7).
  - reflexivity.
  - rewrite sample_rows. intros r [<-|[<-|[]]]; discriminate.
Defined.

(** X17: [save] of a new record meets only the UNIQUE constraint of the
    table, which compares emails exactly: with the very email of a row
    it throws and writes nothing; with an email that differs from a
    row's in ASCII case only, and equals no row's exactly, it inserts
    the record, and the table then holds two rows whose emails are the
    same to [emailExists], so it is no longer well formed. *)
Theorem save_checks_exact_email (u : Sql.User) (w : Sql.World) (r : Sql.UserRow) :
  Sql.truthy_id (Sql.id u) = None ->
  In r (Sql.users (Sql.db w)) ->
  (Sql.email u = Sql.row_email r ->
   Sql.save u w = (Throw Sql.UNIQUE_FAILED, later 1 w)) /\
  (same_email (Sql.email u) (Sql.row_email r) = true ->
   (forall x, In x (Sql.users (Sql.db w)) -> Sql.row_email x <> Sql.email u) ->
   exists u' w' row,
     Sql.save u w = (Return u', w') /\
     Sql.users (Sql.db w') = Sql.users (Sql.db w) ++ [row] /\
     Sql.row_email row = Sql.email u /\
     well_formed (Sql.db w') = false).
Proof.
  intros T Hr. split.
  - intros E. apply (save_insert_throws u w T).
    apply existsb_exists. exists r. split; [exact Hr|].
    rewrite E. apply String.eqb_refl.
  - intros S N.
    assert (F : existsb (fun x => String.eqb (Sql.row_email x) (Sql.email u))
                        (Sql.users (Sql.db w)) = false).
    { apply existsb_false. intros x Hx. apply String.eqb_neq. now apply N. }
    rewrite (save_insert_run u w T F). cbv zeta.
    set (row := row_of_user (Sql.next_rowid (Sql.db w)) (Sql.created_at u)
                  (Sql.with_updated_at u (Sql.clock w (Sql.ticks w)))).
    eexists _, _, row. split; [reflexivity|].
    cbn [Sql.db with_db inserted Sql.users].
    split; [reflexivity|]. split; [reflexivity|].
    destruct (well_formed _) eqn:WF; [|reflexivity].
    exfalso. apply (N r Hr).
    assert (X : r = row).
    { apply (wf_same_email _ WF); cbn [Sql.users].
      - apply in_or_app. now left.
      - apply in_or_app. right. now left.
      - cbn [row row_of_user Sql.row_email Sql.with_updated_at Sql.email].
        now rewrite same_email_sym. }
    rewrite X. reflexivity.
Qed.

Lemma save_checks_exact_email_witness :
  (Sql.email ana_capitals = Sql.row_email ana_row ->
   Sql.save ana_capitals world_ana_bob = (Throw Sql.UNIQUE_FAILED, later 1 world_ana_bob)) /\
  (same_email (Sql.email ana_capitals) (Sql.row_email ana_row) = true ->
   (forall x, In x (Sql.users (Sql.db world_ana_bob)) ->
              Sql.row_email x <> Sql.email ana_capitals) ->
   exists u' w' row,
     Sql.save ana_capitals world_ana_bob = (Return u', w') /\
     Sql.users (Sql.db w') = Sql.users (Sql.db world_ana_bob) ++ [row] /\
     Sql.row_email row = Sql.email ana_capitals /\
     well_formed (Sql.db w') = false).
Proof.
  apply (save_checks_exact_email ana_capitals world_ana_bob ana_row).
  - reflexivity.
  - exact ana_row_stored.
Defined.

(** ** Identifiers in the path of a request *)

Lemma digits_stop (a s : string) (acc : option N) :
  no_leading_digit s = true ->
  ParseInt.digits 10 (a ++ s) acc = ParseInt.digits 10 a acc.
Proof.
  intros H. revert acc. induction a as [|c a IH]; intros acc.
  - cbn [String.append]. destruct s as [|c r]; [reflexivity|].
    cbn [no_leading_digit] in H. cbn [ParseInt.digits].
    now destruct (ParseInt.digit_value 10 c).
  - cbn [String.append ParseInt.digits].
    destruct (ParseInt.digit_value 10 c); [apply IH|reflexivity].
Qed.

Lemma parseInt_digits_suffix (d : Decimal.uint) (s : string) :
  d <> Decimal.Nil -> d <> Decimal.D0 Decimal.Nil ->
  ParseInt.parseInt (DecimalString.NilEmpty.string_of_uint d ++ s)
  = match ParseInt.digits 10 (DecimalString.NilEmpty.string_of_uint d ++ s) None with
    | None => NaN
    | Some v => Int (Z.of_N v)
    end.
Proof.
  destruct d as [|d|d|d|d|d|d|d|d|d|d]; intros H Z; [congruence|..].
  1:{ destruct d; [congruence|reflexivity..]. }
  all: cbn [DecimalString.NilEmpty.string_of_uint String.append];
    destruct (DecimalString.NilEmpty.string_of_uint d ++ s)%string; reflexivity.
Qed.

Lemma Int_inj (a b : Z) : Int a = Int b -> a = b.
Proof.
  intros E. apply Z.eqb_eq. rewrite <- eq_int_Int, E, eq_int_Int.
  apply Z.eqb_refl.
Qed.

Lemma parseInt_numeral_suffix (i : Z) (s : string) :
  0 < i -> no_leading_digit s = true ->
  ParseInt.parseInt (numeral i ++ s) = Int i.
Proof.
  intros P H. pose proof (parseInt_numeral i ltac:(lia)) as R.
  unfold numeral in *.
  pose proof (to_uint_not_Nil (Z.to_N i)) as NN.
  assert (S : DecimalString.NilZero.string_of_uint (N.to_uint (Z.to_N i))
              = DecimalString.NilEmpty.string_of_uint (N.to_uint (Z.to_N i))).
  { destruct (N.to_uint (Z.to_N i)); [congruence|reflexivity..]. }
  rewrite S in *.
  assert (NZ : N.to_uint (Z.to_N i) <> Decimal.D0 Decimal.Nil).
  { intros E. rewrite E in R. change (Int 0 = Int i) in R.
    apply Int_inj in R. lia. }
  rewrite (parseInt_digits_suffix _ s NN NZ), (digits_stop _ s None H).
  rewrite (parseInt_digits _ NN) in R. exact R.
Qed.

Lemma show_same_number (id id' : string) (w : Sql.World) :
  ParseInt.parseInt id = ParseInt.parseInt id' ->
  Handlers.show id w = Handlers.show id' w.
Proof. intros E. unfold Handlers.show. now rewrite E. Qed.

Lemma update_same_number (id id' : string) (b : Controller.UpdateBody)
    (w : Sql.World) :
  ParseInt.parseInt id = ParseInt.parseInt id' ->
  Controller.update id b w = Controller.update id' b w.
Proof. intros E. unfold Controller.update. now rewrite E. Qed.

Lemma destroy_same_number (id id' : string) (w : Sql.World) :
  ParseInt.parseInt id = ParseInt.parseInt id' ->
  Handlers.destroy id w = Handlers.destroy id' w.
Proof. intros E. unfold Handlers.destroy. now rewrite E. Qed.

(** X18: The handlers read the identifier of the path with [parseInt], which
    stops at the first character that is no digit: a path made of the
    decimal numeral of a positive identifier followed by anything that
    does not begin with a digit addresses the same record as the numeral
    alone, for [show], [update] and [destroy]. *)
Theorem identifier_with_suffix (i : Z) (s : string) (w : Sql.World) :
  0 < i -> no_leading_digit s = true ->
  Handlers.show (numeral i ++ s) w = Handlers.show (numeral i) w /\
  (forall b, Controller.update (numeral i ++ s) b w
             = Controller.update (numeral i) b w) /\
  Handlers.destroy (numeral i ++ s) w = Handlers.destroy (numeral i) w.
Proof.
  intros P H.
  assert (E : ParseInt.parseInt (numeral i ++ s) = ParseInt.parseInt (numeral i)).
  { rewrite (parseInt_numeral_suffix i s P H), parseInt_numeral; [reflexivity|lia]. }
  split; [now apply show_same_number|].
  split; [intros b; now apply update_same_number|now apply destroy_same_number].
Qed.

Lemma identifier_with_suffix_witness :
  Handlers.show (numeral 2 ++ "abc") world_ana_bob
  = Handlers.show (numeral 2) world_ana_bob /\
  (forall b, Controller.update (numeral 2 ++ "abc") b world_ana_bob
             = Controller.update (numeral 2) b world_ana_bob) /\
  Handlers.destroy (numeral 2 ++ "abc") world_ana_bob
  = Handlers.destroy (numeral 2) world_ana_bob.
Proof.
  apply (identifier_with_suffix 2 "abc" world_ana_bob); [lia|reflexivity].
Defined.

(** ** The age of a request *)



(** ** The shape of a valid record *)

Lemma count_at_app (a b : string) :
  count_at (a ++ b) = (count_at a + count_at b)%nat.
Proof.
  induction a as [|c a IH]; [reflexivity|].
  cbn [String.append count_at]. rewrite IH. lia.
Qed.

Lemma cls_no_at (s : string) :
  JsString.forallb EmailRegex.cls s = true ->
  count_at s = O /\ JsString.forallb (fun c => negb (JsString.is_space c)) s = true.
Proof.
  induction s as [|c s IH]; [now split|].
  cbn [JsString.forallb count_at]. rewrite andb_true_iff. intros [C R].
  destruct (IH R) as [-> ->]. unfold EmailRegex.cls in C.
  apply andb_true_iff in C. destruct C as [C1 C2]. rewrite C1.
  apply negb_true_iff in C2. rewrite C2. now split.
Qed.

(** X20: A record that passes [validate] has a name of at least two
    characters once trimmed, and an email that contains no white space
    and exactly one at sign, followed by a domain that holds a dot with
    something before and after it. *)
Theorem valid_record_shape (u : Sql.User) :
  valid (Sql.validate u) = true ->
  (2 <= String.length (JsString.trim (Sql.name u)))%nat /\
  JsString.forallb (fun c => negb (JsString.is_space c)) (Sql.email u) = true /\
  count_at (Sql.email u) = 1%nat /\
  exists l d t : string,
    Sql.email u = (l ++ "@" ++ d ++ "." ++ t)%string /\
    l <> "" /\ d <> "" /\ t <> "".
Proof.
  intros V. pose proof (proj1 (valid_no_failing_rule u) V) as R.
  assert (N : JsString.trim (Sql.name u) <> "").
  { intros E. apply (R NAME_REQUIRED). now constructor. }
  split.
  { destruct (Nat.lt_ge_cases (String.length (JsString.trim (Sql.name u))) 2)
      as [L|G]; [|exact G].
    exfalso. apply (R NAME_TOO_SHORT). now constructor. }
  assert (E : JsString.trim (Sql.email u) <> "").
  { intros E. apply (R EMAIL_REQUIRED). now constructor. }
  assert (M : EmailRegex.matches (Sql.email u)).
  { apply test_matches. destruct (EmailRegex.test (Sql.email u)) eqn:T;
      [reflexivity|].
    exfalso. apply (R EMAIL_INVALID). constructor; [exact E|].
    intros M. apply test_matches in M. congruence. }
  destruct M as (l & d & t & S & Hl & Hd & Ht & Cl & Cd & Ct).
  destruct (cls_no_at l Cl) as [Al Sl], (cls_no_at d Cd) as [Ad Sd],
           (cls_no_at t Ct) as [At' St].
  rewrite S. split; [|split].
  - rewrite !string_forallb_app, Sl, Sd, St. reflexivity.
  - rewrite !count_at_app, Al, Ad, At'. reflexivity.
  - exists l, d, t. auto.
Qed.

Lemma valid_record_shape_witness :
  (2 <= String.length (JsString.trim (Sql.name (user_of_row ana_row))))%nat /\
  JsString.forallb (fun c => negb (JsString.is_space c))
                   (Sql.email (user_of_row ana_row)) = true /\
  count_at (Sql.email (user_of_row ana_row)) = 1%nat /\
  exists l d t : string,
    Sql.email (user_of_row ana_row) = (l ++ "@" ++ d ++ "." ++ t)%string /\
    l <> "" /\ d <> "" /\ t <> "".
Proof.
  apply (valid_record_shape (user_of_row ana_row)). vm_compute. reflexivity.
Defined.

(** ** The JavaScript handlers over the in-memory model *)

Lemma mapM_deref {B} (f : Mem.User -> B) (l : list Mem.ref) (w : Mem.World) :
  mapM (fun user => Effects.bind (Mem.deref user) (fun this => ret (f this))) l w
  = (Return (map (fun k => f (Mem.object w k)) l), w).
Proof.
  induction l as [|k l IH]; [reflexivity|].
  cbn [mapM map]. unfold bind at 1 2. unfold Mem.deref at 1. unfold ret at 1.
  unfold bind at 1. rewrite IH. reflexivity.
Qed.

Lemma mem_findAll_run (w : Mem.World) :
  Mem.findAll w
  = (Return (filter (fun r => Mem.is_active (Mem.object w r)) (Mem.users w)), w).
Proof. reflexivity. Qed.

Lemma js_index_run (w : Mem.World) :
  JsHandlers.index w = (Return (js_listed (js_listing w)), w).
Proof.
  unfold JsHandlers.index, try_catch, bind at 1. rewrite mem_findAll_run.
  unfold bind at 1. rewrite mapM_deref. unfold js_listed, js_listing.
  reflexivity.
Qed.

Lemma js_show_run (id : string) (w : Mem.World) :
  JsHandlers.show id w =
  (Return match find (fun r => eq_int (ParseInt.parseInt id) (Mem.id (Mem.object w r))
                               && Mem.is_active (Mem.object w r)) (Mem.users w) with
          | Some k => js_shown (Mem.toPublicJSON (Mem.object w k))
          | None => JsHandlers.not_found
          end, w).
Proof.
  unfold JsHandlers.show, try_catch, bind at 1. rewrite mem_findById_run.
  destruct (find _ (Mem.users w)); reflexivity.
Qed.

Lemma js_store_run (b : Handlers.StoreBody) (w : Mem.World) :
  mem_ok w = true ->
  let d := input_of_body b in
  let i := Mem.nextId w in
  let k := List.length (Mem.heap w) in
  let o := candidate_object d i (Mem.clock w (Mem.ticks w))
                            (Mem.clock w (S (Mem.ticks w))) in
  let t := Mem.clock w (S (S (Mem.ticks w))) in
  let w1 := {| Mem.heap := Mem.heap w ++ [o]; Mem.users := Mem.users w;
               Mem.nextId := i + 1; Mem.clock := Mem.clock w;
               Mem.ticks := S (S (Mem.ticks w)) |} in
  JsHandlers.store b w =
  if negb (valid (Mem.validate o))
  then (Return (js_refused (errors (Mem.validate o))), w1)
  else if existsb (fun r => String.eqb (JsString.toLowerCase (Mem.email (Mem.object w r)))
                                       (JsString.toLowerCase (i_email d)))
                  (Mem.users w)
       then (Return (js_refused [EMAIL_TAKEN]), w1)
       else (Return (js_created (Mem.toPublicJSON (Mem.with_updated_at t o))),
             {| Mem.heap := Mem.heap w ++ [Mem.with_updated_at t o];
                Mem.users := Mem.users w ++ [k];
                Mem.nextId := i + 1; Mem.clock := Mem.clock w;
                Mem.ticks := S (S (S (Mem.ticks w))) |}).
Proof.
  intros OK d i k o t w1. unfold JsHandlers.store, try_catch, bind at 1.
  fold (input_of_body b). fold d. rewrite (mem_create_run w OK d). cbv zeta.
  fold i k o t w1.
  destruct (negb (valid (Mem.validate o))); [reflexivity|].
  destruct (existsb _ _); [reflexivity|].
  cbn [negb Mem.success Mem.user]. unfold bind, Mem.deref, ret.
  unfold Mem.object at 1. cbn [Mem.heap]. unfold k.
  rewrite app_nth2 by lia. rewrite Nat.sub_diag. reflexivity.
Qed.

Lemma js_destroy_run (id : string) (w : Mem.World) :
  mem_ok w = true ->
  JsHandlers.destroy id w =
  match find (fun r => eq_int (ParseInt.parseInt id) (Mem.id (Mem.object w r))
                       && Mem.is_active (Mem.object w r)) (Mem.users w) with
  | Some k => (Return js_removed, state_after (Mem.delete (ParseInt.parseInt id)) w)
  | None => (Return JsHandlers.not_found, w)
  end.
Proof.
  intros OK. unfold JsHandlers.destroy, try_catch, bind, state_after.
  rewrite (mem_delete_run w OK). cbv zeta.
  destruct (find _ (Mem.users w)); reflexivity.
Qed.



Lemma find_app_none {A} (p : A -> bool) (l l' : list A) :
  (forall x, In x l -> p x = false) -> find p (l ++ l') = find p l'.
Proof.
  induction l as [|a l IH]; intros H; [reflexivity|].
  cbn [app find]. rewrite (H a (or_introl eq_refl)). apply IH.
  intros x Hx. apply H. now right.
Qed.

(** X22: On an orderly in-memory store, when the JavaScript [store] answers
    201 the record in its answer carries the identifier the counter
    held, [show] on the decimal numeral of that identifier answers 200
    with the same record, and [index] lists what it listed before
    followed by the name, email and age of that record. *)
Theorem js_store_then_show (b : Handlers.StoreBody) (w w' : Mem.World)
    (resp : JsHandlers.Response) :
  mem_ok w = true ->
  JsHandlers.store b w = (Return resp, w') ->
  JsHandlers.status resp = 201 ->
  exists (p : UserPublic),
    resp = js_created p /\ p_id p = Some (Mem.nextId w) /\
    JsHandlers.show (numeral (Mem.nextId w)) w' = (Return (js_shown p), w') /\
    JsHandlers.index w'
    = (Return (js_listed (js_listing w ++ [list_of_public p])), w').
Proof.
  intros OK H S. rewrite (js_store_run b w OK) in H. cbv zeta in H.
  destruct (negb (valid (Mem.validate _))).
  { injection H as <- _. discriminate S. }
  destruct (existsb _ _).
  { injection H as <- _. discriminate S. }
  injection H as <- <-. eexists. split; [reflexivity|]. split; [reflexivity|].
  set (o := Mem.with_updated_at _ _).
  set (w2 := {| Mem.heap := Mem.heap w ++ [o]; Mem.users := _; Mem.nextId := _;
                Mem.clock := _; Mem.ticks := _ |}).
  assert (Old : forall r, In r (Mem.users w) -> Mem.object w2 r = Mem.object w r).
  { intros r Hr. apply (old_object w OK o r Hr). }
  assert (New : Mem.object w2 (List.length (Mem.heap w)) = o).
  { unfold Mem.object, w2. cbn [Mem.heap]. rewrite app_nth2 by lia.
    now rewrite Nat.sub_diag. }
  split.
  - rewrite js_show_run, parseInt_numeral
      by (pose proof (ok_counter w OK); lia).
    cbn [w2 Mem.users]. fold w2. rewrite find_app_none.
    + cbn [find]. rewrite New. unfold o at 1 2.
      cbn [Mem.with_updated_at candidate_object Mem.id Mem.is_active].
      rewrite eq_int_Int, Z.eqb_refl. cbn [andb]. rewrite New. reflexivity.
    + intros r Hr. rewrite (Old r Hr), eq_int_Int.
      pose proof (ok_id_range w OK r Hr) as Rg.
      destruct (Z.eqb_spec (Mem.nextId w) (Mem.id (Mem.object w r))) as [E|_];
        [lia|reflexivity].
  - rewrite js_index_run. unfold js_listing at 1. cbn [w2 Mem.users]. fold w2.
    rewrite filter_app, map_app. cbn [filter]. rewrite New.
    replace (Mem.is_active o) with true by reflexivity. cbn [map]. rewrite New.
    f_equal. f_equal. f_equal. unfold js_listing.
    rewrite (filter_ext_in _ (fun k => Mem.is_active (Mem.object w k)))
      by (intros r Hr; now rewrite (Old r Hr)).
    f_equal. apply map_ext_in. intros r Hr. apply filter_In in Hr.
    now rewrite (Old r (proj1 Hr)).
Qed.

Lemma js_store_then_show_witness :
  exists (p : UserPublic),
    js_created carla_in_memory = js_created p /\
    p_id p = Some (Mem.nextId mem_world_ana) /\
    JsHandlers.show (numeral (Mem.nextId mem_world_ana)) mem_world_carla
    = (Return (js_shown p), mem_world_carla) /\
    JsHandlers.index mem_world_carla
    = (Return (js_listed (js_listing mem_world_ana ++ [list_of_public p])),
       mem_world_carla).
Proof.
  apply (js_store_then_show carla mem_world_ana mem_world_carla
                            (js_created carla_in_memory));
    vm_compute; reflexivity.
Defined.

(** ** What holds of every state of the in-memory store *)

Lemma mem_ok_replaced (w : Mem.World) (k : Mem.ref) (o : Mem.User) (c : nat) :
  mem_ok w = true -> Mem.id o = Mem.id (Mem.object w k) ->
  mem_ok {| Mem.heap := Mem.replace k o (Mem.heap w); Mem.users := Mem.users w;
            Mem.nextId := Mem.nextId w; Mem.clock := Mem.clock w;
            Mem.ticks := c |} = true.
Proof.
  intros OK I. rewrite <- OK. apply mem_ok_same_ids.
  - intros r. unfold Mem.object; cbn [Mem.heap]. rewrite nth_replace.
    destruct ((k =? r)%nat && (k <? List.length (Mem.heap w))%nat) eqn:E;
      [|reflexivity].
    apply andb_true_iff in E. destruct E as [E _]. apply Nat.eqb_eq in E.
    subst r. exact I.
  - apply replace_length.
  - reflexivity.
  - reflexivity.
Qed.

Lemma mem_update_keeps_ok (id : string) (b : Controller.UpdateBody) (w : Mem.World) :
  mem_ok w = true -> mem_ok (state_after (MemController.update id b) w) = true.
Proof.
  intros OK. unfold state_after. rewrite (mem_update_run id b w OK).
  destruct (find _ (Mem.users w)) as [k|]; [|exact OK].
  destruct (mem_taken k b w); [exact OK|]. cbv zeta.
  destruct (mem_apply_fields_frame (Mem.object w k) b) as (Fi & _).
  destruct (negb (valid (Mem.validate _))); cbn [snd].
  - now apply mem_ok_replaced.
  - now apply mem_ok_replaced.
Qed.

Lemma js_served_ok (w : Mem.World) : js_served w -> mem_ok w = true.
Proof.
  induction 1 as [clk|w _ IH|id w _ IH|b w _ IH|id b w _ IH|id w _ IH].
  - reflexivity.
  - unfold state_after. now rewrite js_index_run.
  - unfold state_after. now rewrite js_show_run.
  - pose proof (mem_create_keeps_ok (input_of_body b) w IH) as K.
    unfold state_after in *. rewrite (js_store_run b w IH).
    rewrite (mem_create_run w IH) in K. cbv zeta in *.
    destruct (negb (valid (Mem.validate _))); [exact K|].
    destruct (existsb _ _); exact K.
  - now apply mem_update_keeps_ok.
  - unfold state_after. rewrite (js_destroy_run id w IH).
    destruct (find _ (Mem.users w)); [|exact IH].
    now apply mem_delete_keeps_ok.
Qed.

Lemma sample_js_served : js_served js_world_refused.
Proof.
  unfold js_world_refused. apply js_served_update, js_served_store.
  exact (js_served_fresh sample_clock).
Qed.

(** X23: In every state the JavaScript server reaches from an empty store by
    answering requests, the store is orderly: the array holds pairwise
    distinct references to allocated objects whose identifiers are
    pairwise distinct, positive and below the counter.  The objects
    themselves need not pass [validate]: a served state exists in which
    [findById] returns an object that fails it. *)
Theorem js_served_orderly :
  (forall w, js_served w ->
     mem_ok w = true /\ NoDup (mem_ids w) /\
     forall k, In k (Mem.users w) -> 0 < Mem.id (Mem.object w k) < Mem.nextId w) /\
  (exists w k, js_served w /\
     Mem.findById (Int 1) w = (Return (Some k), w) /\
     valid (Mem.validate (Mem.object w k)) = false).
Proof.
  split.
  - intros w S. pose proof (js_served_ok w S) as OK. split; [exact OK|].
    split; [now apply mem_ok_NoDup|]. intros k Hk. now apply ok_id_range.
  - exists js_world_refused, O. split; [exact sample_js_served|].
    split; vm_compute; reflexivity.
Qed.

Lemma js_served_orderly_witness :
  mem_ok js_world_refused = true /\ NoDup (mem_ids js_world_refused) /\
  forall k, In k (Mem.users js_world_refused) ->
            0 < Mem.id (Mem.object js_world_refused k) < Mem.nextId js_world_refused.
Proof.
  apply (proj1 js_served_orderly js_world_refused). exact sample_js_served.
Defined.
